(** * PFM: the JSON importer, the checksum command and the format engine

    A shallow embedding of the parts of the PFM repository that decide the
    properties stated below:

    - [pfm-js/src/convert.ts]: [fromJSON] (module [Convert]) and the other
      converters, [toJSON], [fromText], [fromMarkdown], [fromCSV],
      [toMarkdown], [escapeCSV] and [toCSV] (module [Converters]), over the
      string methods they call (module [JSString]);
    - [pfm-vscode/src/extension.ts]: [timingSafeEqual] and the
      [pfm.validateChecksum] command (module [Extension]), the
      [pfm.goToSection] command and the CodeLens provider (module
      [Providers]);
    - [pfm-vscode/src/hover/hoverProvider.ts]: [provideHover] (module
      [Hover]);
    - [pfm-chrome/content]: [scrape] of the Moltbot, Grok and Claude
      scrapers over the DOM calls they make (module [Scrapers]);
    - the format engine behind [parse], [serialize] and [computeChecksum]
      (module [Engine]): its source is not among the files at hand, and the
      escape codec, the checksum, the writer and the full parser are
      modelled from the specification.

    JavaScript strings are sequences of UTF-16 code units; they are
    modelled as [list Z].  A serialized file is the sequence of the bytes
    of its text in UTF-8, again a [list Z].  Objects used as dictionaries
    are [gmap]s, the [Set]s of the source are [gset]s. *)

From Stdlib Require Import ZArith List Lia Bool Ascii String.
From stdpp Require Import base decidable option list gmap.

Local Open Scope Z_scope.
#[local] Set Warnings "-register-all".

(** ** JavaScript values *)

Module JS.

(** A string is the list of its code units, [s.length] is [length s]. *)
Abbreviation jsstring := (list Z) (only parsing).

(** The code unit of an ASCII character, for writing literals. *)
Definition code (a : ascii) : Z := Z.of_N (N_of_ascii a).

Definition lit (s : string) : jsstring := map code (list_ascii_of_string s).

(** Every code unit of a string is a 16-bit number. *)
Definition code_unit (c : Z) : Prop := 0 <= c < 65536.

Definition wf_string (s : jsstring) : Prop := Forall code_unit s.

(** The values [JSON.parse] produces.  An object lists its own enumerable
    properties in the order [Object.entries] yields them.  The sources
    never look inside a number: integers stand for all of them. *)
Inductive json : Type :=
| JNull
| JBool (b : bool)
| JNum (n : Z)
| JStr (s : jsstring)
| JArr (items : list json)
| JObj (props : list (jsstring * json)).

(** The results of [typeof] that the sources compare against. *)
Inductive jstype : Type := TUndefined | TObject | TBoolean | TNumber | TString.

#[global] Instance jstype_eq_dec : EqDecision jstype.
Proof. solve_decision. Defined.

(** [typeof v], where [None] is [undefined]. *)
Definition typeof (v : option json) : jstype :=
  match v with
  | None => TUndefined
  | Some JNull => TObject
  | Some (JBool _) => TBoolean
  | Some (JNum _) => TNumber
  | Some (JStr _) => TString
  | Some (JArr _) => TObject
  | Some (JObj _) => TObject
  end.

Definition isArray (v : option json) : bool :=
  match v with Some (JArr _) => true | _ => false end.

Definition isNull (v : option json) : bool :=
  match v with Some JNull => true | _ => false end.

Fixpoint lookup_prop (k : jsstring) (props : list (jsstring * json)) : option json :=
  match props with
  | [] => None
  | (k', v) :: rest => if decide (k' = k) then Some v else lookup_prop k rest
  end.

(** [v.k] for the property names the sources read ([sections], [meta],
    [pfm_version], [name], [content]): none of them is inherited from
    [Object.prototype] or [Array.prototype], so the read finds an own
    property or [undefined]. *)
Definition get (v : json) (k : jsstring) : option json :=
  match v with
  | JObj props => lookup_prop k props
  | _ => None
  end.

(** [k in v] for an object [v] and the property name [sections]. *)
Definition has (v : json) (k : jsstring) : bool :=
  match get v k with Some _ => true | None => false end.

(** [ToInt32]: the operands and the result of [|] and [^]. *)
Definition toInt32 (z : Z) : Z := (z + 2 ^ 31) mod 2 ^ 32 - 2 ^ 31.

Definition bitor (x y : Z) : Z := toInt32 (Z.lor (toInt32 x) (toInt32 y)).

Definition bitxor (x y : Z) : Z := toInt32 (Z.lxor (toInt32 x) (toInt32 y)).

(** [s.charCodeAt(i)]: [None] is [NaN], the result out of range. *)
Definition charCodeAt (s : jsstring) (i : nat) : option Z := nth_error s i.

(** [x || 0] on a number or [NaN]. *)
Definition or_zero (x : option Z) : Z :=
  match x with
  | Some c => if c =? 0 then 0 else c
  | None => 0
  end.

End JS.

Import JS.

(** ** The document model, as [convert.ts] and the conformance tests build it *)

Module Types.

Record PFMSection : Type := mkSection { name : jsstring; content : jsstring }.

Record PFMDocument : Type := mkDocument {
  formatVersion : jsstring;
  isStream : bool;
  meta : gmap jsstring jsstring;
  sections : list PFMSection
}.

End Types.

Import Types.

(** ** pfm-js/src/convert.ts *)

Module Convert.

(** What the platform supplies to [fromJSON]: [JSON.parse] ([None] when it
    throws a [SyntaxError]), [JSON.stringify(data, null, 2)] and the
    clock's [new Date().toISOString()]. *)
Record Host : Type := mkHost {
  JSON_parse : jsstring -> option json;
  JSON_stringify : json -> jsstring;
  Date_toISOString : jsstring
}.

Inductive thrown : Type :=
| SyntaxError
| Error (message : jsstring).

Inductive result (A : Type) : Type :=
| Return (a : A)
| Throw (e : thrown).

Arguments Return {A} a.
Arguments Throw {A} e.

(** [const FORBIDDEN_KEYS = new Set(['__proto__', 'constructor', 'prototype'])] *)
Definition FORBIDDEN_KEYS : gset jsstring :=
  {[ lit "__proto__"; lit "constructor"; lit "prototype" ]}.

(** [const RESERVED_NAMES = new Set(['meta', 'index', 'index-trailing'])] *)
Definition RESERVED_NAMES : gset jsstring :=
  {[ lit "meta"; lit "index"; lit "index-trailing" ]}.

Definition in_range (lo hi : ascii) (c : Z) : bool :=
  (code lo <=? c) && (c <=? code hi).

(** The character class [[a-z0-9_-]]. *)
Definition VALID_NAME_class (c : Z) : bool :=
  in_range "a" "z" c || in_range "0" "9" c || (c =? code "_") || (c =? code "-").

(** [VALID_NAME.test(s)] for [VALID_NAME = /^[a-z0-9_-]+$/]: without the
    [m] flag [^] and [$] match at the two ends of [s] only. *)
Definition VALID_NAME_test (s : jsstring) : bool :=
  match s with
  | [] => false
  | _ :: _ => forallb VALID_NAME_class s
  end.

(** [isDigit c]: [\d]. *)
Definition isDigit (c : Z) : bool := in_range "0" "9" c.

(** [iso.replace(/\.\d{3}Z$/, 'Z')] *)
Definition strip_millis (iso : jsstring) : jsstring :=
  match rev iso with
  | z :: d3 :: d2 :: d1 :: dot :: front =>
      if (z =? code "Z") && isDigit d3 && isDigit d2 && isDigit d1 && (dot =? code ".")
      then rev front ++ lit "Z"
      else iso
  | _ => iso
  end.

(** The first [filter] of [fromJSON]: the type guard
    [s is { name: string; content: string }]. *)
Definition is_section_shaped (s : json) : bool :=
  negb (isNull (Some s))
  && bool_decide (typeof (Some s) = TObject)
  && bool_decide (typeof (get s (lit "name")) = TString)
  && bool_decide (typeof (get s (lit "content")) = TString).

(** [s.k] read at the type [string] the guard established. *)
Definition string_prop (s : json) (k : jsstring) : jsstring :=
  match get s k with
  | Some (JStr x) => x
  | _ => []
  end.

(** The test of the second [filter], on [s.name]. *)
Definition name_accepted (n : jsstring) : bool :=
  (0 <? length n)%nat
  && (length n <=? 64)%nat
  && VALID_NAME_test n
  && negb (bool_decide (n ∈ RESERVED_NAMES)).

(** The loop over [Object.entries(rawMeta)]. *)
Definition sanitize_meta (entries : list (jsstring * json)) : gmap jsstring jsstring :=
  fold_left
    (fun (safeMeta : gmap jsstring jsstring) '(key, val) =>
       if bool_decide (key ∈ FORBIDDEN_KEYS) then safeMeta
       else match val with
            | JStr s => <[key := s]> safeMeta
            | _ => safeMeta
            end)
    entries ∅.

(** [new Error(`Unsupported PFM format version: '${version}'`)] *)
Definition unsupported_version (version : jsstring) : thrown :=
  Error (lit "Unsupported PFM format version: '" ++ version ++ lit "'").

(** [fromJSON] after [const data = JSON.parse(json)]. *)
Definition fromJSON_data (H : Host) (data : json) : result PFMDocument :=
  if isNull (Some data)
     || negb (bool_decide (typeof (Some data) = TObject))
     || isArray (Some data)
     || negb (has data (lit "sections"))
  then
    Return {|
      formatVersion := lit "1.0";
      isStream := false;
      meta := <[lit "created" := strip_millis (Date_toISOString H)]>
                (<[lit "agent" := lit "json-import"]> ∅);
      sections := [ {| name := lit "content"; content := JSON_stringify H data |} ]
    |}
  else
    let rawMeta := get data (lit "meta") in
    let safeMeta :=
      match rawMeta with
      | Some (JObj entries) => sanitize_meta entries
      | _ => ∅
      end in
    let rawSections :=
      match get data (lit "sections") with
      | Some (JArr items) => items
      | _ => []
      end in
    let safeSections :=
      map (fun s => {| name := string_prop s (lit "name");
                       content := string_prop s (lit "content") |})
          (filter (fun s => name_accepted (string_prop s (lit "name")) = true)
                  (filter (fun s => is_section_shaped s = true) rawSections)) in
    let version :=
      match get data (lit "pfm_version") with
      | Some (JStr v) => v
      | _ => lit "1.0"
      end in
    if negb (bool_decide (version = lit "1.0"))
    then Throw (unsupported_version version)
    else
      Return {|
        formatVersion := version;
        isStream := false;
        meta := safeMeta;
        sections := safeSections
      |}.

Definition fromJSON (H : Host) (json : jsstring) : result PFMDocument :=
  match JSON_parse H json with
  | None => Throw SyntaxError
  | Some data => fromJSON_data H data
  end.

(** What becomes of one element of the [sections] array, stated per
    element: the section it is imported as, or [None] when it is dropped.
    The statements about [fromJSON] compare its filter chain with this. *)
Definition section_of (s : json) : option PFMSection :=
  match get s (lit "name"), get s (lit "content") with
  | Some (JStr n), Some (JStr c) =>
      if name_accepted n then Some {| name := n; content := c |} else None
  | _, _ => None
  end.

(** The document [fromJSON] wraps a value in that is not a PFM export. *)
Definition wrapped (H : Host) (data : json) : PFMDocument :=
  {| formatVersion := lit "1.0";
     isStream := false;
     meta := <[lit "created" := strip_millis (Date_toISOString H)]>
               (<[lit "agent" := lit "json-import"]> ∅);
     sections := [ {| name := lit "content"; content := JSON_stringify H data |} ] |}.

(** The version [fromJSON] checks: [data.pfm_version] when it is a string,
    ["1.0"] otherwise. *)
Definition version_read (data : json) : jsstring :=
  match get data (lit "pfm_version") with
  | Some (JStr v) => v
  | _ => lit "1.0"
  end.

(** The meta and the [sections] array [fromJSON] reads off a PFM export. *)
Definition meta_read (data : json) : gmap (list Z) (list Z) :=
  match get data (lit "meta") with
  | Some (JObj entries) => sanitize_meta entries
  | _ => ∅
  end.

Definition items_read (data : json) : list json :=
  match get data (lit "sections") with
  | Some (JArr items) => items
  | _ => []
  end.

(** A code unit of the class [[a-z0-9_-]], by its ranges. *)
Definition name_char (c : Z) : Prop :=
  97 <= c <= 122 \/ 48 <= c <= 57 \/ c = 95 \/ c = 45.

End Convert.

(** ** pfm-vscode/src/extension.ts *)

Module Extension.

(** What a run of [timingSafeEqual] does, step by step: every test with
    its outcome, every read of a code unit with the string and the index
    read, and every operation on numbers.  [x || 0] tests its left operand:
    [OrZero] holds the outcome, [true] when the operand is [NaN] or zero. *)
Inductive operation : Type :=
| LengthsEqual (outcome : bool)
| LoopTest (outcome : bool)
| CharCodeAt (of_a : bool) (i : nat)
| OrZero (falsy : bool)
| BitXor
| BitOrAssign
| Increment.

(** A value with the operations performed to get it. *)
Definition traced (A : Type) : Type := A * list operation.

Definition ret {A : Type} (x : A) : traced A := (x, []).

Definition bind {A B : Type} (m : traced A) (f : A -> traced B) : traced B :=
  (fst (f (fst m)), snd m ++ snd (f (fst m))).

#[local] Notation "'step' x := m 'in' k" := (bind m (fun x => k))
  (at level 10, x name, m at level 100, k at level 200).

(** The operations of the body, each with the step it performs. *)
Definition lengths_equal (a b : jsstring) : traced bool :=
  let outcome := (length a =? length b)%nat in (outcome, [LengthsEqual outcome]).

Definition loop_test (outcome : bool) : traced bool := (outcome, [LoopTest outcome]).

Definition read_code_unit (of_a : bool) (s : jsstring) (i : nat) : traced (option Z) :=
  (charCodeAt s i, [CharCodeAt of_a i]).

Definition falsy_number (x : option Z) : bool :=
  match x with
  | Some c => c =? 0
  | None => true
  end.

Definition or_zero_of (x : option Z) : traced Z := (or_zero x, [OrZero (falsy_number x)]).

Definition xor_of (x y : Z) : traced Z := (bitxor x y, [BitXor]).

Definition or_assign (result x : Z) : traced Z := (bitor result x, [BitOrAssign]).

Definition increment (i : nat) : traced nat := (S i, [Increment]).

(** The loop of [timingSafeEqual], [for (let i = 0; i < len; i++) result |= ...],
    with [n = len - i] iterations to go; it returns the final [i] and
    [result].  The body has no [break] and no [return]. *)
Fixpoint timingSafeEqual_loop (a b : jsstring) (n i : nat) (result : Z) : traced (nat * Z) :=
  match n with
  | O => step _ := loop_test false in ret (i, result)
  | S n' =>
      step _ := loop_test true in
      step x := read_code_unit true a i in
      step x := or_zero_of x in
      step y := read_code_unit false b i in
      step y := or_zero_of y in
      step difference := xor_of x y in
      step result := or_assign result difference in
      step i := increment i in
      timingSafeEqual_loop a b n' i result
  end.

(** The whole function, with its operations. *)
Definition timingSafeEqual_run (a b : jsstring) : traced (nat * bool) :=
  let len := Nat.max (length a) (length b) in
  step same := lengths_equal a b in
  step final := timingSafeEqual_loop a b len 0 (if same then 0 else 1) in
  ret (fst final, snd final =? 0).

Definition timingSafeEqual (a b : jsstring) : bool := snd (fst (timingSafeEqual_run a b)).





(** What the command reads of the editor: [vscode.window.activeTextEditor]
    is [None] when no editor is open. *)
Record TextEditor : Type := mkEditor {
  languageId : jsstring;
  getText : jsstring
}.

(** The fields of a parsed document ([./parser], not among the files at
    hand) that the command reads. *)
Record ParsedSection : Type := mkParsedSection {
  sec_name : jsstring;
  sec_content : jsstring;
  headerLine : Z
}.

Record ParsedDocument : Type := mkParsed {
  doc_meta : gmap jsstring jsstring;
  doc_sections : list ParsedSection
}.

(** The notification a command ends with. *)
Inductive notification : Type :=
| showWarningMessage (message : jsstring)
| showInformationMessage (message : jsstring)
| showErrorMessage (message : jsstring).

Section Commands.

(** The two imports from [./parser]. *)
Variable parsePFM : jsstring -> ParsedDocument.
Variable computeChecksum : list ParsedSection -> jsstring.

(** [!expected] for [expected = doc.meta.checksum]: a missing property and
    the empty string are both falsy. *)
Definition falsy (expected : option jsstring) : bool :=
  match expected with
  | None => true
  | Some [] => true
  | Some (_ :: _) => false
  end.

(** The handler registered for [pfm.validateChecksum]. *)
Definition validateChecksum (activeTextEditor : option TextEditor) : notification :=
  match activeTextEditor with
  | None => showWarningMessage (lit "Open a .pfm file first.")
  | Some editor =>
      if negb (bool_decide (languageId editor = lit "pfm"))
      then showWarningMessage (lit "Open a .pfm file first.")
      else
        let doc := parsePFM (getText editor) in
        let expected := doc_meta doc !! lit "checksum" in
        if falsy expected
        then showWarningMessage (lit "No checksum found in metadata.")
        else
          let expected := default [] expected in
          let actual := computeChecksum (doc_sections doc) in
          if timingSafeEqual actual expected
          then showInformationMessage (lit "PFM Checksum: VALID")
          else showErrorMessage
                 (lit "PFM Checksum: INVALID" ++ [10] ++ lit "Expected: " ++ expected
                  ++ [10] ++ lit "Got: " ++ actual)
  end.

End Commands.

End Extension.

(** ** The format engine

    The engine ([parse], [serialize], [computeChecksum] of [../index.js] in
    the conformance tests) is not among the files at hand; what follows is
    written from the specification, with the marker prefixes spelled as
    [hoverProvider.ts] and [SECURITY.md] spell them. *)

Module Engine.

(** Modelled from the spec: the section-marker prefix of the format
    grammar (§4.2), whose constants module is missing; spelled [#@] as in
    [hoverProvider.ts]. *)
Definition SECTION_PREFIX : jsstring := lit "#@".

(** Modelled from the spec: the prefix the magic line and the EOF marker
    share (§4.1, §4.2), spelled [#!] as in [SECURITY.md]. *)
Definition MAGIC_EOF_PREFIX : jsstring := lit "#!".

(** Modelled from the spec: the prefixes a content line must not begin
    with (§4.1). *)
Definition MARKER_PREFIXES : list jsstring := [SECTION_PREFIX; MAGIC_EOF_PREFIX].

Definition BACKSLASH : Z := 92.

Definition NEWLINE : Z := 10.

(** [line.startsWith(p)] *)
Fixpoint starts_with (p line : jsstring) : bool :=
  match p, line with
  | [], _ => true
  | _ :: _, [] => false
  | c :: p', d :: line' => (c =? d) && starts_with p' line'
  end.

(** The line without its leading run of backslashes. *)
Fixpoint drop_backslashes (line : jsstring) : jsstring :=
  match line with
  | c :: rest => if c =? BACKSLASH then drop_backslashes rest else line
  | [] => []
  end.

(** The physical lines of a text, and the text of a list of lines. *)
Fixpoint split_lines (text : jsstring) : list jsstring :=
  match text with
  | [] => [[]]
  | c :: rest =>
      if c =? NEWLINE then [] :: split_lines rest
      else match split_lines rest with
           | line :: lines => (c :: line) :: lines
           | [] => [[c]]
           end
  end.

Fixpoint join_lines (lines : list jsstring) : jsstring :=
  match lines with
  | [] => []
  | [line] => line
  | line :: lines' => line ++ NEWLINE :: join_lines lines'
  end.

(** A physical line holds no newline. *)
Definition no_newline (line : jsstring) : Prop := ~ In NEWLINE line.

Section Codec.

Variable markers : list jsstring.

(** Modelled from the spec: the test of the missing escape codec for a
    line that begins with a marker prefix, or with one or more backslashes
    followed by a marker prefix (§4.1). *)
Definition marker_like (line : jsstring) : bool :=
  existsb (fun p => starts_with p (drop_backslashes line)) markers.

(** Modelled from the spec: the missing [escape] of §4.1 on one physical
    line; it prepends exactly one backslash to a marker-like line. *)
Definition escape_line_with (line : jsstring) : jsstring :=
  if marker_like line then BACKSLASH :: line else line.

(** Modelled from the spec: the missing [unescape] of §4.1 on one physical
    line; it strips exactly one leading backslash from a line that begins
    with a backslash followed by a marker-like rest. *)
Definition unescape_line_with (line : jsstring) : jsstring :=
  match line with
  | c :: rest => if (c =? BACKSLASH) && marker_like rest then rest else line
  | [] => []
  end.

(** Modelled from the spec: the missing codec on a whole content, line by
    line (§4.1 speaks of physical lines). *)
Definition escape_with (content : jsstring) : jsstring :=
  join_lines (map escape_line_with (split_lines content)).

Definition unescape_with (content : jsstring) : jsstring :=
  join_lines (map unescape_line_with (split_lines content)).

End Codec.

(** Modelled from the spec: the missing [escape] and [unescape] of §4.1,
    for the format's marker prefixes. *)
Definition escape_line : jsstring -> jsstring := escape_line_with MARKER_PREFIXES.

Definition unescape_line : jsstring -> jsstring := unescape_line_with MARKER_PREFIXES.

Definition escape : jsstring -> jsstring := escape_with MARKER_PREFIXES.

Definition unescape : jsstring -> jsstring := unescape_with MARKER_PREFIXES.

Section Checksum.

(** The collision-resistant hash, from a text to its digest. *)
Variable digest : jsstring -> jsstring.

(** Modelled from the spec: the missing [computeChecksum], which the
    conformance test and [extension.ts] import; the hash over the ordered
    concatenation of the section contents only (§4.7). *)
Definition computeChecksum (sections : list PFMSection) : jsstring :=
  digest (concat (map content sections)).

(** Modelled from the spec: the missing [checksum(Document)] of §6, the
    checksum of the document's sections. *)
Definition checksum (d : PFMDocument) : jsstring := computeChecksum (sections d).

End Checksum.

(** *** The wire layout: writer and full parser

    The one-shot writer ([serialize], §4.5), the full-mode parser ([parse],
    §4.3) and the layout they share (§6): the magic line, the meta block of
    [key: value] lines, each section as a header line and its escaped
    content lines, and the EOF marker. *)

(** Modelled from the spec: the constants of the missing grammar module
    (§4.2).  The magic-line prefix, the EOF marker and the stream flag are
    spelled as [hoverProvider.ts] spells them, the index markers as the
    reserved names of [convert.ts]; the supported-version set is the one
    version [convert.ts] accepts; the ceilings are those of §3. *)
Definition MAGIC : jsstring := lit "#!PFM".

Definition EOF_MARKER : jsstring := lit "#!END".

Definition STREAM_FLAG : jsstring := lit ":STREAM".

Definition INDEX_MARKERS : list jsstring := [lit "index"; lit "index-trailing"].

Definition TRAILING_INDEX : jsstring := lit "index-trailing".

Definition SUPPORTED_FORMAT_VERSIONS : list jsstring := [lit "1.0"].

Definition MAX_SECTIONS : Z := 10000.

Definition MAX_META_FIELDS : Z := 100.

Definition COLON : Z := 58.

Definition SPACE : Z := 32.

(** Modelled from the spec: the missing section-name validator (§3, §4.2);
    it is the test [convert.ts] applies to a section name. *)
Definition valid_section_name : jsstring -> bool := Convert.name_accepted.

(** Modelled from the spec: the missing sanitizer of meta values, which
    strips the control characters 0x00 to 0x1F and 0x7F (§3). *)
Definition is_control (c : Z) : bool := ((0 <=? c) && (c <=? 31)) || (c =? 127).

Definition strip_control (value : jsstring) : jsstring :=
  List.filter (fun c => negb (is_control c)) value.

(** Modelled from the spec: the writer's restriction of meta keys to the
    identifier charset (§4.5): letters, digits, [_] and [-], the charset
    [toMarkdown] of [convert.ts] keeps in a key. *)
Definition is_identifier_char (c : Z) : bool :=
  Convert.in_range "a" "z" c || Convert.in_range "A" "Z" c || Convert.in_range "0" "9" c
  || (c =? code "_") || (c =? code "-").

Definition restrict_key (key : jsstring) : jsstring := List.filter is_identifier_char key.

(** Modelled from the spec: line 1 of the layout (§6), the magic marker,
    the format version and the stream flag of a stream document. *)
Definition magic_line (d : PFMDocument) : jsstring :=
  MAGIC ++ lit "/" ++ formatVersion d ++ (if isStream d then STREAM_FLAG else []).

(** Modelled from the spec: one line [key: value] of the meta block (§6),
    as the missing writer emits it (§4.5). *)
Definition meta_line (entry : jsstring * jsstring) : jsstring :=
  restrict_key (fst entry) ++ [COLON; SPACE] ++ strip_control (snd entry).

(** Modelled from the spec: a section on the wire (§6), its header line
    and its escaped content lines. *)
Definition section_lines (s : PFMSection) : list jsstring :=
  (SECTION_PREFIX ++ name s) :: map escape_line (split_lines (content s)).

(** A number in decimal digits, as an index entry and the EOF line write
    an offset. *)
Fixpoint digits (fuel n : nat) (acc : jsstring) : jsstring :=
  match fuel with
  | O => acc
  | S fuel' =>
      let acc' := (48 + Z.of_nat (n mod 10)) :: acc in
      if (n / 10 =? 0)%nat then acc' else digits fuel' (n / 10) acc'
  end.

Definition decimal (n : nat) : jsstring := digits (S n) n [].

(** Modelled from the spec: where the missing writer puts the index block
    of a stream document.  §6 places it after the content, where its size
    moves no section; §4.5 speaks of an index whose encoded size moves the
    offsets it lists, which is an index before the content, under the
    marker [index] that [convert.ts] reserves beside [index-trailing].  The
    writer is modelled for both places. *)
Inductive placement : Type :=
| Leading
| Trailing.

Definition LEADING_INDEX : jsstring := lit "index".

Definition index_marker (place : placement) : jsstring :=
  match place with
  | Leading => LEADING_INDEX
  | Trailing => TRAILING_INDEX
  end.

Section Writer.

Variable place : placement.

(** The entry lines of the index and the offset written on the EOF line are
    the business of the writer's index computation, which the full parser
    never reads; they are left open here. *)
Variable index_entries : PFMDocument -> list jsstring.
Variable index_offset : PFMDocument -> jsstring.

(** Modelled from the spec: the index block of a stream document (§6),
    its entry lines under its marker line. *)
Definition index_lines (d : PFMDocument) : list jsstring :=
  if isStream d then (SECTION_PREFIX ++ index_marker place) :: index_entries d else [].

(** Modelled from the spec: the terminator (§6), the EOF marker, carrying
    the offset of the index in stream mode. *)
Definition eof_line (d : PFMDocument) : jsstring :=
  EOF_MARKER ++ (if isStream d then COLON :: index_offset d else []).

(** Modelled from the spec: the lines the missing writer emits before the
    first section (§4.5): the magic line, the meta block and an index
    block placed before the content. *)
Definition head_lines (d : PFMDocument) : list jsstring :=
  magic_line d
  :: map meta_line (map_to_list (meta d))
  ++ match place with Leading => index_lines d | Trailing => [] end.

(** Modelled from the spec: the lines after the last section: an index
    block placed after the content, and the EOF marker. *)
Definition tail_lines (d : PFMDocument) : list jsstring :=
  match place with Leading => [] | Trailing => index_lines d end ++ [eof_line d].

(** Modelled from the spec: the missing [serialize] (§4.5), which emits in
    order the magic line, the meta block, each section and, in stream mode,
    the index, and ends with the EOF marker. *)
Definition serialize_lines (d : PFMDocument) : list jsstring :=
  head_lines d ++ flat_map section_lines (sections d) ++ tail_lines d.

Definition serialize (d : PFMDocument) : jsstring := join_lines (serialize_lines d).

End Writer.

(** *** The bytes of a file *)

(** The two halves of a surrogate pair, and the bytes of a code point in
    UTF-8. *)
Definition is_high_surrogate (c : Z) : bool := (55296 <=? c) && (c <=? 56319).

Definition is_low_surrogate (c : Z) : bool := (56320 <=? c) && (c <=? 57343).

Definition utf8_scalar (u : Z) : list Z :=
  if u <? 128 then [u]
  else if u <? 2048 then [192 + u / 64; 128 + u mod 64]
  else if u <? 65536 then [224 + u / 4096; 128 + (u / 64) mod 64; 128 + u mod 64]
  else [240 + u / 262144; 128 + (u / 4096) mod 64; 128 + (u / 64) mod 64; 128 + u mod 64].

Definition REPLACEMENT : list Z := utf8_scalar 65533.

(** Modelled from the spec: the serialized bytes of a text (§3 and §6
    count the offset and the length of an index entry in bytes of the
    serialized file): the text in UTF-8, as [TextEncoder] writes a string,
    a surrogate pair as the four bytes of its code point and a surrogate
    without its pair as U+FFFD.  [high] is a high surrogate read just
    before, which waits for its low surrogate. *)
Fixpoint utf8_from (high : option Z) (text : jsstring) : list Z :=
  match text with
  | [] => match high with Some _ => REPLACEMENT | None => [] end
  | c :: rest =>
      match high with
      | Some h =>
          if is_low_surrogate c
          then utf8_scalar (65536 + (h - 55296) * 1024 + (c - 56320)) ++ utf8_from None rest
          else REPLACEMENT
               ++ (if is_high_surrogate c then utf8_from (Some c) rest
                   else utf8_scalar c ++ utf8_from None rest)
      | None =>
          if is_high_surrogate c then utf8_from (Some c) rest
          else if is_low_surrogate c then REPLACEMENT ++ utf8_from None rest
          else utf8_scalar c ++ utf8_from None rest
      end
  end.

Definition utf8 (text : jsstring) : list Z := utf8_from None text.

Definition byte_length (text : jsstring) : nat := length (utf8 text).

(** *** The index of a stream document and its convergence loop *)

(** Modelled from the spec: an entry of the index (§3): the name of a
    section, the offset of its escaped content in the serialized file and
    the length of that content, both in bytes. *)
Record IndexEntry : Type := mkEntry {
  entry_name : jsstring;
  byteOffset : nat;
  byteLength : nat
}.

(** Modelled from the spec: the line of an entry in the index block, its
    three fields of §6 in that order, the numbers in decimal. *)
Definition encode_entry (e : IndexEntry) : jsstring :=
  entry_name e ++ [SPACE] ++ decimal (byteOffset e) ++ [SPACE] ++ decimal (byteLength e).

(** Modelled from the spec: the entries of the sections in document order
    (§3), for sections whose first header line starts at the byte offset
    [pos]: a header line, a newline, the escaped content, a newline. *)
Fixpoint locate (pos : nat) (secs : list PFMSection) : list IndexEntry :=
  match secs with
  | [] => []
  | s :: rest =>
      let start := (pos + byte_length (SECTION_PREFIX ++ name s) + 1)%nat in
      let len := byte_length (escape (content s)) in
      {| entry_name := name s; byteOffset := start; byteLength := len |}
      :: locate (start + len + 1) rest
  end.

(** The digit-width of each offset of an index. *)
Definition offset_widths (index : list IndexEntry) : list nat :=
  map (fun e => length (decimal (byteOffset e))) index.

(** Modelled from the spec: the bound on the attempts of the convergence
    loop (§4.5 gives 3). *)
Definition MAX_INDEX_ATTEMPTS : nat := 3.

(** The bytes of [file] an entry with this offset and length addresses. *)
Definition slice (file : list Z) (offset len : nat) : list Z :=
  take len (drop offset file).

Section IndexWriter.

Variable place : placement.
Variable d : PFMDocument.

(** Modelled from the spec: one measurement of the convergence loop
    (§4.5): the candidate index is encoded, and the sections are located in
    the file that results. *)
Definition measure (candidate : list IndexEntry) : list IndexEntry :=
  locate (byte_length (join_lines (head_lines place (fun _ => map encode_entry candidate) d)) + 1)
         (sections d).

(** Modelled from the spec: the convergence loop of the missing writer
    (§4.5): encode a candidate index, measure the file that results and,
    if the digit-width of an offset changed, encode again with the offsets
    measured; out of attempts, fail.  When no width changed the offsets
    measured are the index: its encoding is as long as the candidate's.
    The number returned is that of the encodings made. *)
Fixpoint converge (attempts : nat) (candidate : list IndexEntry)
  : nat * option (list IndexEntry) :=
  match attempts with
  | O => (O, None)
  | S attempts' =>
      let measured := measure candidate in
      if decide (offset_widths measured = offset_widths candidate) then (1%nat, Some measured)
      else let (n, outcome) := converge attempts' measured in (S n, outcome)
  end.

(** Modelled from the spec: the candidate the loop starts from; §4.5
    names none, and the sections located in the file without entries are
    taken. *)
Definition first_candidate : list IndexEntry := measure [].

(** Modelled from the spec: the byte offset the EOF line carries (§6),
    that of the marker line of the index block. *)
Definition index_position : nat :=
  match place with
  | Leading => byte_length (join_lines (magic_line d :: map meta_line (map_to_list (meta d)))) + 1
  | Trailing =>
      byte_length (join_lines (magic_line d :: map meta_line (map_to_list (meta d))
                               ++ flat_map section_lines (sections d))) + 1
  end.

(** The text of the file with the index [index]. *)
Definition serialize_with (index : list IndexEntry) : jsstring :=
  serialize place (fun _ => map encode_entry index) (fun _ => decimal index_position) d.

(** Modelled from the spec: the missing one-shot writer on a stream
    document (§4.5): the bytes of the file with the index the loop
    converged to, or failure, with the number of encodings of the index it
    made. *)
Definition write_attempts : nat * option (list Z) :=
  let (n, outcome) := converge MAX_INDEX_ATTEMPTS first_candidate in
  (n, option_map (fun index => utf8 (serialize_with index)) outcome).

Definition write : option (list Z) := snd write_attempts.

End IndexWriter.

(** Modelled from the spec: the read of one section through its index
    entry (§4.4, §6): the bytes of the file the entry addresses. *)
Definition readSection (file : list Z) (e : IndexEntry) : list Z :=
  slice file (byteOffset e) (byteLength e).

(** *** Reading the index back from the bytes of a file *)

Definition is_digit (c : Z) : bool := (48 <=? c) && (c <=? 57).

(** A number in decimal digits, read: [None] when the field is empty or
    holds another byte. *)
Definition read_decimal (field : list Z) : option nat :=
  match field with
  | [] => None
  | _ :: _ =>
      if forallb is_digit field
      then Some (fold_left (fun value c => (10 * value + Z.to_nat (c - 48))%nat) field 0%nat)
      else None
  end.

(** The fields of a line, which single spaces separate. *)
Fixpoint split_fields (line : list Z) : list (list Z) :=
  match line with
  | [] => [[]]
  | c :: rest =>
      if c =? SPACE then [] :: split_fields rest
      else match split_fields rest with
           | field :: fields => (c :: field) :: fields
           | [] => [[c]]
           end
  end.

(** Modelled from the spec: an entry line read back (§6): its three
    fields, the name and the two numbers. *)
Definition decode_entry (line : list Z) : option IndexEntry :=
  match split_fields line with
  | [entry; offset; len] =>
      match read_decimal offset, read_decimal len with
      | Some offset, Some len =>
          Some {| entry_name := entry; byteOffset := offset; byteLength := len |}
      | _, _ => None
      end
  | _ => None
  end.

(** Modelled from the spec: the entry lines of an index block (§6) read
    back: the lines up to the next marker line, each of which must read as
    an entry. *)
Fixpoint decode_entries (lines : list (list Z)) : option (list IndexEntry) :=
  match lines with
  | [] => Some []
  | line :: rest =>
      if starts_with (lit "#") line then Some []
      else
        match decode_entry line, decode_entries rest with
        | Some e, Some entries => Some (e :: entries)
        | _, _ => None
        end
  end.

(** Modelled from the spec: the offset on the EOF line (§6). *)
Definition eof_offset (line : list Z) : option nat :=
  if starts_with (EOF_MARKER ++ [COLON]) line
  then read_decimal (drop (length (EOF_MARKER ++ [COLON])) line)
  else None.

(** Modelled from the spec: the read of the index of a stream file (§4.4,
    §6): the EOF line is the last line of the file, found from its end; the
    offset it carries is that of the marker line of the index block, and
    the entry lines follow that line.  [None] when the file holds no index
    that reads. *)
Definition read_index (file : list Z) : option (list IndexEntry) :=
  match eof_offset (List.last (split_lines file) []) with
  | Some offset =>
      match split_lines (drop offset file) with
      | marker :: lines =>
          if existsb (fun m => bool_decide (marker = SECTION_PREFIX ++ m)) INDEX_MARKERS
          then decode_entries lines
          else None
      | [] => None
      end
  | None => None
  end.



(** Modelled from the spec: the errors of §7 a parse ends with. *)
Inductive parse_error : Type :=
| ResourceError
| StructuralError.

Inductive parsed (A : Type) : Type :=
| Parsed (a : A)
| Failed (e : parse_error).

Arguments Parsed {A} a.
Arguments Failed {A} e.

(** The text up to the first occurrence of [c]. *)
Fixpoint take_until (c : Z) (text : jsstring) : jsstring :=
  match text with
  | [] => []
  | x :: rest => if x =? c then [] else x :: take_until c rest
  end.

(** Modelled from the spec: the missing parser's reading of the magic
    line (§4.3): its version and its stream flag. *)
Definition parse_magic (line : jsstring) : option (jsstring * bool) :=
  if starts_with (MAGIC ++ lit "/") line then
    let rest := drop (length (MAGIC ++ lit "/")) line in
    let version := take_until COLON rest in
    let flag := drop (length version) rest in
    if decide (flag = []) then Some (version, false)
    else if decide (flag = STREAM_FLAG) then Some (version, true)
    else None
  else None.

(** Modelled from the spec: the missing parser's reading of a meta line
    [key: value] (§6), split at its first colon followed by a space. *)
Fixpoint split_key_value (line : jsstring) : option (jsstring * jsstring) :=
  match line with
  | [] => None
  | c :: rest =>
      if (c =? COLON) && starts_with [SPACE] rest then Some ([], drop 1 rest)
      else match split_key_value rest with
           | Some (key, value) => Some (c :: key, value)
           | None => None
           end
  end.

(** Modelled from the spec: where the missing parser stands (§4.3): in the
    meta block, in the body of a section (its lines so far, last first),
    or in an index block. *)
Inductive block : Type :=
| InMeta
| InBody (name : jsstring) (rev_lines : list jsstring)
| InIndex.

Record parser_state : Type := mkState {
  p_meta : gmap (list Z) (list Z);
  p_sections : list PFMSection;
  p_block : block
}.

(** Modelled from the spec: the sections read so far, last first, the open
    one closed: its content is its lines unescaped (§4.3). *)
Definition close_block (st : parser_state) : list PFMSection :=
  match p_block st with
  | InBody n rev_lines =>
      {| name := n; content := join_lines (map unescape_line (rev rev_lines)) |}
      :: p_sections st
  | _ => p_sections st
  end.

(** Modelled from the spec: the single pass of the missing full parser
    over the lines after the magic line (§4.3).  It stops at the EOF
    marker; a header line closes the block before it and opens a section,
    after the name and section-count checks, or an index block under an
    index marker; any other line is a meta field (with the meta-count
    check), a body line, or an index entry, by the block it stands in.  A
    text that ends before the EOF marker is a structural error. *)
Fixpoint parse_lines (lines : list jsstring) (st : parser_state)
  : parsed (gmap (list Z) (list Z) * list PFMSection) :=
  match lines with
  | [] => Failed StructuralError
  | line :: rest =>
      if starts_with EOF_MARKER line then Parsed (p_meta st, rev (close_block st))
      else if starts_with SECTION_PREFIX line then
        let n := drop (length SECTION_PREFIX) line in
        let done := close_block st in
        if bool_decide (n ∈ INDEX_MARKERS)
        then parse_lines rest {| p_meta := p_meta st; p_sections := done; p_block := InIndex |}
        else if negb (valid_section_name n) then Failed StructuralError
        else if MAX_SECTIONS <=? Z.of_nat (length done) then Failed StructuralError
        else parse_lines rest {| p_meta := p_meta st; p_sections := done; p_block := InBody n [] |}
      else
        match p_block st with
        | InMeta =>
            match split_key_value line with
            | None => Failed StructuralError
            | Some (key, value) =>
                if MAX_META_FIELDS <=? Z.of_nat (size (p_meta st)) then Failed StructuralError
                else parse_lines rest
                       {| p_meta := <[key := strip_control value]> (p_meta st);
                          p_sections := p_sections st; p_block := InMeta |}
            end
        | InBody n rev_lines =>
            parse_lines rest
              {| p_meta := p_meta st; p_sections := p_sections st;
                 p_block := InBody n (line :: rev_lines) |}
        | InIndex => parse_lines rest st
        end
  end.

Section Parser.

(** The configured ceiling on the size of a file. *)
Variable MAX_FILE_SIZE : Z.

(** Modelled from the spec: the missing [parse] (§4.3): the size check,
    the magic line and the supported-version check, then the single pass
    over the remaining lines. *)
Definition parse (text : jsstring) : parsed PFMDocument :=
  if MAX_FILE_SIZE <? Z.of_nat (length text) then Failed ResourceError
  else
    match split_lines text with
    | [] => Failed StructuralError
    | first :: rest =>
        match parse_magic first with
        | None => Failed StructuralError
        | Some (version, stream) =>
            if negb (bool_decide (version ∈ SUPPORTED_FORMAT_VERSIONS))
            then Failed StructuralError
            else
              match parse_lines rest {| p_meta := ∅; p_sections := []; p_block := InMeta |} with
              | Failed e => Failed e
              | Parsed (m, secs) =>
                  Parsed {| formatVersion := version; isStream := stream;
                            meta := m; sections := secs |}
              end
        end
    end.

End Parser.

(** A physical line the full parser takes for neither a header nor the EOF
    marker. *)
Definition plain_line (line : jsstring) : Prop :=
  no_newline line
  /\ starts_with SECTION_PREFIX line = false
  /\ starts_with EOF_MARKER line = false.

(** A meta entry the writer emits as it is: its key is made of identifier
    characters, its value holds no control character. *)
Definition valid_entry (entry : jsstring * jsstring) : Prop :=
  forallb is_identifier_char (fst entry) = true
  /\ forallb (fun c => negb (is_control c)) (snd entry) = true.

(** Modelled from the spec: the invariants of a document (§3): a supported
    format version, at most 100 meta entries with identifier keys and
    values free of control characters, at most 10,000 sections with valid
    names. *)
Definition valid_meta (m : gmap (list Z) (list Z)) : Prop :=
  Z.of_nat (size m) <= MAX_META_FIELDS
  /\ map_Forall (fun key value => valid_entry (key, value)) m.

Definition valid_sections (secs : list PFMSection) : Prop :=
  Z.of_nat (length secs) <= MAX_SECTIONS
  /\ Forall (fun s => valid_section_name (name s) = true) secs.

Definition valid_document (d : PFMDocument) : Prop :=
  In (formatVersion d) SUPPORTED_FORMAT_VERSIONS
  /\ valid_meta (meta d)
  /\ valid_sections (sections d).

End Engine.

(** ** ECMAScript string methods *)

Module JSString.

Import Engine(starts_with).

(** [WhiteSpace] and [LineTerminator] of ECMAScript, all in the basic
    plane: what [trim] strips and [\s] matches. *)
Definition isWhiteSpace (c : Z) : bool :=
  ((9 <=? c) && (c <=? 13)) || (c =? 32) || (c =? 160) || (c =? 5760)
  || ((8192 <=? c) && (c <=? 8202)) || (c =? 8232) || (c =? 8233) || (c =? 8239)
  || (c =? 8287) || (c =? 12288) || (c =? 65279).

(** [s.trimStart()], [s.trimEnd()], [s.trim()] *)
Fixpoint trimStart (s : jsstring) : jsstring :=
  match s with
  | c :: rest => if isWhiteSpace c then trimStart rest else s
  | [] => []
  end.

Definition trimEnd (s : jsstring) : jsstring := rev (trimStart (rev s)).

Definition trim (s : jsstring) : jsstring := trimEnd (trimStart s).

(** A string that neither starts nor ends with whitespace, and one that
    does not end with whitespace. *)
Definition bare (s : jsstring) : Prop :=
  match s with c :: _ => isWhiteSpace c = false | [] => True end
  /\ match rev s with c :: _ => isWhiteSpace c = false | [] => True end.

Definition ends_bare (s : jsstring) : Prop :=
  match rev s with c :: _ => isWhiteSpace c = false | [] => True end.

(** [s.indexOf(sub)]: [None] is [-1]. *)
Fixpoint indexOf (sub s : jsstring) : option nat :=
  if starts_with sub s then Some O
  else match s with
       | [] => None
       | _ :: rest => option_map S (indexOf sub rest)
       end.

(** [s.includes(sub)] *)
Definition includes (sub s : jsstring) : bool :=
  match indexOf sub s with Some _ => true | None => false end.

(** A string is truthy when it is not empty. *)
Definition truthy (s : jsstring) : bool :=
  match s with [] => false | _ :: _ => true end.

End JSString.

Import JSString.

(** ** pfm-js/src/convert.ts: the other converters *)

Module Converters.

Import Convert JSString.
Import Engine(starts_with, split_lines, join_lines, no_newline).

Definition QUOTE : Z := 34.

Definition COMMA : Z := 44.

Definition APOSTROPHE : Z := 39.

(** [o[key] = value] on an object literal: the [__proto__] accessor of
    [Object.prototype] ignores a string, any other key becomes an own
    property. *)
Definition assign (o : gmap jsstring jsstring) (key value : jsstring)
  : gmap jsstring jsstring :=
  if decide (key = lit "__proto__") then o else <[key := value]> o.

(** [s.replace(/[^...]/g, '_')] for a character class [keep]. *)
Definition replace_outside (keep : Z -> bool) (s : jsstring) : jsstring :=
  map (fun c => if keep c then c else code "_") s.

(** The character class [[a-zA-Z0-9_-]]. *)
Definition KEY_class (c : Z) : bool :=
  in_range "a" "z" c || in_range "A" "Z" c || in_range "0" "9" c
  || (c =? code "_") || (c =? code "-").

(** [s.replace(/\s+/g, '-')]: each maximal run of whitespace becomes one
    hyphen; [in_run] says that the code unit before was whitespace. *)
Fixpoint hyphenate_from (in_run : bool) (s : jsstring) : jsstring :=
  match s with
  | [] => []
  | c :: rest =>
      if isWhiteSpace c
      then if in_run then hyphenate_from true rest else code "-" :: hyphenate_from true rest
      else c :: hyphenate_from false rest
  end.

Definition hyphenate : jsstring -> jsstring := hyphenate_from false.

(** [s.replace(/---/g, '\\---')]: the matches are taken from the left and
    do not overlap. *)
Fixpoint escape_rules (s : jsstring) : jsstring :=
  match s with
  | 45 :: 45 :: 45 :: rest => 92 :: 45 :: 45 :: 45 :: escape_rules rest
  | c :: rest => c :: escape_rules rest
  | [] => []
  end.

(** [escapeCSV]: ['=+-@\t\r;'.includes(stripped[0])] is membership of the
    first code unit in that list. *)
Definition FORMULA_TRIGGERS : jsstring := lit "=+-@" ++ [9; 13] ++ lit ";".

Definition escapeCSV (value : jsstring) : jsstring :=
  let stripped := trimStart value in
  match stripped with
  | first :: _ =>
      if bool_decide (first ∈ FORMULA_TRIGGERS) then APOSTROPHE :: value else value
  | [] => value
  end.

(** The replacement of [csvRow] that doubles every double quote of a
    field. *)
Definition double_quotes (f : jsstring) : jsstring :=
  flat_map (fun c => if c =? QUOTE then [QUOTE; QUOTE] else [c]) f.

(** The arrow function of [csvRow]: a field that holds a comma, a quote or
    a newline is quoted, its quotes doubled. *)
Definition quote_field (f : jsstring) : jsstring :=
  if includes [COMMA] f || includes [QUOTE] f || includes [10] f
  then [QUOTE] ++ double_quotes f ++ [QUOTE]
  else f.

(** [fields.join(',')] *)
Fixpoint join_commas (fields : list jsstring) : jsstring :=
  match fields with
  | [] => []
  | [f] => f
  | f :: rest => f ++ COMMA :: join_commas rest
  end.

Definition csvRow (type key value : jsstring) : jsstring :=
  join_commas (map quote_field [type; key; escapeCSV value]).

(** The loop of [parseLine], from position [j] on: [line] is what is left
    of the line at [j]. *)
Fixpoint parseLine_from (line : jsstring) (inQuotes : bool) (current : jsstring)
    (fields : list jsstring) : list jsstring :=
  match line with
  | [] => fields ++ [current]
  | ch :: rest =>
      if inQuotes then
        if ch =? QUOTE then
          match rest with
          | next :: rest' =>
              if next =? QUOTE then parseLine_from rest' true (current ++ [QUOTE]) fields
              else parseLine_from rest false current fields
          | [] => parseLine_from rest false current fields
          end
        else parseLine_from rest true (current ++ [ch]) fields
      else
        if ch =? QUOTE then parseLine_from rest true current fields
        else if ch =? COMMA then parseLine_from rest false [] (fields ++ [current])
        else parseLine_from rest false (current ++ [ch]) fields
  end.

Definition parseLine (line : jsstring) : list jsstring := parseLine_from line false [] [].

Section Platform.

(** What the platform supplies: the clock and [JSON.parse] of [Host],
    [JSON.stringify(value, null, indent)], the own properties of a
    dictionary in the order [Object.entries] lists them, and the case
    mappings of [String.prototype]. *)
Variable H : Host.
Variable JSON_stringify_indent : json -> Z -> jsstring.
Variable Object_entries : gmap jsstring jsstring -> list (jsstring * jsstring).
Variable toLowerCase : jsstring -> jsstring.

(** The object [toJSON] hands to [JSON.stringify]. *)
Definition export_section (s : PFMSection) : json :=
  JObj [ (lit "name", JStr (name s)); (lit "content", JStr (content s)) ].

Definition export_of (doc : PFMDocument) : json :=
  JObj [ (lit "pfm_version", JStr (formatVersion doc));
         (lit "meta", JObj (map (fun '(k, v) => (k, JStr v)) (Object_entries (meta doc))));
         (lit "sections", JArr (map export_section (sections doc))) ].

Definition toJSON (doc : PFMDocument) (indent : Z) : jsstring :=
  JSON_stringify_indent (export_of doc) indent.

(** The meta every importer starts from:
    [{ agent: ..., created: new Date().toISOString().replace(/\.\d{3}Z$/, 'Z') }]. *)
Definition import_meta (agent : jsstring) : gmap jsstring jsstring :=
  <[lit "created" := strip_millis (Date_toISOString H)]> (<[lit "agent" := agent]> ∅).

Definition fromText (text : jsstring) : PFMDocument :=
  {| formatVersion := lit "1.0";
     isStream := false;
     meta := import_meta (lit "text-import");
     sections := [ {| name := lit "content"; content := trim text |} ] |}.

(** [fromMarkdown]: the body of the frontmatter loop on the line at [i]. *)
Definition frontmatter_line (meta : gmap jsstring jsstring) (raw_line : jsstring)
  : gmap jsstring jsstring :=
  let line := trim raw_line in
  match indexOf (lit ": ") line with
  | Some (S _ as colonIdx) =>
      let key := replace_outside KEY_class (trim (take colonIdx line)) in
      let val := trim (drop (colonIdx + 2) line) in
      if truthy key && truthy val then assign meta key val else meta
  | _ => meta
  end.

(** The frontmatter loop and the [i++] after it, on the lines from [i] on:
    the meta and the lines left for the section loop. *)
Fixpoint frontmatter (lines : list jsstring) (meta : gmap jsstring jsstring)
  : gmap jsstring jsstring * list jsstring :=
  match lines with
  | [] => (meta, [])
  | line :: rest =>
      if decide (trim line = lit "---") then (meta, rest)
      else frontmatter rest (frontmatter_line meta line)
  end.

(** The variables of the section loop of [fromMarkdown]. *)
Record md_state : Type := mkMd {
  md_sections : list PFMSection;
  currentSection : option jsstring;
  sectionLines : list jsstring;
  contentBefore : list jsstring
}.

(** The flush at a heading and after the loop: [if (currentSection)] is
    false for [null] and for the empty string. *)
Definition flush (st : md_state) : list PFMSection :=
  match currentSection st with
  | Some ((_ :: _) as current) =>
      md_sections st
      ++ [ {| name := current; content := trim (join_lines (sectionLines st)) |} ]
  | _ =>
      let pre := trim (join_lines (contentBefore st)) in
      if truthy pre then md_sections st ++ [ {| name := lit "content"; content := pre |} ]
      else md_sections st
  end.

(** [raw || 'content'] for the [raw] of a heading line. *)
Definition heading_name (line : jsstring) : jsstring :=
  let raw := List.filter VALID_NAME_class (hyphenate (toLowerCase (trim (drop 3 line)))) in
  if truthy raw then raw else lit "content".

Definition md_step (st : md_state) (line : jsstring) : md_state :=
  if starts_with (lit "## ") line then
    {| md_sections := flush st;
       currentSection := Some (heading_name line);
       sectionLines := [];
       contentBefore := contentBefore st |}
  else
    match currentSection st with
    | None =>
        {| md_sections := md_sections st; currentSection := None;
           sectionLines := sectionLines st; contentBefore := contentBefore st ++ [line] |}
    | Some current =>
        {| md_sections := md_sections st; currentSection := Some current;
           sectionLines := sectionLines st ++ [line]; contentBefore := contentBefore st |}
    end.

Definition content_section (text : jsstring) : PFMSection :=
  {| name := lit "content"; content := text |}.

(** [if (sections.length === 0) sections.push({ name: 'content', content })] *)
Definition or_fallback (sections : list PFMSection) (text : jsstring) : list PFMSection :=
  if (length sections =? 0)%nat then [content_section text] else sections.

Definition fromMarkdown (md : jsstring) : PFMDocument :=
  let lines := split_lines md in
  let start := import_meta (lit "markdown-import") in
  let '(meta, body) :=
    match lines with
    | first :: rest =>
        if decide (trim first = lit "---") then frontmatter rest start else (start, lines)
    | [] => (start, [])
    end in
  let st := fold_left md_step body (mkMd [] None [] []) in
  {| formatVersion := lit "1.0";
     isStream := false;
     meta := meta;
     sections := or_fallback (flush st) (trim md) |}.

(** [fromCSV]: the test of the header row. *)
Definition isPFMCSV (header : list jsstring) : bool :=
  (3 <=? length header)%nat
  && bool_decide (toLowerCase (trim (nth 0 header [])) = lit "type")
  && bool_decide (toLowerCase (trim (nth 1 header [])) = lit "key").

(** The body of the row loop of [fromCSV]. *)
Definition csv_step (st : gmap jsstring jsstring * list PFMSection) (raw_line : jsstring)
  : gmap jsstring jsstring * list PFMSection :=
  let line := trim raw_line in
  if negb (truthy line) then st
  else
    match parseLine line with
    | type :: key :: value :: _ =>
        if bool_decide (type = lit "meta") && truthy key
        then (assign (fst st) key value, snd st)
        else if bool_decide (type = lit "section") && truthy key
        then (fst st, snd st ++ [ {| name := key; content := value |} ])
        else st
    | _ => st
    end.

Definition fromCSV (csvText : jsstring) : PFMDocument :=
  let lines := split_lines csvText in
  if (length lines <? 2)%nat then fromText csvText
  else
    let header := parseLine (nth 0 lines []) in
    if negb (isPFMCSV header) then
      {| formatVersion := lit "1.0";
         isStream := false;
         meta := import_meta (lit "csv-import");
         sections := [ content_section (trim csvText) ] |}
    else
      let '(meta, sections) :=
        fold_left csv_step (drop 1 lines) (import_meta (lit "csv-import"), []) in
      {| formatVersion := lit "1.0";
         isStream := false;
         meta := meta;
         sections := or_fallback sections (trim csvText) |}.

(** [toMarkdown]: the frontmatter line of a meta entry with a truthy
    value. *)
Definition frontmatter_entry (key val : jsstring) : jsstring :=
  replace_outside KEY_class key ++ lit ": "
  ++ escape_rules (map (fun c => if c =? 10 then 32 else c) val).

Definition toMarkdown (doc : PFMDocument) : jsstring :=
  let entries := Object_entries (meta doc) in
  let front :=
    if (0 <? length entries)%nat then
      [lit "---"]
      ++ flat_map (fun '(key, val) => if truthy val then [frontmatter_entry key val] else [])
                  entries
      ++ [lit "---"; []]
    else [] in
  join_lines
    (front
     ++ flat_map (fun s => [ lit "## " ++ replace_outside VALID_NAME_class (name s); [];
                             content s; [] ])
                 (sections doc)).

Definition toCSV (doc : PFMDocument) : jsstring :=
  let rows :=
    [lit "type,key,value"]
    ++ flat_map (fun '(key, val) => if truthy val then [csvRow (lit "meta") key val] else [])
                (Object_entries (meta doc))
    ++ map (fun s => csvRow (lit "section") (name s) (content s)) (sections doc) in
  join_lines rows ++ [10].

(** What a section has to be like for a Markdown text to carry it: a name
    of the class that the lower-casing leaves alone, a content without
    whitespace around it and without a line that starts a heading. *)
Definition md_section (s : PFMSection) : Prop :=
  name s <> [] /\ forallb VALID_NAME_class (name s) = true
  /\ toLowerCase (name s) = name s
  /\ bare (content s)
  /\ Forall (fun l => starts_with (lit "## ") l = false) (split_lines (content s)).

End Platform.

(** What a meta entry has to be like for a Markdown text to carry it: a key
    of the class [[a-zA-Z0-9_-]], a value on one line without whitespace
    around it and without a horizontal rule in it. *)
Definition md_entry (kv : jsstring * jsstring) : Prop :=
  kv.1 <> [] /\ forallb KEY_class kv.1 = true /\ kv.1 <> lit "__proto__"
  /\ kv.2 <> [] /\ bare kv.2 /\ no_newline kv.2 /\ escape_rules kv.2 = kv.2.

(** What a meta entry and a section have to be like for a CSV text to
    carry them: no newline in a field, a key and a name that are not
    empty, a value that is not empty, no whitespace at the end of the last
    field of the row. *)
Definition csv_entry (kv : jsstring * jsstring) : Prop :=
  kv.1 <> [] /\ kv.1 <> lit "__proto__" /\ no_newline kv.1
  /\ kv.2 <> [] /\ no_newline kv.2 /\ ends_bare kv.2.

Definition csv_section (s : PFMSection) : Prop :=
  name s <> [] /\ no_newline (name s) /\ no_newline (content s) /\ ends_bare (content s).

(** The line of a meta entry and the lines of a section in the text
    [toMarkdown] writes for entries and sections of that kind. *)
Definition entry_line (kv : jsstring * jsstring) : jsstring := kv.1 ++ lit ": " ++ kv.2.

Definition section_part (s : PFMSection) : list jsstring :=
  [lit "## " ++ name s; []] ++ split_lines (content s) ++ [[]].

(** A section as it comes back from a CSV text: its content escaped. *)
Definition escaped_section (s : PFMSection) : PFMSection :=
  {| name := name s; content := escapeCSV (content s) |}.

(** The names the section loop of [fromMarkdown] holds are valid. *)
Definition md_valid (st : md_state) : Prop :=
  Forall (fun s => VALID_NAME_test (name s) = true) (md_sections st)
  /\ match currentSection st with
     | Some current => VALID_NAME_test current = true
     | None => True
     end.


End Converters.

(** ** pfm-chrome/content: the DOM scrapers *)

Module Scrapers.

Import JSString.

(** What the scrapers read of a DOM node, the document or an element: its
    rendered text, its class attribute, its other attributes ([None] is
    [null]), its child elements, and [matches] and the two query methods,
    [None] when the call throws on the selector. *)
Inductive Node : Type := mkNode {
  innerText : jsstring;
  className : jsstring;
  getAttribute : jsstring -> option jsstring;
  children : list Node;
  matches : jsstring -> option bool;
  querySelectorAll : jsstring -> option (list Node);
  querySelector : jsstring -> option (option Node)
}.

(** The selector [[name op "value"]]. *)
Definition attr (name op value : string) : jsstring :=
  lit "[" ++ lit name ++ lit op ++ [34] ++ lit value ++ [34] ++ lit "]".

(** [query(parent, selectorList, true)], the same in the three scrapers:
    the matches of the first selector that has any; a selector the call
    throws on is skipped. *)
Fixpoint query_all (parent : Node) (selectorList : list jsstring) : list Node :=
  match selectorList with
  | [] => []
  | sel :: rest =>
      match querySelectorAll parent sel with
      | Some ((_ :: _) as result) => result
      | _ => query_all parent rest
      end
  end.

(** [query(parent, selectorList, false)]: [None] is [null]. *)
Fixpoint query_first (parent : Node) (selectorList : list jsstring) : option Node :=
  match selectorList with
  | [] => None
  | sel :: rest =>
      match querySelector parent sel with
      | Some (Some result) => Some result
      | _ => query_first parent rest
      end
  end.

Definition MAX_CONTENT_SIZE : Z := 10 * 1024 * 1024.

Definition MAX_MESSAGES : Z := 5000.

Definition USER : jsstring := lit "user".

Definition ASSISTANT : jsstring := lit "assistant".

Record Message : Type := mkMessage { role : jsstring; msg_content : jsstring }.

Record Turn : Type := mkTurn { el : Node; turn_role : jsstring; turn_content : jsstring }.

Record Conversation : Type := mkConversation {
  messages : list Message;
  title : jsstring;
  model : jsstring;
  platform : jsstring
}.

(** What [scrape] ends with: an exception of a DOM call outside [query],
    [null], or a conversation. *)
Inductive scraped : Type :=
| Thrown
| Null
| Scraped (conversation : Conversation).

(** The message pushed for a turn. *)
Definition message_of (turn : Turn) : Message :=
  mkMessage (turn_role turn) (turn_content turn).

(** [messages] and [totalSize]. *)
Definition progress : Type := list Message * Z.

(** [el.innerText.trim()]. *)
Definition text_of (e : Node) : jsstring := trim (innerText e).

(** The two loops that fill [allTurns] from the elements of a role, with
    the text read off an element by [text_of]. *)
Definition turns_of (text_of : Node -> jsstring) (r : jsstring) (els : list Node)
  : list Turn :=
  flat_map (fun e => let text := text_of e in
                     if truthy text then [mkTurn e r text] else [])
           els.

(** The loop over [allTurns], the same in the three scrapers. *)
Fixpoint collect (turns : list Turn) (messages : list Message) (totalSize : Z) : progress :=
  match turns with
  | [] => (messages, totalSize)
  | turn :: rest =>
      if MAX_MESSAGES <=? Z.of_nat (length messages) then (messages, totalSize)
      else
        let totalSize := totalSize + Z.of_nat (length (turn_content turn)) in
        if MAX_CONTENT_SIZE <? totalSize then (messages, totalSize)
        else collect rest (messages ++ [message_of turn]) totalSize
  end.

(** The loop over the children of a container, which takes the roles in
    turn, starting with [isUser]. *)
Fixpoint collect_alternating (nodes : list Node) (isUser : bool) (messages : list Message)
    (totalSize : Z) : progress :=
  match nodes with
  | [] => (messages, totalSize)
  | child :: rest =>
      if MAX_MESSAGES <=? Z.of_nat (length messages) then (messages, totalSize)
      else
        let text := text_of child in
        if truthy text && (1 <? length text)%nat then
          let totalSize := totalSize + Z.of_nat (length text) in
          if MAX_CONTENT_SIZE <? totalSize then (messages, totalSize)
          else collect_alternating rest (negb isUser)
                 (messages ++ [mkMessage (if isUser then USER else ASSISTANT) text]) totalSize
        else collect_alternating rest isUser messages totalSize
  end.

(** [a || b] on strings and [null]. *)
Definition or_else (a b : option jsstring) : option jsstring :=
  match a with
  | Some (_ :: _) => a
  | _ => b
  end.

(** The title and the model: the trimmed text of an element when it passes
    the test, the default otherwise. *)
Definition text_or (found : option Node) (accept : jsstring -> bool) (fallback : jsstring)
    (read : Node -> jsstring) : jsstring :=
  match found with
  | Some e => let t := read e in if accept t then t else fallback
  | None => fallback
  end.

(** The size the scrapers count, and what every message they keep is
    like. *)
Definition total_size (messages : list Message) : Z :=
  fold_right (fun m size => Z.of_nat (length (msg_content m)) + size) 0 messages.

Definition kept_message (m : Message) : Prop :=
  (role m = USER \/ role m = ASSISTANT) /\ msg_content m <> [] /\ bare (msg_content m).

Definition kept_turn (t : Turn) : Prop :=
  (turn_role t = USER \/ turn_role t = ASSISTANT)
  /\ turn_content t <> [] /\ bare (turn_content t).

(** A text that is not empty and shorter than [n] code units. *)
Definition short (n : nat) (t : jsstring) : Prop := t <> [] /\ (length t < n)%nat.

(** The roles come in turn, starting with the user. *)
Definition alternating (messages : list Message) : Prop :=
  forall i m, messages !! i = Some m -> role m = if Nat.even i then USER else ASSISTANT.

(** What the loops keep true of [messages] and [totalSize]. *)
Definition within_limits (state : progress) : Prop :=
  Z.of_nat (length state.1) <= MAX_MESSAGES
  /\ total_size state.1 <= state.2
  /\ total_size state.1 <= MAX_CONTENT_SIZE
  /\ Forall kept_message state.1.

(** What a conversation returned is like. *)
Definition within_bounds (c : Conversation) : Prop :=
  messages c <> []
  /\ Z.of_nat (length (messages c)) <= MAX_MESSAGES
  /\ total_size (messages c) <= MAX_CONTENT_SIZE
  /\ Forall kept_message (messages c)
  /\ title c <> [] /\ (length (title c) < 200)%nat
  /\ model c <> [] /\ (length (model c) < 50)%nat.

Section Sorted.

(** [allTurns.sort(...)], which orders the turns by the position of their
    elements in the document. *)
Variable sort_by_position : list Turn -> list Turn.

(** Strategy 1 of the three scrapers and strategy 3 of the Moltbot
    scraper: the elements of the two roles, in document order. *)
Definition collect_roles (document : Node) (user_text assistant_text : Node -> jsstring)
    (userSelectors assistantSelectors : list jsstring)
    (messages : list Message) (totalSize : Z) : progress :=
  let users := query_all document userSelectors in
  let assistants := query_all document assistantSelectors in
  if (0 <? length users)%nat || (0 <? length assistants)%nat then
    collect (sort_by_position (turns_of user_text USER users
                               ++ turns_of assistant_text ASSISTANT assistants))
            messages totalSize
  else (messages, totalSize).

End Sorted.

(** *** scraper-moltbot.js *)

Module Moltbot.

Definition assistantUIUser : list jsstring :=
  [ attr "data-role" "=" "user"; lit ".aui-user-message"; attr "class" "*=" "UserMessage" ].

Definition assistantUIAssistant : list jsstring :=
  [ attr "data-role" "=" "assistant"; lit ".aui-assistant-message";
    attr "class" "*=" "AssistantMessage" ].

Definition litMessage : list jsstring :=
  [ lit "message-item"; lit "chat-message"; attr "class" "*=" "message-item";
    attr "class" "*=" "chat-message" ].

Definition genericUser : list jsstring :=
  [ attr "data-sender" "=" "user"; attr "data-author" "=" "user"; lit ".user-message";
    attr "class" "*=" "user" ++ lit "[ class*=" ++ [34] ++ lit "message" ++ [34] ++ lit "]" ].

Definition genericAssistant : list jsstring :=
  [ attr "data-sender" "=" "assistant"; attr "data-sender" "=" "agent";
    attr "data-author" "=" "assistant"; lit ".assistant-message"; lit ".agent-message";
    attr "class" "*=" "assistant" ++ lit "[ class*=" ++ [34] ++ lit "message" ++ [34] ++ lit "]";
    attr "class" "*=" "agent" ++ lit "[ class*=" ++ [34] ++ lit "message" ++ [34] ++ lit "]" ].

Definition conversationTitle : list jsstring :=
  [ lit ".conversation-title"; attr "data-testid" "=" "conversation-title"; lit "h1"; lit "h2" ].

(** The loop of strategy 2 over the Lit elements. *)
Fixpoint collect_lit (els : list Node) (messages : list Message) (totalSize : Z) : progress :=
  match els with
  | [] => (messages, totalSize)
  | e :: rest =>
      if MAX_MESSAGES <=? Z.of_nat (length messages) then (messages, totalSize)
      else
        let text := text_of e in
        if negb (truthy text) then collect_lit rest messages totalSize
        else
          let sender :=
            default []
              (or_else (or_else (or_else (getAttribute e (lit "data-sender"))
                                         (getAttribute e (lit "data-role")))
                                (getAttribute e (lit "data-author")))
                       (Some [])) in
          let cls := className e in
          let isUser := bool_decide (sender = lit "user") || includes (lit "user") cls in
          let totalSize := totalSize + Z.of_nat (length text) in
          if MAX_CONTENT_SIZE <? totalSize then (messages, totalSize)
          else collect_lit rest
                 (messages ++ [mkMessage (if isUser then USER else ASSISTANT) text]) totalSize
  end.

Definition title_accepted (t : jsstring) : bool :=
  truthy t && (0 <? length t)%nat && (length t <? 200)%nat.

(** [scrape()]: [None] is [null]. *)
Definition scrape (sort_by_position : list Turn -> list Turn) (document : Node)
  : option Conversation :=
  let '(messages, totalSize) :=
    collect_roles sort_by_position document text_of text_of
      assistantUIUser assistantUIAssistant [] 0 in
  let '(messages, totalSize) :=
    if (length messages =? 0)%nat then
      let litEls := query_all document litMessage in
      if (0 <? length litEls)%nat then collect_lit litEls messages totalSize
      else (messages, totalSize)
    else (messages, totalSize) in
  let '(messages, totalSize) :=
    if (length messages =? 0)%nat
    then collect_roles sort_by_position document text_of text_of
           genericUser genericAssistant messages totalSize
    else (messages, totalSize) in
  if (length messages =? 0)%nat then None
  else
    Some {| messages := messages;
            title := text_or (query_first document conversationTitle) title_accepted
                       (lit "OpenClaw Conversation") text_of;
            model := lit "openclaw";
            platform := lit "moltbot" |}.

End Moltbot.

(** *** The Grok scraper *)

Module Grok.

Definition userMessage : list jsstring :=
  [ attr "class" "*=" "bg-surface-l1"; lit ".user-message"; attr "data-message-type" "=" "user";
    attr "class" "*=" "user-query"; attr "class" "*=" "UserMessage" ].

Definition assistantMessage : list jsstring :=
  [ lit ".response-content-markdown";
    lit ".message-bubble:not(" ++ attr "class" "*=" "bg-surface-l1" ++ lit ")";
    attr "data-message-type" "=" "model"; attr "class" "*=" "model-response";
    attr "class" "*=" "AssistantMessage"; attr "class" "*=" "markdown" ].

Definition messageBlock : list jsstring :=
  [ lit ".message-bubble"; attr "class" "*=" "message-content";
    attr "class" "*=" "chat-message"; attr "class" "*=" "turn" ].

Definition conversationTitle : list jsstring :=
  [ lit ".conversation-title"; lit "h1"; attr "data-testid" "=" "conversation-title";
    lit "title" ].

Definition modelName : list jsstring :=
  [ lit ".model-selector"; lit "[data-model-name]";
    lit "button" ++ attr "aria-label" "*=" "model"; attr "class" "*=" "model-badge" ].

(** The selector of strategy 3. *)
Definition MAIN_COLUMN : jsstring :=
  lit "main " ++ attr "class" "*=" "flex" ++ attr "class" "*=" "col" ++ lit ", "
  ++ attr "class" "*=" "flex" ++ attr "class" "*=" "col" ++ attr "class" "*=" "gap".

(** [(text.match(/\n/g) || []).length]. *)
Definition newlines (text : jsstring) : nat := length (filter (fun c => c = 10) text).

Definition looksLikeAssistant (text : jsstring) : bool :=
  (200 <? length text)%nat || includes (lit "```") text || includes (lit "**") text
  || (5 <? newlines text)%nat.

(** The loop of strategy 2 over the message blocks. *)
Fixpoint collect_blocks (blocks : list Node) (messages : list Message) (totalSize : Z)
  : progress :=
  match blocks with
  | [] => (messages, totalSize)
  | block :: rest =>
      if MAX_MESSAGES <=? Z.of_nat (length messages) then (messages, totalSize)
      else
        let text := text_of block in
        if truthy text && (1 <? length text)%nat then
          let r := if looksLikeAssistant text then ASSISTANT else USER in
          let totalSize := totalSize + Z.of_nat (length text) in
          if MAX_CONTENT_SIZE <? totalSize then (messages, totalSize)
          else collect_blocks rest (messages ++ [mkMessage r text]) totalSize
        else collect_blocks rest messages totalSize
  end.

Definition title_accepted (t : jsstring) : bool :=
  truthy t && (0 <? length t)%nat && (length t <? 200)%nat
  && negb (bool_decide (t = lit "Grok")).

Definition model_accepted (m : jsstring) : bool := truthy m && (length m <? 50)%nat.

Section Platform.

Variable sort_by_position : list Turn -> list Turn.

Variable toLowerCase : jsstring -> jsstring.

(** [scrape()]. *)
Definition scrape (document : Node) : scraped :=
  let '(messages, totalSize) :=
    collect_roles sort_by_position document text_of text_of
      userMessage assistantMessage [] 0 in
  let '(messages, totalSize) :=
    if (length messages =? 0)%nat then
      let blocks := query_all document messageBlock in
      if (0 <? length blocks)%nat then collect_blocks blocks messages totalSize
      else (messages, totalSize)
    else (messages, totalSize) in
  let third :=
    if (length messages =? 0)%nat then
      match querySelector document MAIN_COLUMN with
      | None => None
      | Some None => Some (messages, totalSize)
      | Some (Some mainCol) =>
          Some (collect_alternating (children mainCol) true messages totalSize)
      end
    else Some (messages, totalSize) in
  match third with
  | None => Thrown
  | Some (messages, totalSize) =>
      if (length messages =? 0)%nat then Null
      else
        Scraped {| messages := messages;
                   title := text_or (query_first document conversationTitle) title_accepted
                              (lit "Grok Conversation") text_of;
                   model := text_or (query_first document modelName) model_accepted
                              (lit "grok") (fun e => toLowerCase (text_of e));
                   platform := lit "grok" |}
  end.

End Platform.

End Grok.

(** *** The Claude scraper *)

Module Claude.

Definition userTurn : list jsstring :=
  [ lit ".font-user-message"; attr "data-testid" "=" "user-message";
    attr "data-testid" "=" "human-turn"; attr "class" "*=" "human-turn";
    attr "class" "*=" "user-message"; attr "class" "*=" "UserMessage" ].

Definition assistantTurn : list jsstring :=
  [ lit ".font-claude-message"; attr "data-testid" "=" "assistant-turn";
    attr "class" "*=" "assistant-turn"; attr "class" "*=" "claude-message";
    attr "class" "*=" "AssistantMessage" ].

Definition userContent : list jsstring :=
  [ attr "data-testid" "=" "user-message"; lit ".whitespace-pre-wrap"; lit "p"; lit "div" ].

Definition assistantContent : list jsstring :=
  [ lit ".grid-cols-1"; lit ".prose"; attr "class" "*=" "markdown";
    lit "div" ++ attr "class" "*=" "grid"; lit "div" ].

Definition conversationTitle : list jsstring :=
  [ attr "data-testid" "=" "chat-title-button";
    lit "button" ++ attr "data-testid" "=" "chat-title";
    attr "data-testid" "=" "chat-menu-trigger"; lit "h2";
    attr "class" "*=" "ConversationTitle" ].

Definition modelBadge : list jsstring :=
  [ attr "data-testid" "=" "model-selector"; lit "button" ++ attr "class" "*=" "model";
    attr "class" "*=" "ModelBadge"; attr "class" "*=" "model-selector" ].

(** The selectors of strategies 2 and 3. *)
Definition TEST_ID_TURNS : jsstring :=
  attr "data-testid" "=" "conversation-turn" ++ lit ", " ++ attr "data-testid" "*=" "turn".

Definition HUMAN : jsstring :=
  attr "data-testid" "*=" "human" ++ lit ", " ++ attr "data-testid" "*=" "user".

Definition CANDIDATES : jsstring :=
  lit "main " ++ attr "class" "*=" "flex" ++ attr "class" "*=" "col" ++ lit ", "
  ++ attr "role" "=" "main" ++ lit " " ++ attr "class" "*=" "flex" ++ attr "class" "*=" "col"
  ++ lit ", " ++ attr "class" "*=" "conversation" ++ lit " > div".

(** [(content || el).innerText.trim()] with [content] the first match of
    the content selectors inside the turn. *)
Definition content_text (contentSelectors : list jsstring) (e : Node) : jsstring :=
  text_of (default e (query_first e contentSelectors)).

(** [turn.matches(...) || !!turn.querySelector(...)]: [None] when a call
    throws. *)
Definition is_user (turn : Node) : option bool :=
  match matches turn HUMAN with
  | None => None
  | Some true => Some true
  | Some false =>
      match querySelector turn HUMAN with
      | None => None
      | Some (Some _) => Some true
      | Some None => Some false
      end
  end.

(** The loop of strategy 2 over the turns found by test id: [None] when a
    call throws. *)
Fixpoint collect_test_ids (turns : list Node) (messages : list Message) (totalSize : Z)
  : option progress :=
  match turns with
  | [] => Some (messages, totalSize)
  | turn :: rest =>
      if MAX_MESSAGES <=? Z.of_nat (length messages) then Some (messages, totalSize)
      else
        match is_user turn with
        | None => None
        | Some isUser =>
            let text := text_of turn in
            if truthy text then
              let totalSize := totalSize + Z.of_nat (length text) in
              if MAX_CONTENT_SIZE <? totalSize then Some (messages, totalSize)
              else collect_test_ids rest
                     (messages ++ [mkMessage (if isUser then USER else ASSISTANT) text])
                     totalSize
            else collect_test_ids rest messages totalSize
        end
  end.

(** The loop of strategy 3 over the candidate containers. *)
Fixpoint collect_containers (candidates : list Node) (messages : list Message)
    (totalSize : Z) : progress :=
  match candidates with
  | [] => (messages, totalSize)
  | container :: rest =>
      if (length (children container) <? 2)%nat then collect_containers rest messages totalSize
      else
        let '(messages, totalSize) :=
          collect_alternating (children container) true messages totalSize in
        if (0 <? length messages)%nat then (messages, totalSize)
        else collect_containers rest messages totalSize
  end.

Definition title_accepted (t : jsstring) : bool :=
  truthy t && (0 <? length t)%nat && (length t <? 200)%nat.

Definition model_accepted (m : jsstring) : bool := truthy m && (length m <? 50)%nat.

(** The title: [None] when [titleEl.querySelector] throws. *)
Definition read_title (document : Node) : option jsstring :=
  match query_first document conversationTitle with
  | None => Some (lit "Claude Conversation")
  | Some titleEl =>
      match querySelector titleEl (lit ".truncate") with
      | None => None
      | Some found =>
          let t := text_of (default titleEl found) in
          Some (if title_accepted t then t else lit "Claude Conversation")
      end
  end.

Section Platform.

Variable sort_by_position : list Turn -> list Turn.

Variable toLowerCase : jsstring -> jsstring.

(** [scrape()]. *)
Definition scrape (document : Node) : scraped :=
  let '(messages, totalSize) :=
    collect_roles sort_by_position document
      (content_text userContent) (content_text assistantContent)
      userTurn assistantTurn [] 0 in
  let second :=
    if (length messages =? 0)%nat then
      match querySelectorAll document TEST_ID_TURNS with
      | None => None
      | Some testIdTurns =>
          if (0 <? length testIdTurns)%nat
          then collect_test_ids testIdTurns messages totalSize
          else Some (messages, totalSize)
      end
    else Some (messages, totalSize) in
  match second with
  | None => Thrown
  | Some (messages, totalSize) =>
      let third :=
        if (length messages =? 0)%nat then
          match querySelectorAll document CANDIDATES with
          | None => None
          | Some candidates => Some (collect_containers candidates messages totalSize)
          end
        else Some (messages, totalSize) in
      match third with
      | None => Thrown
      | Some (messages, totalSize) =>
          if (length messages =? 0)%nat then Null
          else
            match read_title document with
            | None => Thrown
            | Some title =>
                Scraped {| messages := messages;
                           title := title;
                           model := text_or (query_first document modelBadge) model_accepted
                                      (lit "claude") (fun e => toLowerCase (text_of e));
                           platform := lit "claude" |}
            end
      end
  end.

End Platform.

End Claude.

End Scrapers.

(** ** pfm-vscode/src: the CodeLens provider and the section picker *)

Module Providers.

Import Extension.
Import Engine(starts_with).

(** [vscode.Range], [vscode.Command] and [vscode.CodeLens]. *)
Record Range : Type := mkRange {
  startLine : nat;
  startCharacter : nat;
  endLine : nat;
  endCharacter : nat
}.

Record Command : Type := mkCommand {
  command_title : jsstring;
  command : jsstring;
  tooltip : jsstring
}.

Record CodeLens : Type := mkCodeLens { range : Range; lens_command : Command }.

Definition MAGIC : jsstring := lit "#!PFM".

(** The two lenses pushed for the magic line [line] at index [i]. *)
Definition lenses_at (i : nat) (line : jsstring) : list CodeLens :=
  let range := mkRange i 0 i (length line) in
  [ mkCodeLens range
      (mkCommand (lit "$(preview) Open Preview") (lit "pfm.openPreview")
                 (lit "Open PFM preview panel (Cmd+Shift+V)"));
    mkCodeLens range
      (mkCommand (lit "$(shield) Validate Checksum") (lit "pfm.validateChecksum")
                 (lit "Verify SHA-256 checksum integrity")) ].

(** The loop of [provideCodeLenses] over the lines of the document, at
    index [i] with [n] iterations to go; [lineAt] is not called out of
    range. *)
Fixpoint provideCodeLenses_loop (lines : list jsstring) (n i : nat) : list CodeLens :=
  match n with
  | O => []
  | S n' =>
      match lines !! i with
      | Some line =>
          if starts_with MAGIC line then lenses_at i line
          else provideCodeLenses_loop lines n' (S i)
      | None => []
      end
  end.

(** [provideCodeLenses(document, _token)] on the lines of the document. *)
Definition provideCodeLenses (lines : list jsstring) : list CodeLens :=
  provideCodeLenses_loop lines (Nat.min 5 (length lines)) 0.

(** An entry of the quick pick of [pfm.goToSection]. *)
Record QuickPickItem : Type := mkItem {
  label : jsstring;
  description : jsstring;
  detail : jsstring;
  line : Z
}.

(** How the command ends: with a notification, with the pick dismissed, or
    with the selection set to a position and that position revealed. *)
Inductive outcome : Type :=
| Notified (n : notification)
| Dismissed
| Revealed (line character : Z).

(** [s.replace(/\n/g, ' ')]. *)
Definition replace_newlines (s : jsstring) : jsstring :=
  map (fun c => if c =? 10 then 32 else c) s.

Section GoToSection.

Variable parsePFM : jsstring -> ParsedDocument.

(** A number in a template literal. *)
Variable Number_toString : Z -> jsstring.

(** [vscode.window.showQuickPick]: [None] when the pick is dismissed. *)
Variable showQuickPick : list QuickPickItem -> option QuickPickItem.

Definition item_of (s : ParsedSection) : QuickPickItem :=
  {| label := sec_name s;
     description := lit "Line " ++ Number_toString (headerLine s + 1);
     detail := replace_newlines (take 80 (sec_content s));
     line := headerLine s |}.

(** The handler registered for [pfm.goToSection]. *)
Definition goToSection (activeTextEditor : option TextEditor) : outcome :=
  match activeTextEditor with
  | None => Notified (showWarningMessage (lit "Open a .pfm file first."))
  | Some editor =>
      if negb (bool_decide (languageId editor = lit "pfm"))
      then Notified (showWarningMessage (lit "Open a .pfm file first."))
      else
        let doc := parsePFM (getText editor) in
        if (length (doc_sections doc) =? 0)%nat
        then Notified (showInformationMessage (lit "No sections found."))
        else
          let items := map item_of (doc_sections doc) in
          match showQuickPick items with
          | Some picked => Revealed (line picked) 0
          | None => Dismissed
          end
  end.

End GoToSection.

End Providers.

(** ** pfm-vscode/src/hover/hoverProvider.ts *)

Module Hover.

Import Convert JSString.
Import Engine(starts_with).

(** The class [\w] and the line terminators, which [.] does not match. *)
Definition isWord (c : Z) : bool :=
  in_range "a" "z" c || in_range "A" "Z" c || in_range "0" "9" c || (c =? code "_").

Definition isLineTerminator (c : Z) : bool :=
  (c =? 10) || (c =? 13) || (c =? 8232) || (c =? 8233).

(** The longest run of word characters at the start of [s], and the rest. *)
Fixpoint word_prefix (s : jsstring) : jsstring * jsstring :=
  match s with
  | c :: rest =>
      if isWord c then let '(word, after) := word_prefix rest in (c :: word, after)
      else ([], s)
  | [] => ([], [])
  end.

(** [line.match] on the meta pattern, to its first group.  The pattern is,
    from the start of the line to its end: one or more word characters
    (the group), a colon, one or more whitespace characters, and any run of
    characters other than line terminators.  So the key is the run of word
    characters at the start, a colon and a whitespace character follow, and
    what comes after the whitespace holds no line terminator.  [None] is
    [null]. *)
Definition metaMatch (line : jsstring) : option jsstring :=
  match word_prefix line with
  | ((_ :: _) as key, colon :: ((space :: _) as after)) =>
      if (colon =? code ":") && isWhiteSpace space
         && forallb (fun c => negb (isLineTerminator c)) (trimStart after)
      then Some key
      else None
  | _ => None
  end.

Definition BACKTICK : jsstring := [96].

Definition section_hover (name desc : jsstring) : jsstring :=
  lit "**Section: " ++ BACKTICK ++ name ++ BACKTICK ++ lit "**" ++ [10; 10] ++ desc.

Definition meta_hover (key desc : jsstring) : jsstring :=
  lit "**Meta: " ++ BACKTICK ++ key ++ BACKTICK ++ lit "**" ++ [10; 10] ++ desc.

Definition MAGIC_HOVER : jsstring :=
  lit "**PFM Magic Line**" ++ [10; 10]
  ++ lit "Identifies this file as PFM format. The version number follows the slash. "
  ++ BACKTICK ++ lit ":STREAM" ++ BACKTICK ++ lit " flag indicates streaming mode.".

Definition EOF_HOVER : jsstring :=
  lit "**PFM EOF Marker**" ++ [10; 10]
  ++ lit "End of file marker. In stream mode, the number after the colon is the byte offset of the trailing index.".

Definition ESCAPED_HOVER : jsstring :=
  lit "**Escaped Line**" ++ [10; 10] ++ lit "This line starts with " ++ BACKTICK ++ lit "\#"
  ++ BACKTICK ++ lit " because the original content started with " ++ BACKTICK ++ lit "#@"
  ++ BACKTICK ++ lit " or " ++ BACKTICK ++ lit "#!" ++ BACKTICK
  ++ lit ", which would be confused with PFM markers. The backslash is removed when reading.".

Section Descriptions.

(** The two tables of [../parser], read at a key: [None] when the value
    found is falsy, the text it renders as otherwise. *)
Variable SECTION_DESCRIPTIONS : jsstring -> option jsstring.
Variable META_FIELD_DESCRIPTIONS : jsstring -> option jsstring.

(** [provideHover] on the text of the line under the cursor: the Markdown
    of the hover, [None] for [null]. *)
Definition provideHover (line : jsstring) : option jsstring :=
  if starts_with (lit "#@") line then
    let name := trim (drop 2 line) in
    match SECTION_DESCRIPTIONS name with
    | Some desc => Some (section_hover name desc)
    | None => Some (section_hover name (lit "Custom user-defined section."))
    end
  else
    let described :=
      match metaMatch line with
      | Some key =>
          match META_FIELD_DESCRIPTIONS key with
          | Some desc => Some (meta_hover key desc)
          | None => None
          end
      | None => None
      end in
    match described with
    | Some hover => Some hover
    | None =>
        if starts_with (lit "#!PFM") line then Some MAGIC_HOVER
        else if starts_with (lit "#!END") line then Some EOF_HOVER
        else if starts_with [92; 35] line then Some ESCAPED_HOVER
        else None
    end.

End Descriptions.

End Hover.

(** ** Sample inputs *)

Module Samples.

Import Convert Extension.

Definition quoted (s : string) : jsstring := [34] ++ lit s ++ [34].

Definition str (s : string) : json := JStr (lit s).

(** The value of the JSON text
    [{"meta":{"__proto__":"x","agent":"cli","turns":3},
      "sections":[{"name":"Bad Name","content":"a"},{"name":"content","content":"b"}]}]. *)
Definition export_value : json :=
  JObj [ (lit "meta", JObj [ (lit "__proto__", str "x"); (lit "agent", str "cli"); (lit "turns", JNum 3) ]);
         (lit "sections",
          JArr [ JObj [ (lit "name", str "Bad Name"); (lit "content", str "a") ];
                 JObj [ (lit "name", str "content"); (lit "content", str "b") ] ]) ].

Definition export_text : jsstring :=
  lit "{" ++ quoted "meta" ++ lit ":{" ++ quoted "__proto__" ++ lit ":" ++ quoted "x" ++ lit ","
  ++ quoted "agent" ++ lit ":" ++ quoted "cli" ++ lit "," ++ quoted "turns" ++ lit ":3},"
  ++ quoted "sections" ++ lit ":[{" ++ quoted "name" ++ lit ":" ++ quoted "Bad Name" ++ lit ","
  ++ quoted "content" ++ lit ":" ++ quoted "a" ++ lit "},{" ++ quoted "name" ++ lit ":"
  ++ quoted "content" ++ lit "," ++ quoted "content" ++ lit ":" ++ quoted "b" ++ lit "}]}".

(** The value of [{"pfm_version":"2.0","sections":[]}]. *)
Definition v2_export_value : json :=
  JObj [ (lit "pfm_version", str "2.0"); (lit "sections", JArr []) ].

Definition v2_export_text : jsstring :=
  lit "{" ++ quoted "pfm_version" ++ lit ":" ++ quoted "2.0" ++ lit ","
  ++ quoted "sections" ++ lit ":[]}".

(** The value of [{"pfm_version":2,"sections":[]}]: the version is a number. *)
Definition numeric_version_value : json :=
  JObj [ (lit "pfm_version", JNum 2); (lit "sections", JArr []) ].

(** The value of [{"pfm_version":"2.0"}]: no [sections] property. *)
Definition v2_bare_value : json :=
  JObj [ (lit "pfm_version", str "2.0") ].

(** The export whose only section is named [n]. *)
Definition single_section_export (n c : jsstring) : json :=
  JObj [ (lit "sections", JArr [ JObj [ (lit "name", JStr n); (lit "content", JStr c) ] ]) ].

(** A host whose [JSON.parse] reads the two sample texts. *)
Definition sample_host : Host :=
  {| JSON_parse := fun text =>
       if decide (text = export_text) then Some export_value
       else if decide (text = v2_export_text) then Some v2_export_value
       else None;
     JSON_stringify := fun _ => lit "null";
     Date_toISOString := lit "2026-02-16T09:30:00.000Z" |}.

(** What [fromJSON] makes of [export_text] on that host. *)
Definition export_document : PFMDocument :=
  {| formatVersion := lit "1.0";
     isStream := false;
     meta := {[ lit "agent" := lit "cli" ]};
     sections := [ {| name := lit "content"; content := lit "b" |} ] |}.

Definition empty_document : PFMDocument :=
  {| formatVersion := lit "1.0"; isStream := false; meta := ∅; sections := [] |}.

(** Two documents with the same contents under different names and meta. *)
Definition notes_document : PFMDocument :=
  {| formatVersion := lit "1.0"; isStream := false;
     meta := {[ lit "agent" := lit "cli" ]};
     sections := [ {| name := lit "content"; content := lit "alpha" |};
                   {| name := lit "chain"; content := lit "beta" |} ] |}.

Definition renamed_document : PFMDocument :=
  {| formatVersion := lit "1.0"; isStream := true;
     meta := {[ lit "agent" := lit "web"; lit "model" := lit "m1" ]};
     sections := [ {| name := lit "summary"; content := lit "alpha" |};
                   {| name := lit "notes"; content := lit "beta" |} ] |}.

(** A stand-in for the hash, for running the definitions: the sum of the
    code units, as one code unit. *)
Definition sum_digest (text : jsstring) : jsstring := [fold_left Z.add text 0 mod 65536].

(** A trailing index written in one pass, for running the writer on stream
    documents, and the offset of its marker line. *)
Definition one_pass_index (d : PFMDocument) : list jsstring :=
  map Engine.encode_entry (Engine.first_candidate Engine.Trailing d).

Definition one_pass_index_offset (d : PFMDocument) : jsstring :=
  Engine.decimal (Engine.index_position Engine.Trailing d).

(** A stream document whose content holds every kind of marker line. *)
Definition journal_document : PFMDocument :=
  {| formatVersion := lit "1.0"; isStream := true;
     meta := {[ lit "agent" := lit "cli"; lit "id" := lit "a: b" ]};
     sections :=
       [ {| name := lit "content";
            content := Engine.join_lines
                         [ lit "Line before"; lit "#@fake-section"; lit "#!PFM/1.0"; lit "#!END";
                           lit "\\#@escaped"; lit "Line after"; lit "" ] |};
         {| name := lit "chain"; content := [] |} ] |}.

(** Stream documents whose sections start near the offsets at which a
    decimal gains a digit: a title of [pad] letters, then contents of [n1],
    [n2] and 3 letters. *)
Definition spaced_document (pad n1 n2 : nat) : PFMDocument :=
  {| formatVersion := lit "1.0"; isStream := true;
     meta := {[ lit "title" := repeat (code "x") pad ]};
     sections := [ {| name := lit "content"; content := repeat (code "x") n1 |};
                   {| name := lit "chain"; content := repeat (code "x") n2 |};
                   {| name := lit "notes"; content := lit "end" |} ] |}.

Definition growing_document : PFMDocument := spaced_document 40 100 1000.

(** A stream document whose text is longer in bytes than in code units: an
    accented letter in the title; in the contents an accented letter, the
    euro sign, a surrogate pair and a high surrogate without its pair. *)
Definition accented_document : PFMDocument :=
  {| formatVersion := lit "1.0"; isStream := true;
     meta := {[ lit "title" := [99; 97; 102; 233] ]};
     sections :=
       [ {| name := lit "content";
            content := [110; 97; 239; 118; 101; 32; 8364; 53; 32; 55357; 56832] |};
         {| name := lit "chain"; content := [55357; 120] |};
         {| name := lit "notes"; content := lit "end" |} ] |}.

Definition drifting_document : PFMDocument := spaced_document 40 864 (Z.to_nat 8990).

(** A stand-in for [toLowerCase], on ASCII text. *)
Definition ascii_lower (s : jsstring) : jsstring :=
  map (fun c => if (65 <=? c) && (c <=? 90) then c + 32 else c) s.

(** The text of [notes_document] as [toJSON] exports it, on one line, and
    a platform whose [JSON.stringify] prints and whose [JSON.parse] reads
    that export. *)
Definition notes_export_text : jsstring :=
  lit "{" ++ quoted "pfm_version" ++ lit ":" ++ quoted "1.0" ++ lit ","
  ++ quoted "meta" ++ lit ":{" ++ quoted "agent" ++ lit ":" ++ quoted "cli" ++ lit "},"
  ++ quoted "sections" ++ lit ":[{" ++ quoted "name" ++ lit ":" ++ quoted "content" ++ lit ","
  ++ quoted "content" ++ lit ":" ++ quoted "alpha" ++ lit "},{" ++ quoted "name" ++ lit ":"
  ++ quoted "chain" ++ lit "," ++ quoted "content" ++ lit ":" ++ quoted "beta" ++ lit "}]}".

Definition renamed_export_text : jsstring :=
  lit "{" ++ quoted "pfm_version" ++ lit ":" ++ quoted "1.0" ++ lit ","
  ++ quoted "meta" ++ lit ":{" ++ quoted "agent" ++ lit ":" ++ quoted "web" ++ lit ","
  ++ quoted "model" ++ lit ":" ++ quoted "m1" ++ lit "},"
  ++ quoted "sections" ++ lit ":[{" ++ quoted "name" ++ lit ":" ++ quoted "summary" ++ lit ","
  ++ quoted "content" ++ lit ":" ++ quoted "alpha" ++ lit "},{" ++ quoted "name" ++ lit ":"
  ++ quoted "notes" ++ lit "," ++ quoted "content" ++ lit ":" ++ quoted "beta" ++ lit "}]}".

Definition printing_host (text : jsstring) (value : json) : Host :=
  {| JSON_parse := fun t => if decide (t = text) then Some value else None;
     JSON_stringify := fun _ => text;
     Date_toISOString := lit "2026-02-16T09:30:00.000Z" |}.

Definition notes_host : Host :=
  printing_host notes_export_text (Converters.export_of map_to_list notes_document).

Definition renamed_host : Host :=
  printing_host renamed_export_text (Converters.export_of map_to_list renamed_document).

(** A document with a comma, quotes and a leading minus in its fields. *)
Definition table_document : PFMDocument :=
  {| formatVersion := lit "1.0"; isStream := false;
     meta := {[ lit "agent" := lit "cli, v2"; lit "title" := lit "x - y" ]};
     sections := [ {| name := lit "content";
                      content := lit "say " ++ quoted "hi" ++ lit ", ok" |};
                   {| name := lit "chain"; content := lit "-x" |} ] |}.

Definition sample_editor : TextEditor :=
  {| languageId := lit "pfm"; getText := lit "#!PFM/1.0" |}.

End Samples.

(** ** Sample pages and editors *)

Module Pages.

Import Extension Scrapers Providers.

(** A node with the answers [all] and [first] to the two query methods. *)
Definition node (text : string) (kids : list Node) (answers : jsstring -> bool)
    (all : jsstring -> list Node) (first : jsstring -> option Node) : Node :=
  {| innerText := lit text;
     className := [];
     getAttribute := fun _ => None;
     children := kids;
     matches := fun sel => Some (answers sel);
     querySelectorAll := fun sel => Some (all sel);
     querySelector := fun sel => Some (first sel) |}.

(** An element without descendants. *)
Definition element (text : string) : Node :=
  node text [] (fun _ => false) (fun _ => []) (fun _ => None).

(** The turns in the order given. *)
Definition in_order (turns : list Turn) : list Turn := turns.

(** A page of the assistant-ui kind: one element of each role and a
    heading. *)
Definition moltbot_page : Node :=
  node "" [] (fun _ => false)
    (fun sel =>
       if bool_decide (sel = attr "data-role" "=" "user") then [element "  Hello  "]
       else if bool_decide (sel = attr "data-role" "=" "assistant") then [element "Hi there"]
       else [])
    (fun sel => if bool_decide (sel = lit "h1") then Some (element " Greetings ") else None).

Definition moltbot_conversation : Conversation :=
  {| messages := [ mkMessage USER (lit "Hello"); mkMessage ASSISTANT (lit "Hi there") ];
     title := lit "Greetings";
     model := lit "openclaw";
     platform := lit "moltbot" |}.

(** A page on which only the main column is found; its third child is
    blank. *)
Definition grok_page : Node :=
  node "" [] (fun _ => false) (fun _ => [])
    (fun sel =>
       if bool_decide (sel = Grok.MAIN_COLUMN)
       then Some (node "" [ element "What is PFM?"; element " A file format. "; element " ";
                            element "Thanks" ]
                       (fun _ => false) (fun _ => []) (fun _ => None))
       else if bool_decide (sel = lit ".model-selector") then Some (element "Grok 3")
       else if bool_decide (sel = lit "h1") then Some (element "Grok")
       else None).

Definition grok_conversation : Conversation :=
  {| messages := [ mkMessage USER (lit "What is PFM?");
                   mkMessage ASSISTANT (lit "A file format.");
                   mkMessage USER (lit "Thanks") ];
     title := lit "Grok Conversation";
     model := lit "grok 3";
     platform := lit "grok" |}.

(** A page of turns marked by test id: the first is a human turn, the
    second holds no human element; the title is nested in its button. *)
Definition claude_page : Node :=
  node "" [] (fun _ => false)
    (fun sel =>
       if bool_decide (sel = Claude.TEST_ID_TURNS)
       then [ node "Hello" [] (fun sel => bool_decide (sel = Claude.HUMAN)) (fun _ => [])
                   (fun _ => None);
              element " Hi, how can I help? " ]
       else [])
    (fun sel =>
       if bool_decide (sel = lit "h2")
       then Some (node "Chat menu" [] (fun _ => false) (fun _ => [])
                       (fun sel => if bool_decide (sel = lit ".truncate")
                                   then Some (element "About PFM") else None))
       else None).

Definition claude_conversation : Conversation :=
  {| messages := [ mkMessage USER (lit "Hello");
                   mkMessage ASSISTANT (lit "Hi, how can I help?") ];
     title := lit "About PFM";
     model := lit "claude";
     platform := lit "claude" |}.

(** A parser result with two sections, and a pick of the last entry. *)
Definition two_sections (text : jsstring) : ParsedDocument :=
  {| doc_meta := ∅;
     doc_sections := [ mkParsedSection (lit "content") (lit "first" ++ [10] ++ lit "second") 3;
                       mkParsedSection (lit "chain") (lit "x") 7 ] |}.

Definition pick_last (items : list QuickPickItem) : option QuickPickItem := last items.

(** A stand-in for the number in the template literal, on line numbers. *)
Definition line_number (n : Z) : jsstring := Engine.decimal (Z.to_nat n).

Definition pfm_editor : TextEditor :=
  {| languageId := lit "pfm"; getText := lit "#!PFM/1.0" |}.

End Pages.

(** * Properties *)

(** ** 32-bit operations on code units *)

Module JSFacts.

Lemma toInt32_small (z : Z) : - 2 ^ 31 <= z < 2 ^ 31 -> toInt32 z = z.
Proof.
  intros Hz. unfold toInt32.
  rewrite Z.mod_small by lia. lia.
Qed.

Lemma lxor_code_unit (x y : Z) : code_unit x -> code_unit y -> code_unit (Z.lxor x y).
Proof.
  unfold code_unit. intros [Hx0 Hx] [Hy0 Hy]. split.
  - apply Z.lxor_nonneg. tauto.
  - destruct (Z.eq_dec (Z.lxor x y) 0) as [-> | Hne]; [lia |].
    assert (0 < Z.lxor x y) by (pose proof (proj2 (Z.lxor_nonneg x y)); lia).
    change 65536 with (2 ^ 16). apply Z.log2_lt_pow2; [assumption |].
    pose proof (Z.log2_lxor x y Hx0 Hy0) as Hl.
    assert (Z.log2 x < 16).
    { destruct (Z.eq_dec x 0) as [-> | ?]; [reflexivity |].
      apply Z.log2_lt_pow2; lia. }
    assert (Z.log2 y < 16).
    { destruct (Z.eq_dec y 0) as [-> | ?]; [reflexivity |].
      apply Z.log2_lt_pow2; lia. }
    lia.
Qed.

Lemma lor_code_unit (x y : Z) : code_unit x -> code_unit y -> code_unit (Z.lor x y).
Proof.
  unfold code_unit. intros [Hx0 Hx] [Hy0 Hy]. split.
  - apply Z.lor_nonneg. tauto.
  - destruct (Z.eq_dec (Z.lor x y) 0) as [-> | Hne]; [lia |].
    assert (0 < Z.lor x y) by (pose proof (proj2 (Z.lor_nonneg x y)); lia).
    change 65536 with (2 ^ 16). apply Z.log2_lt_pow2; [assumption |].
    rewrite (Z.log2_lor x y Hx0 Hy0).
    assert (Z.log2 x < 16).
    { destruct (Z.eq_dec x 0) as [-> | ?]; [reflexivity |].
      apply Z.log2_lt_pow2; lia. }
    assert (Z.log2 y < 16).
    { destruct (Z.eq_dec y 0) as [-> | ?]; [reflexivity |].
      apply Z.log2_lt_pow2; lia. }
    lia.
Qed.

Lemma bitxor_code_unit (x y : Z) :
  code_unit x -> code_unit y -> bitxor x y = Z.lxor x y /\ code_unit (Z.lxor x y).
Proof.
  intros Hx Hy. pose proof (lxor_code_unit x y Hx Hy) as Hxy.
  split; [| assumption]. unfold bitxor, code_unit in *.
  rewrite (toInt32_small x), (toInt32_small y) by lia.
  apply toInt32_small. lia.
Qed.

Lemma bitor_code_unit (x y : Z) :
  code_unit x -> code_unit y -> bitor x y = Z.lor x y /\ code_unit (Z.lor x y).
Proof.
  intros Hx Hy. pose proof (lor_code_unit x y Hx Hy) as Hxy.
  split; [| assumption]. unfold bitor, code_unit in *.
  rewrite (toInt32_small x), (toInt32_small y) by lia.
  apply toInt32_small. lia.
Qed.

Lemma or_zero_Some (c : Z) : or_zero (Some c) = c.
Proof.
  unfold or_zero. destruct (Z.eqb_spec c 0); congruence.
Qed.

Lemma or_zero_charCodeAt (s : jsstring) (i : nat) :
  wf_string s -> code_unit (or_zero (charCodeAt s i)).
Proof.
  intros Hs. unfold charCodeAt.
  destruct (nth_error s i) as [c |] eqn:Hc.
  - rewrite or_zero_Some.
    apply nth_error_In in Hc.
    unfold wf_string in Hs. rewrite List.Forall_forall in Hs. auto.
  - simpl. unfold code_unit. lia.
Qed.

End JSFacts.

(** ** extension.ts: [timingSafeEqual] *)

Module ExtensionFacts.

Import JSFacts Extension Samples.

(** One turn of the loop: its value and its operations. *)
Lemma loop_step (a b : jsstring) (n i : nat) (r : Z) :
  timingSafeEqual_loop a b (S n) i r
  = (fst (timingSafeEqual_loop a b n (S i)
            (bitor r (bitxor (or_zero (charCodeAt a i)) (or_zero (charCodeAt b i))))),
     [ LoopTest true; CharCodeAt true i; OrZero (falsy_number (charCodeAt a i));
       CharCodeAt false i; OrZero (falsy_number (charCodeAt b i)); BitXor; BitOrAssign;
       Increment ]
     ++ snd (timingSafeEqual_loop a b n (S i)
               (bitor r (bitxor (or_zero (charCodeAt a i)) (or_zero (charCodeAt b i)))))).
Proof. reflexivity. Qed.


(** The accumulator stays a code unit, and ends at zero exactly when it
    started at zero and the two strings agree on every index visited. *)
Lemma loop_result (a b : jsstring) (n i : nat) (r : Z) :
  wf_string a -> wf_string b -> code_unit r ->
  code_unit (snd (fst (timingSafeEqual_loop a b n i r)))
  /\ (snd (fst (timingSafeEqual_loop a b n i r)) = 0
      <-> r = 0 /\ forall j, (i <= j < i + n)%nat ->
                     or_zero (charCodeAt a j) = or_zero (charCodeAt b j)).
Proof.
  intros Ha Hb. revert i r. induction n as [| n IH]; intros i r Hr.
  - cbn. split; [assumption |]. split; [intros ->; split; [reflexivity | intros; lia] | tauto].
  - rewrite loop_step. cbn [fst].
    pose proof (or_zero_charCodeAt a i Ha) as Hca.
    pose proof (or_zero_charCodeAt b i Hb) as Hcb.
    destruct (bitxor_code_unit _ _ Hca Hcb) as [Ex Hx].
    destruct (bitor_code_unit _ _ Hr (proj2 (bitxor_code_unit _ _ Hca Hcb))) as [Eo Ho].
    rewrite Ex, Eo.
    destruct (IH (S i) _ Ho) as [Hcu Hiff].
    split; [assumption |].
    rewrite Hiff, Z.lor_eq_0_iff, Z.lxor_eq_0_iff.
    split.
    + intros [[-> Hi] Hrest]. split; [reflexivity |].
      intros j Hj. destruct (Nat.eq_dec j i) as [-> | Hne]; [assumption |].
      apply Hrest. lia.
    + intros [-> Hall]. split; [split; [reflexivity | apply Hall; lia] |].
      intros j Hj. apply Hall. lia.
Qed.

Lemma agree_on_indices (a b : jsstring) :
  length a = length b ->
  (forall j, (0 <= j < 0 + length a)%nat ->
             or_zero (charCodeAt a j) = or_zero (charCodeAt b j)) ->
  a = b.
Proof.
  revert b. induction a as [| x a IH]; intros [| y b] Hlen Hall; simpl in *; try discriminate.
  - reflexivity.
  - f_equal.
    + specialize (Hall O ltac:(lia)). unfold charCodeAt in Hall.
      cbn [nth_error] in Hall. rewrite !or_zero_Some in Hall. assumption.
    + apply IH; [lia |]. intros j Hj.
      apply (Hall (S j)). lia.
Qed.

(** The value and the operations of the whole function. *)
Lemma timingSafeEqual_run_unfold (a b : jsstring) :
  let start := if (length a =? length b)%nat then 0 else 1 in
  let loop := timingSafeEqual_loop a b (Nat.max (length a) (length b)) 0 start in
  timingSafeEqual_run a b
  = ((fst (fst loop), snd (fst loop) =? 0),
     LengthsEqual (length a =? length b)%nat :: snd loop ++ []).
Proof. reflexivity. Qed.

Lemma timingSafeEqual_true_iff (a b : jsstring) :
  wf_string a -> wf_string b -> timingSafeEqual a b = true <-> a = b.
Proof.
  intros Ha Hb. unfold timingSafeEqual. rewrite timingSafeEqual_run_unfold. cbn [fst snd].
  rewrite Z.eqb_eq.
  destruct (Nat.eqb_spec (length a) (length b)) as [Hlen | Hlen].
  - assert (H0 : code_unit 0) by (unfold code_unit; lia).
    destruct (loop_result a b (Nat.max (length a) (length b)) 0 0 Ha Hb H0) as [_ Hiff].
    rewrite Hiff. rewrite <- Hlen, Nat.max_id. split.
    + intros [_ Hall]. apply agree_on_indices; assumption.
    + intros ->. split; [reflexivity | reflexivity].
  - assert (H1 : code_unit 1) by (unfold code_unit; lia).
    destruct (loop_result a b (Nat.max (length a) (length b)) 0 1 Ha Hb H1) as [_ Hiff].
    rewrite Hiff. split.
    + intros [Habs _]. discriminate.
    + intros ->. contradiction.
Qed.







(** ** extension.ts: the [pfm.validateChecksum] command *)

Section ValidateChecksum.

Variable parsePFM : jsstring -> ParsedDocument.
Variable computeChecksum : list ParsedSection -> jsstring.

Lemma validateChecksum_valid_inv (editor : option TextEditor) (m : jsstring) :
  validateChecksum parsePFM computeChecksum editor = showInformationMessage m ->
  exists ed expected,
    editor = Some ed
    /\ doc_meta (parsePFM (getText ed)) !! lit "checksum" = Some expected
    /\ expected <> []
    /\ timingSafeEqual (computeChecksum (doc_sections (parsePFM (getText ed)))) expected = true.
Proof.
  unfold validateChecksum. destruct editor as [ed |]; [| discriminate].
  destruct (negb _); [discriminate |].
  destruct (doc_meta (parsePFM (getText ed)) !! lit "checksum") as [[| c expected] |] eqn:Hm;
    simpl; try discriminate.
  destruct (timingSafeEqual _ _) eqn:Heq; [| discriminate].
  intros _. exists ed, (c :: expected).
  split; [reflexivity |]. split; [exact Hm |]. split; [discriminate | exact Heq].
Qed.

(** C7.  When the parsed document's meta has no [checksum] field the
    command never shows an information message, so never "PFM Checksum:
    VALID": on a PFM editor it ends with the warning that no checksum was
    found. *)
Theorem validateChecksum_missing_checksum (editor : TextEditor) :
  doc_meta (parsePFM (getText editor)) !! lit "checksum" = None ->
  (forall m, validateChecksum parsePFM computeChecksum (Some editor) <> showInformationMessage m)
  /\ (languageId editor = lit "pfm" ->
      validateChecksum parsePFM computeChecksum (Some editor)
      = showWarningMessage (lit "No checksum found in metadata.")).
Proof.
  intros Hnone. split.
  - intros m Hm. apply validateChecksum_valid_inv in Hm.
    destruct Hm as (ed & expected & Hed & Hsome & _).
    injection Hed as Hed. subst ed. congruence.
  - intros Hlang. unfold validateChecksum.
    rewrite bool_decide_true by assumption. simpl. rewrite Hnone. reflexivity.
Qed.

End ValidateChecksum.

(** On checksums that are strings of code units, the command reports
    "VALID" exactly when the stored checksum is not empty and is the
    computed one. *)
Lemma validateChecksum_reports_valid (parsePFM : jsstring -> ParsedDocument)
    (computeChecksum : list ParsedSection -> jsstring) (ed : TextEditor) :
  (forall expected, doc_meta (parsePFM (getText ed)) !! lit "checksum" = Some expected ->
                    wf_string expected) ->
  wf_string (computeChecksum (doc_sections (parsePFM (getText ed)))) ->
  validateChecksum parsePFM computeChecksum (Some ed)
  = showInformationMessage (lit "PFM Checksum: VALID")
  <-> languageId ed = lit "pfm"
      /\ computeChecksum (doc_sections (parsePFM (getText ed))) <> []
      /\ doc_meta (parsePFM (getText ed)) !! lit "checksum"
         = Some (computeChecksum (doc_sections (parsePFM (getText ed)))).
Proof.
  intros Hexpected Hactual. unfold validateChecksum.
  destruct (decide (languageId ed = lit "pfm")) as [Hlang | Hlang].
  - rewrite bool_decide_true by assumption. cbn [negb].
    destruct (doc_meta (parsePFM (getText ed)) !! lit "checksum") as [[| c expected] |] eqn:Hm;
      cbn [falsy default].
    + split; [discriminate |]. intros (_ & Hne & Hsome). congruence.
    + pose proof (timingSafeEqual_true_iff _ _ Hactual (Hexpected _ eq_refl)) as Hiff.
      destruct (timingSafeEqual _ _).
      * split; [| reflexivity]. intros _.
        rewrite (proj1 Hiff eq_refl). repeat split; [assumption | discriminate].
      * split; [discriminate |]. intros (_ & _ & Hsome).
        injection Hsome as Hsome. symmetry in Hsome. apply Hiff in Hsome. discriminate.
    + split; [discriminate |]. intros (_ & _ & Hsome). discriminate.
  - rewrite bool_decide_false by assumption. cbn [negb].
    split; [discriminate | tauto].
Qed.

(** The command reads the sections and the [checksum] field of the parsed
    document and nothing else of it. *)
Lemma validateChecksum_reads (parse1 parse2 : jsstring -> ParsedDocument)
    (computeChecksum : list ParsedSection -> jsstring) (ed1 ed2 : TextEditor) :
  languageId ed1 = languageId ed2 ->
  doc_sections (parse1 (getText ed1)) = doc_sections (parse2 (getText ed2)) ->
  doc_meta (parse1 (getText ed1)) !! lit "checksum"
  = doc_meta (parse2 (getText ed2)) !! lit "checksum" ->
  validateChecksum parse1 computeChecksum (Some ed1)
  = validateChecksum parse2 computeChecksum (Some ed2).
Proof.
  intros Hlang Hsections Hsum. unfold validateChecksum.
  rewrite Hlang, Hsections, Hsum. reflexivity.
Qed.

Lemma validateChecksum_missing_checksum_witness :
  (forall m, validateChecksum (fun _ => mkParsed ∅ []) (fun _ => []) (Some sample_editor)
             <> showInformationMessage m)
  /\ (languageId sample_editor = lit "pfm" ->
      validateChecksum (fun _ => mkParsed ∅ []) (fun _ => []) (Some sample_editor)
      = showWarningMessage (lit "No checksum found in metadata.")).
Proof.
  apply (validateChecksum_missing_checksum (fun _ => mkParsed ∅ []) (fun _ => []) sample_editor).
  reflexivity.
Defined.

End ExtensionFacts.

(** ** convert.ts: [fromJSON] *)

Module ConvertFacts.

Import Convert Samples.

(** *** The meta loop *)

Lemma sanitize_meta_fold (entries : list (jsstring * json)) (acc : gmap (list Z) (list Z))
    (k v : list Z) :
  (fold_left
     (fun (safeMeta : gmap (list Z) (list Z)) '(key, val) =>
        if bool_decide (key ∈ FORBIDDEN_KEYS) then safeMeta
        else match val with
             | JStr s => <[key := s]> safeMeta
             | _ => safeMeta
             end)
     entries acc) !! k = Some v ->
  acc !! k = Some v \/ ((k ∉ FORBIDDEN_KEYS) /\ In (k, JStr v) entries).
Proof.
  revert acc. induction entries as [| [key val] entries IH]; intros acc; simpl.
  - auto.
  - intros Hk. apply IH in Hk. destruct Hk as [Hacc | [Hnot Hin]]; [| auto].
    case_bool_decide as Hforb; [auto |].
    destruct val; auto.
    destruct (decide (key = k)) as [-> | Hne].
    + rewrite lookup_insert_eq in Hacc. injection Hacc as ->. auto.
    + rewrite lookup_insert_ne in Hacc by assumption. auto.
Qed.

Lemma sanitize_meta_lookup (entries : list (jsstring * json)) (k v : list Z) :
  sanitize_meta entries !! k = Some v ->
  (k ∉ FORBIDDEN_KEYS) /\ In (k, JStr v) entries.
Proof.
  intros Hk. apply sanitize_meta_fold in Hk.
  destruct Hk as [Hempty | ?]; [| assumption].
  rewrite lookup_empty in Hempty. discriminate.
Qed.

(** *** The two paths of [fromJSON] *)

Lemma fromJSON_data_unstructured (H : Host) (data : json) :
  has data (lit "sections") = false -> fromJSON_data H data = Return (wrapped H data).
Proof.
  intros Hhas. unfold fromJSON_data. rewrite Hhas.
  rewrite !orb_true_r. reflexivity.
Qed.

Lemma structured_is_object (data : json) :
  has data (lit "sections") = true ->
  (isNull (Some data) || negb (bool_decide (typeof (Some data) = TObject))
   || isArray (Some data) || negb (has data (lit "sections"))) = false.
Proof.
  intros Hhas. rewrite Hhas. destruct data; try discriminate Hhas. reflexivity.
Qed.

Lemma is_section_shaped_spec (s : json) :
  is_section_shaped s = true <->
  exists n c, get s (lit "name") = Some (JStr n) /\ get s (lit "content") = Some (JStr c).
Proof.
  unfold is_section_shaped. split.
  - intros Hs. destruct s; try discriminate Hs.
    destruct (get (JObj props) (lit "name")) as [[]|]; try discriminate Hs.
    destruct (get (JObj props) (lit "content")) as [[]|]; try discriminate Hs.
    eauto.
  - intros (n & c & Hn & Hc). rewrite Hn, Hc.
    destruct s; try discriminate Hn. reflexivity.
Qed.

Lemma filter_chain_section_of (items : list json) :
  map (fun s => {| name := string_prop s (lit "name");
                   content := string_prop s (lit "content") |})
      (filter (fun s => name_accepted (string_prop s (lit "name")) = true)
              (filter (fun s => is_section_shaped s = true) items))
  = omap section_of items.
Proof.
  induction items as [| s items IH]; [reflexivity |].
  rewrite filter_cons. cbn [omap list_omap]. fold (omap section_of items).
  destruct (decide (is_section_shaped s = true)) as [Hs | Hs].
  - destruct (proj1 (is_section_shaped_spec s) Hs) as (n & c & Hn & Hc).
    assert (En : string_prop s (lit "name") = n) by (unfold string_prop; rewrite Hn; reflexivity).
    assert (Ec : string_prop s (lit "content") = c) by (unfold string_prop; rewrite Hc; reflexivity).
    rewrite filter_cons, En. unfold section_of. rewrite Hn, Hc.
    destruct (name_accepted n) eqn:Hacc.
    + rewrite decide_True by reflexivity. cbn [map].
      rewrite En, Ec, IH. reflexivity.
    + rewrite decide_False by discriminate. exact IH.
  - rewrite IH. unfold section_of.
    destruct (get s (lit "name")) as [[]|] eqn:Hn; try reflexivity.
    destruct (get s (lit "content")) as [[]|] eqn:Hc; try reflexivity.
    exfalso. apply Hs, is_section_shaped_spec. eauto.
Qed.

Lemma fromJSON_data_structured (H : Host) (data : json) :
  has data (lit "sections") = true ->
  fromJSON_data H data
  = if decide (version_read data = lit "1.0")
    then Return {| formatVersion := lit "1.0"; isStream := false;
                   meta := meta_read data; sections := omap section_of (items_read data) |}
    else Throw (unsupported_version (version_read data)).
Proof.
  intros Hhas. unfold fromJSON_data.
  rewrite (structured_is_object data Hhas).
  fold (version_read data). unfold items_read, meta_read.
  rewrite filter_chain_section_of.
  destruct (decide (version_read data = lit "1.0")) as [Hv | Hv].
  - rewrite bool_decide_true by assumption. cbn [negb]. rewrite Hv. reflexivity.
  - rewrite bool_decide_false by assumption. reflexivity.
Qed.

(** *** The meta mapping *)

Ltac lit_neq := let E := fresh in intros E; vm_compute in E; discriminate E.

Lemma forbidden_keys_absent (entries : list (jsstring * json)) (k : list Z) :
  k ∈ FORBIDDEN_KEYS -> sanitize_meta entries !! k = None.
Proof.
  intros Hk. destruct (sanitize_meta entries !! k) as [v |] eqn:Hv; [| reflexivity].
  apply sanitize_meta_lookup in Hv. tauto.
Qed.

Lemma meta_read_forbidden (data : json) (k : list Z) :
  k ∈ FORBIDDEN_KEYS -> meta_read data !! k = None.
Proof.
  intros Hk. unfold meta_read.
  destruct (get data (lit "meta")) as [[]|]; try apply lookup_empty.
  apply forbidden_keys_absent, Hk.
Qed.

(** C10.  The meta of a document [fromJSON] returns has none of the keys
    [__proto__], [constructor], [prototype], and each of its entries is
    either an entry of the input's [meta] object whose value is a string,
    kept as it is, or one of the two entries [fromJSON] writes itself when
    it wraps a value that is not a PFM export. *)
Theorem fromJSON_meta_sanitized (H : Host) (json : jsstring) (d : PFMDocument) :
  fromJSON H json = Return d ->
  (meta d !! lit "__proto__" = None
   /\ meta d !! lit "constructor" = None
   /\ meta d !! lit "prototype" = None)
  /\ (forall k v, meta d !! k = Some v ->
        (exists data entries,
            JSON_parse H json = Some data
            /\ get data (lit "meta") = Some (JObj entries)
            /\ In (k, JStr v) entries)
        \/ (k = lit "agent" /\ v = lit "json-import")
        \/ (k = lit "created" /\ v = strip_millis (Date_toISOString H))).
Proof.
  unfold fromJSON. destruct (JSON_parse H json) as [data |] eqn:Hparse; [| discriminate].
  destruct (has data (lit "sections")) eqn:Hhas.
  - rewrite fromJSON_data_structured by assumption.
    destruct (decide _); [| discriminate]. intros [= <-]. cbn [meta]. split.
    + repeat split; apply meta_read_forbidden; unfold FORBIDDEN_KEYS; set_solver.
    + intros k v Hk. left. unfold meta_read in Hk.
      destruct (get data (lit "meta")) as [[| | | | | entries]|] eqn:Hmeta;
        try (rewrite lookup_empty in Hk; discriminate).
      apply sanitize_meta_lookup in Hk. exists data, entries. tauto.
  - rewrite fromJSON_data_unstructured by assumption.
    intros [= <-]. cbn [meta wrapped]. split.
    + repeat split; rewrite !lookup_insert_ne by lit_neq; apply lookup_empty.
    + intros k v Hk. right.
      destruct (decide (lit "created" = k)) as [<- | Hc].
      * rewrite lookup_insert_eq in Hk. injection Hk as <-. right. split; reflexivity.
      * rewrite lookup_insert_ne in Hk by assumption.
        destruct (decide (lit "agent" = k)) as [<- | Ha].
        -- rewrite lookup_insert_eq in Hk. injection Hk as <-. left. split; reflexivity.
        -- rewrite lookup_insert_ne, lookup_empty in Hk by assumption. discriminate.
Qed.

Lemma fromJSON_export_text : fromJSON sample_host export_text = Return export_document.
Proof. vm_compute. reflexivity. Qed.

Lemma fromJSON_meta_sanitized_witness :
  (meta export_document !! lit "__proto__" = None
   /\ meta export_document !! lit "constructor" = None
   /\ meta export_document !! lit "prototype" = None)
  /\ (forall k v, meta export_document !! k = Some v ->
        (exists data entries,
            JSON_parse sample_host export_text = Some data
            /\ get data (lit "meta") = Some (JObj entries)
            /\ In (k, JStr v) entries)
        \/ (k = lit "agent" /\ v = lit "json-import")
        \/ (k = lit "created" /\ v = strip_millis (Date_toISOString sample_host))).
Proof.
  apply (fromJSON_meta_sanitized sample_host export_text export_document).
  vm_compute. reflexivity.
Defined.

(** *** The version check *)

Lemma fromJSON_throws (H : Host) (json : jsstring) (e : thrown) :
  fromJSON H json = Throw e <->
  (JSON_parse H json = None /\ e = SyntaxError)
  \/ (exists data v,
        JSON_parse H json = Some data
        /\ has data (lit "sections") = true
        /\ get data (lit "pfm_version") = Some (JStr v)
        /\ v <> lit "1.0"
        /\ e = unsupported_version v).
Proof.
  unfold fromJSON. destruct (JSON_parse H json) as [data |] eqn:Hparse.
  - destruct (has data (lit "sections")) eqn:Hhas.
    + rewrite fromJSON_data_structured by assumption.
      destruct (decide (version_read data = lit "1.0")) as [Hv | Hv].
      * split; [discriminate |].
        intros [[? _] | (data' & v & [= <-] & _ & Hget & Hne & _)]; [discriminate |].
        unfold version_read in Hv. rewrite Hget in Hv. contradiction.
      * split.
        -- intros [= <-]. right. exists data, (version_read data).
           unfold version_read in *.
           destruct (get data (lit "pfm_version")) as [[]|]; try contradiction.
           auto.
        -- intros [[? _] | (data' & v & [= <-] & _ & Hget & Hne & ->)]; [discriminate |].
           unfold version_read. rewrite Hget. reflexivity.
    + rewrite fromJSON_data_unstructured by assumption.
      split; [discriminate |].
      intros [[? _] | (data' & v & [= <-] & Hhas' & _)]; [discriminate | congruence].
  - split.
    + intros [= <-]. auto.
    + intros [[_ ->] | (data' & v & ? & _)]; [reflexivity | discriminate].
Qed.

Lemma fromJSON_returns_version (H : Host) (json : jsstring) (d : PFMDocument) :
  fromJSON H json = Return d -> formatVersion d = lit "1.0".
Proof.
  unfold fromJSON. destruct (JSON_parse H json) as [data |]; [| discriminate].
  destruct (has data (lit "sections")) eqn:Hhas.
  - rewrite fromJSON_data_structured by assumption.
    destruct (decide _); [| discriminate]. intros [= <-]. reflexivity.
  - rewrite fromJSON_data_unstructured by assumption. intros [= <-]. reflexivity.
Qed.

(** C3, as the code has it.  [fromJSON] throws exactly on text that is not
    JSON and on a PFM export (an object with a [sections] property) whose
    [pfm_version] is a string other than ["1.0"]; every document it
    returns has format version ["1.0"].  A [pfm_version] that is missing or
    not a string is read as ["1.0"], and a value without [sections] is
    wrapped as raw content. *)
Theorem fromJSON_version_check (H : Host) (json : jsstring) :
  (forall d, fromJSON H json = Return d -> formatVersion d = lit "1.0")
  /\ (forall e, fromJSON H json = Throw e <->
        (JSON_parse H json = None /\ e = SyntaxError)
        \/ (exists data v,
              JSON_parse H json = Some data
              /\ has data (lit "sections") = true
              /\ get data (lit "pfm_version") = Some (JStr v)
              /\ v <> lit "1.0"
              /\ e = unsupported_version v)).
Proof.
  split.
  - apply fromJSON_returns_version.
  - apply fromJSON_throws.
Qed.

(** On the sample host the export of version ["2.0"] is rejected. *)
Lemma fromJSON_version_check_witness :
  fromJSON sample_host v2_export_text = Throw (unsupported_version (lit "2.0")).
Proof.
  apply (proj2 (fromJSON_version_check sample_host v2_export_text)).
  right. exists v2_export_value, (lit "2.0").
  repeat split; try reflexivity. lit_neq.
Defined.

(** A version that is not ["1.0"] is accepted without error when it is
    written as a number, and when the object has no [sections] property:
    both inputs come back as documents of version ["1.0"]. *)
Lemma fromJSON_accepts_unrecognized_version :
  (get numeric_version_value (lit "pfm_version") = Some (JNum 2)
   /\ forall H json, JSON_parse H json = Some numeric_version_value ->
                     fromJSON H json = Return empty_document)
  /\ (get v2_bare_value (lit "pfm_version") = Some (JStr (lit "2.0"))
      /\ forall H json, JSON_parse H json = Some v2_bare_value ->
                        fromJSON H json = Return (wrapped H v2_bare_value)).
Proof.
  split; (split; [reflexivity |]); intros H json Hparse; unfold fromJSON; rewrite Hparse.
  - vm_compute. reflexivity.
  - apply fromJSON_data_unstructured. reflexivity.
Qed.

(** *** The sections *)

Lemma fromJSON_sections (H : Host) (text : jsstring) (data : json) (items : list json)
    (d : PFMDocument) :
  JSON_parse H text = Some data ->
  get data (lit "sections") = Some (JArr items) ->
  fromJSON H text = Return d ->
  sections d = omap section_of items.
Proof.
  intros Hparse Hget. unfold fromJSON. rewrite Hparse.
  rewrite fromJSON_data_structured by (unfold has; rewrite Hget; reflexivity).
  destruct (decide _); [| discriminate]. intros [= <-].
  cbn [sections]. unfold items_read. rewrite Hget. reflexivity.
Qed.

(** C5, as the code has it.  An element of [sections] that fails
    validation never makes [fromJSON] fail: the only errors are the JSON
    syntax error and the unsupported version.  The document returned holds,
    in input order, exactly the elements that are objects with string
    [name] and [content] and an accepted name; the others are dropped. *)
Theorem fromJSON_drops_invalid_sections (H : Host) (text : jsstring) :
  (forall e, fromJSON H text = Throw e ->
             e = SyntaxError \/ exists v, v <> lit "1.0" /\ e = unsupported_version v)
  /\ (forall data items d,
        JSON_parse H text = Some data ->
        get data (lit "sections") = Some (JArr items) ->
        fromJSON H text = Return d ->
        sections d = omap section_of items
        /\ forall sec, sec ∈ sections d <-> exists s, s ∈ items /\ section_of s = Some sec).
Proof.
  split.
  - intros e He. apply fromJSON_throws in He.
    destruct He as [[_ ->] | (data & v & _ & _ & _ & Hne & ->)]; eauto.
  - intros data items d Hparse Hget Hret.
    pose proof (fromJSON_sections H text data items d Hparse Hget Hret) as Hs.
    split; [assumption |]. intros sec. rewrite Hs. apply list_elem_of_omap.
Qed.

Lemma fromJSON_drops_invalid_sections_witness :
  sections export_document
  = omap section_of
      [ JObj [ (lit "name", str "Bad Name"); (lit "content", str "a") ];
        JObj [ (lit "name", str "content"); (lit "content", str "b") ] ].
Proof.
  apply (proj2 (fromJSON_drops_invalid_sections sample_host export_text) export_value);
    vm_compute; reflexivity.
Defined.

(** The section named ["Bad Name"] fails validation, and [fromJSON]
    returns a document without it instead of failing. *)
Lemma fromJSON_returns_partial_document :
  section_of (JObj [ (lit "name", str "Bad Name"); (lit "content", str "a") ]) = None
  /\ items_read export_value
     = [ JObj [ (lit "name", str "Bad Name"); (lit "content", str "a") ];
         JObj [ (lit "name", str "content"); (lit "content", str "b") ] ]
  /\ forall H text, JSON_parse H text = Some export_value ->
                    fromJSON H text = Return export_document.
Proof.
  split; [reflexivity |]. split; [reflexivity |].
  intros H text Hparse. unfold fromJSON. rewrite Hparse. vm_compute. reflexivity.
Qed.

(** *** Section names *)

Lemma in_range_spec (lo hi : ascii) (c : Z) :
  in_range lo hi c = true <-> code lo <= c <= code hi.
Proof. unfold in_range. rewrite andb_true_iff, !Z.leb_le. tauto. Qed.

Lemma VALID_NAME_class_spec (c : Z) : VALID_NAME_class c = true <-> name_char c.
Proof.
  unfold VALID_NAME_class, name_char.
  rewrite !orb_true_iff, !in_range_spec, !Z.eqb_eq.
  change (code "a") with 97. change (code "z") with 122.
  change (code "0") with 48. change (code "9") with 57.
  change (code "_") with 95. change (code "-") with 45. tauto.
Qed.

Lemma VALID_NAME_test_spec (n : list Z) :
  VALID_NAME_test n = true <-> n <> [] /\ Forall name_char n.
Proof.
  destruct n as [| c n].
  - simpl. split; [discriminate | intros [Hne _]; contradiction].
  - unfold VALID_NAME_test. rewrite forallb_forall, List.Forall_forall.
    split.
    + intros Hall. split; [discriminate |].
      intros x Hx. apply VALID_NAME_class_spec, Hall, Hx.
    + intros [_ Hall] x Hx. apply VALID_NAME_class_spec, Hall, Hx.
Qed.

Lemma reserved_spec (n : list Z) :
  n ∈ RESERVED_NAMES <-> n = lit "meta" \/ n = lit "index" \/ n = lit "index-trailing".
Proof.
  unfold RESERVED_NAMES. rewrite !elem_of_union, !elem_of_singleton. tauto.
Qed.

Lemma name_accepted_spec (n : list Z) :
  name_accepted n = true <->
  (n <> [] /\ Forall name_char n)
  /\ (1 <= length n <= 64)%nat
  /\ n <> lit "meta" /\ n <> lit "index" /\ n <> lit "index-trailing".
Proof.
  unfold name_accepted.
  rewrite !andb_true_iff, negb_true_iff, bool_decide_eq_false, reserved_spec.
  rewrite Nat.ltb_lt, Nat.leb_le, VALID_NAME_test_spec.
  intuition lia.
Qed.

(** C6.  [fromJSON] keeps a section exactly when its name is a non-empty
    string of the characters [a-z], [0-9], [_] and [-], of length 1 to 64,
    that is none of the reserved names [meta], [index], [index-trailing].
    A valid name of 64 characters is kept, one of 65 is dropped, and
    [meta] is dropped. *)
Theorem section_name_accepted :
  (forall n : list Z,
      name_accepted n = true <->
      (n <> [] /\ Forall name_char n)
      /\ (1 <= length n <= 64)%nat
      /\ n <> lit "meta" /\ n <> lit "index" /\ n <> lit "index-trailing")
  /\ (forall H text n c d,
        JSON_parse H text = Some (single_section_export n c) ->
        fromJSON H text = Return d ->
        sections d = if name_accepted n then [ {| name := n; content := c |} ] else [])
  /\ name_accepted (repeat (code "a") 64) = true
  /\ name_accepted (repeat (code "a") 65) = false
  /\ name_accepted (lit "meta") = false.
Proof.
  split; [exact name_accepted_spec |].
  split; [| repeat split; vm_compute; reflexivity].
  intros H text n c d Hparse Hret.
  assert (Hitems : get (single_section_export n c) (lit "sections")
                   = Some (JArr [ JObj [ (lit "name", JStr n); (lit "content", JStr c) ] ]))
    by (vm_compute; reflexivity).
  rewrite (fromJSON_sections H text _ _ d Hparse Hitems Hret).
  cbn [omap list_omap]. unfold section_of.
  assert (Hn : get (JObj [ (lit "name", JStr n); (lit "content", JStr c) ]) (lit "name")
               = Some (JStr n)) by (vm_compute; reflexivity).
  assert (Hc : get (JObj [ (lit "name", JStr n); (lit "content", JStr c) ]) (lit "content")
               = Some (JStr c)) by (vm_compute; reflexivity).
  rewrite Hn, Hc. destruct (name_accepted n); reflexivity.
Qed.

End ConvertFacts.

(** ** The escape codec *)

Module EngineFacts.

Import Engine Samples.

(** *** Lines of a text *)

Lemma split_lines_cons (text : list Z) : exists line lines, split_lines text = line :: lines.
Proof.
  induction text as [| c text (line & lines & IH)]; simpl.
  - eauto.
  - destruct (c =? NEWLINE); [eauto |]. rewrite IH. eauto.
Qed.

Lemma join_lines_cons (line : list Z) (lines : list (list Z)) :
  lines <> [] -> join_lines (line :: lines) = line ++ NEWLINE :: join_lines lines.
Proof. destruct lines; [contradiction | reflexivity]. Qed.

Lemma join_split_lines (text : list Z) : join_lines (split_lines text) = text.
Proof.
  induction text as [| c text IH]; [reflexivity |].
  cbn [split_lines]. destruct (Z.eqb_spec c NEWLINE) as [-> | Hc].
  - destruct (split_lines_cons text) as (line & lines & E).
    rewrite join_lines_cons by (rewrite E; discriminate).
    rewrite IH. reflexivity.
  - destruct (split_lines_cons text) as (line & lines & E).
    rewrite E in *. destruct lines as [| l' lines].
    + simpl in *. congruence.
    + rewrite join_lines_cons in * by discriminate.
      rewrite <- IH. reflexivity.
Qed.

Lemma split_lines_no_newline (text : list Z) : Forall no_newline (split_lines text).
Proof.
  induction text as [| c text IH]; cbn [split_lines].
  - repeat constructor. intros [].
  - destruct (Z.eqb_spec c NEWLINE) as [-> | Hc].
    + constructor; [intros [] | assumption].
    + destruct (split_lines text) as [| line lines].
      * repeat constructor. intros [? | []]. congruence.
      * inversion IH as [| ? ? Hline Hlines]; subst. constructor; [| assumption].
        intros [? | ?]; [congruence | contradiction].
Qed.

Lemma split_lines_single (line : list Z) : no_newline line -> split_lines line = [line].
Proof.
  induction line as [| c line IH]; intros Hn; [reflexivity |].
  cbn [split_lines]. destruct (Z.eqb_spec c NEWLINE) as [-> | Hc].
  - exfalso. apply Hn. left. reflexivity.
  - rewrite IH; [reflexivity |]. intros Hin. apply Hn. right. assumption.
Qed.

Lemma split_lines_app (line rest : list Z) :
  no_newline line ->
  split_lines (line ++ NEWLINE :: rest) = line :: split_lines rest.
Proof.
  induction line as [| c line IH]; intros Hn.
  - cbn [app split_lines]. rewrite Z.eqb_refl. reflexivity.
  - cbn [app split_lines]. destruct (Z.eqb_spec c NEWLINE) as [-> | Hc].
    + exfalso. apply Hn. left. reflexivity.
    + rewrite IH; [reflexivity |]. intros Hin. apply Hn. right. assumption.
Qed.

Lemma split_join_lines (lines : list (list Z)) :
  lines <> [] -> Forall no_newline lines -> split_lines (join_lines lines) = lines.
Proof.
  induction lines as [| line lines IH]; [contradiction |].
  intros _ Hall. inversion Hall as [| ? ? Hline Hlines]; subst.
  destruct lines as [| l' lines].
  - apply split_lines_single. assumption.
  - rewrite join_lines_cons by discriminate.
    rewrite split_lines_app by assumption.
    rewrite IH by (discriminate || assumption). reflexivity.
Qed.

(** *** One line *)

Section CodecFacts.

Variable markers : list (list Z).

Lemma marker_like_backslash (line : list Z) :
  marker_like markers (BACKSLASH :: line) = marker_like markers line.
Proof. unfold marker_like. cbn [drop_backslashes]. rewrite Z.eqb_refl. reflexivity. Qed.

Lemma unescape_escape_line (line : list Z) :
  unescape_line_with markers (escape_line_with markers line) = line.
Proof.
  unfold escape_line_with. destruct (marker_like markers line) eqn:Hm.
  - unfold unescape_line_with. rewrite Z.eqb_refl, Hm. reflexivity.
  - unfold unescape_line_with. destruct line as [| c rest]; [reflexivity |].
    destruct (Z.eqb_spec c BACKSLASH) as [-> | Hc]; [| reflexivity].
    rewrite marker_like_backslash in Hm. rewrite Hm. reflexivity.
Qed.

Lemma escape_line_no_newline (line : list Z) :
  no_newline line -> no_newline (escape_line_with markers line).
Proof.
  unfold escape_line_with, no_newline. intros Hn.
  destruct (marker_like markers line); [| assumption].
  intros [E | Hin]; [discriminate E | contradiction].
Qed.

Lemma unescape_escape_with (content : list Z) :
  unescape_with markers (escape_with markers content) = content.
Proof.
  unfold unescape_with, escape_with.
  destruct (split_lines_cons content) as (line & lines & E).
  rewrite split_join_lines.
  - rewrite map_map.
    rewrite (map_ext _ (fun l => l)) by apply unescape_escape_line.
    rewrite map_id. apply join_split_lines.
  - rewrite E. discriminate.
  - apply List.Forall_forall. intros l Hl. apply in_map_iff in Hl.
    destruct Hl as (l0 & <- & Hl0). apply escape_line_no_newline.
    pose proof (split_lines_no_newline content) as Hall.
    rewrite List.Forall_forall in Hall. auto.
Qed.

Lemma unescape_escape_nested (n : nat) (content : list Z) :
  Nat.iter n (unescape_with markers) (Nat.iter n (escape_with markers) content) = content.
Proof.
  induction n as [| n IH]; [reflexivity |].
  rewrite Nat.iter_succ_r. cbn [Nat.iter nat_rect].
  change (nat_rect _ ?x ?f n) with (Nat.iter n (fun y => f 0%nat y) x).
  rewrite unescape_escape_with. exact IH.
Qed.

End CodecFacts.

(** *** Contents *)

Lemma escape_single_line (line : list Z) :
  no_newline line -> escape line = escape_line line.
Proof.
  intros Hn. unfold escape, escape_with. rewrite split_lines_single by assumption.
  reflexivity.
Qed.

Lemma marker_like_backslashes (k : nat) (rest : list Z) :
  marker_like MARKER_PREFIXES (repeat BACKSLASH k ++ rest) = marker_like MARKER_PREFIXES rest.
Proof.
  induction k as [| k IH]; [reflexivity |].
  cbn [repeat app]. rewrite marker_like_backslash. exact IH.
Qed.

Lemma no_newline_backslashes (k : nat) (rest : list Z) :
  no_newline rest -> no_newline (repeat BACKSLASH k ++ rest).
Proof.
  unfold no_newline. intros Hn Hin. apply in_app_or in Hin.
  destruct Hin as [Hin | Hin]; [| contradiction].
  apply repeat_spec in Hin. discriminate Hin.
Qed.

(** C1.  Unescaping the escape of a content gives the content back,
    whatever the content holds; so does any number of escape/unescape
    cycles, and so does unescaping [n] times what was escaped [n] times,
    for every depth [n].  A line that is the magic line, the EOF marker or
    a section header behind [k] backslashes is a line the codec does
    change: escaping yields [k + 1] backslashes, for every [k]. *)
Theorem unescape_escape :
  (forall content, unescape (escape content) = content)
  /\ (forall n content, Nat.iter n (fun c => unescape (escape c)) content = content)
  /\ (forall n content, Nat.iter n unescape (Nat.iter n escape content) = content)
  /\ (forall k marker,
        In marker [lit "#!PFM/1.0"; lit "#!END"; lit "#@section"] ->
        escape (repeat BACKSLASH k ++ marker) = repeat BACKSLASH (S k) ++ marker
        /\ unescape (repeat BACKSLASH (S k) ++ marker) = repeat BACKSLASH k ++ marker).
Proof.
  split; [exact (unescape_escape_with MARKER_PREFIXES) |].
  split.
  { intros n content. induction n as [| n IH]; [reflexivity |].
    cbn [Nat.iter nat_rect]. fold (Nat.iter n (fun c => unescape (escape c)) content).
    rewrite IH. apply (unescape_escape_with MARKER_PREFIXES). }
  split; [exact (unescape_escape_nested MARKER_PREFIXES) |].
  intros k marker Hin.
  assert (Hesc : escape (repeat BACKSLASH k ++ marker) = repeat BACKSLASH (S k) ++ marker).
  { assert (Hn : no_newline marker).
    { unfold no_newline. intros Hnl. cbn [In] in Hin.
      destruct Hin as [<- | [<- | [<- | []]]]; vm_compute in Hnl; intuition discriminate. }
    rewrite escape_single_line by (apply no_newline_backslashes; assumption).
    unfold escape_line, escape_line_with. rewrite marker_like_backslashes.
    replace (marker_like MARKER_PREFIXES marker) with true; [reflexivity |].
    cbn [In] in Hin. destruct Hin as [<- | [<- | [<- | []]]]; reflexivity. }
  split; [exact Hesc |].
  rewrite <- Hesc. apply (unescape_escape_with MARKER_PREFIXES).
Qed.

Lemma unescape_escape_witness :
  escape (repeat BACKSLASH 5 ++ lit "#@section") = repeat BACKSLASH 6 ++ lit "#@section"
  /\ unescape (repeat BACKSLASH 6 ++ lit "#@section") = repeat BACKSLASH 5 ++ lit "#@section".
Proof.
  apply (proj2 (proj2 (proj2 unescape_escape)) 5%nat (lit "#@section")).
  right. right. left. reflexivity.
Defined.

(** The content of the conformance suite's adversarial test, line by line. *)
Example escape_adversarial_content :
  escape (join_lines [ lit "Line before"; lit "#@fake-section"; lit "#!PFM/1.0"; lit "#!END";
                        lit "\#@escaped"; lit "\\#@double"; lit "Line after" ])
  = join_lines [ lit "Line before"; lit "\#@fake-section"; lit "\#!PFM/1.0"; lit "\#!END";
                 lit "\\#@escaped"; lit "\\\#@double"; lit "Line after" ].
Proof. vm_compute. reflexivity. Qed.

(** ** The content checksum *)

Section ChecksumFacts.

Variable digest : list Z -> list Z.

(** C4.  The checksum is the digest of the contents of the sections
    concatenated in order, and of nothing else: two section lists, and two
    documents, with the same sequence of contents have the same checksum;
    replacing the format version, the stream flag and the meta of a
    document, and renaming its sections, leaves the checksum as it was. *)
Theorem checksum_covers_contents_only :
  (forall s1 s2 : list PFMSection,
      map content s1 = map content s2 -> computeChecksum digest s1 = computeChecksum digest s2)
  /\ (forall d1 d2 : PFMDocument,
        map content (sections d1) = map content (sections d2) ->
        checksum digest d1 = checksum digest d2)
  /\ (forall (d : PFMDocument) version stream (meta' : gmap (list Z) (list Z))
             (rename : list Z -> list Z),
        checksum digest
          {| formatVersion := version; isStream := stream; meta := meta';
             sections := map (fun s => {| name := rename (name s); content := content s |})
                             (sections d) |}
        = checksum digest d)
  /\ (forall sections : list PFMSection,
        computeChecksum digest sections = digest (concat (map content sections))).
Proof.
  assert (Hs : forall s1 s2 : list PFMSection,
             map content s1 = map content s2 ->
             computeChecksum digest s1 = computeChecksum digest s2).
  { intros s1 s2 E. unfold computeChecksum. rewrite E. reflexivity. }
  split; [exact Hs |]. split; [| split; [| reflexivity]].
  - intros d1 d2 E. apply Hs, E.
  - intros d version stream meta' rename. apply Hs. cbn [sections].
    rewrite map_map. reflexivity.
Qed.

End ChecksumFacts.

Lemma checksum_covers_contents_only_witness :
  checksum sum_digest notes_document = checksum sum_digest renamed_document.
Proof.
  apply (proj1 (proj2 (checksum_covers_contents_only sum_digest))).
  reflexivity.
Defined.

(** ** The writer and the full parser *)

(** *** Lines that are not markers *)

Lemma starts_with_app (p rest : list Z) : starts_with p (p ++ rest) = true.
Proof.
  induction p as [| c p IH]; [reflexivity |].
  cbn [app starts_with]. rewrite Z.eqb_refl. exact IH.
Qed.

Lemma starts_with_prefix (p q line : list Z) :
  starts_with (p ++ q) line = true -> starts_with p line = true.
Proof.
  revert line. induction p as [| c p IH]; intros line; [reflexivity |].
  destruct line as [| d line]; cbn [app starts_with]; [discriminate |].
  rewrite !andb_true_iff. intros [Hc Hrest]. split; [assumption | apply IH, Hrest].
Qed.

Lemma starts_with_hash (p line : list Z) (c : Z) :
  c <> 35 -> starts_with (35 :: p) (c :: line) = false.
Proof.
  intros Hc. cbn [starts_with]. destruct (Z.eqb_spec 35 c); [congruence | reflexivity].
Qed.

Lemma marker_like_of_prefix (p line : list Z) :
  In p MARKER_PREFIXES -> starts_with p line = true -> marker_like MARKER_PREFIXES line = true.
Proof.
  intros Hin Hp. unfold marker_like. apply existsb_exists. exists p. split; [assumption |].
  destruct line as [| c line].
  - exact Hp.
  - cbn [drop_backslashes]. destruct (Z.eqb_spec c BACKSLASH) as [-> | _]; [| exact Hp].
    cbn [In MARKER_PREFIXES] in Hin. destruct Hin as [<- | [<- | []]]; discriminate Hp.
Qed.

Lemma escape_line_plain (line : list Z) : no_newline line -> plain_line (escape_line line).
Proof.
  intros Hn. split; [apply escape_line_no_newline, Hn |].
  unfold escape_line, escape_line_with.
  destruct (marker_like MARKER_PREFIXES line) eqn:Hm.
  - split; reflexivity.
  - split.
    + destruct (starts_with SECTION_PREFIX line) eqn:Hs; [| reflexivity].
      rewrite (marker_like_of_prefix SECTION_PREFIX line) in Hm;
        [discriminate | left; reflexivity | assumption].
    + destruct (starts_with EOF_MARKER line) eqn:Hs; [| reflexivity].
      rewrite (marker_like_of_prefix MAGIC_EOF_PREFIX line) in Hm;
        [discriminate | right; left; reflexivity |].
      apply (starts_with_prefix MAGIC_EOF_PREFIX (lit "END")). exact Hs.
Qed.

Lemma unescape_escape_lines (content : list Z) :
  join_lines (map unescape_line (map escape_line (split_lines content))) = content.
Proof.
  rewrite map_map.
  rewrite (map_ext _ (fun l => l)) by apply (unescape_escape_line MARKER_PREFIXES).
  rewrite map_id. apply join_split_lines.
Qed.

(** *** Meta lines *)

Lemma filter_all (f : Z -> bool) (l : list Z) : forallb f l = true -> List.filter f l = l.
Proof.
  induction l as [| c l IH]; [reflexivity |].
  cbn [forallb List.filter]. rewrite andb_true_iff. intros [Hc Hl].
  rewrite Hc, IH by assumption. reflexivity.
Qed.

Lemma identifier_char_codes (c : Z) :
  is_identifier_char c = true -> c <> COLON /\ c <> 35 /\ c <> NEWLINE.
Proof.
  unfold is_identifier_char. rewrite !orb_true_iff, !ConvertFacts.in_range_spec, !Z.eqb_eq.
  change (code "a") with 97. change (code "z") with 122.
  change (code "A") with 65. change (code "Z") with 90.
  change (code "0") with 48. change (code "9") with 57.
  change (code "_") with 95. change (code "-") with 45.
  unfold COLON, NEWLINE. lia.
Qed.

Lemma split_key_value_line (key value : list Z) :
  forallb is_identifier_char key = true ->
  split_key_value (key ++ COLON :: SPACE :: value) = Some (key, value).
Proof.
  induction key as [| c key IH]; intros Hkey.
  - reflexivity.
  - cbn [forallb] in Hkey. apply andb_true_iff in Hkey. destruct Hkey as [Hc Hkey].
    cbn [app split_key_value].
    destruct (Z.eqb_spec c COLON) as [-> | _]; [discriminate Hc |].
    cbn [andb]. rewrite IH by assumption. reflexivity.
Qed.

Lemma meta_line_valid (entry : list Z * list Z) :
  valid_entry entry ->
  meta_line entry = fst entry ++ COLON :: SPACE :: snd entry
  /\ split_key_value (meta_line entry) = Some entry
  /\ strip_control (snd entry) = snd entry
  /\ plain_line (meta_line entry).
Proof.
  destruct entry as [key value]. unfold valid_entry. cbn [fst snd]. intros [Hkey Hvalue].
  assert (E : meta_line (key, value) = key ++ COLON :: SPACE :: value).
  { unfold meta_line, restrict_key, strip_control. cbn [fst snd].
    rewrite !filter_all by assumption. reflexivity. }
  rewrite E. split; [reflexivity |].
  split; [apply split_key_value_line, Hkey |].
  split; [apply filter_all, Hvalue |].
  rewrite forallb_forall in Hkey, Hvalue.
  split; [| split].
  - unfold no_newline. intros Hin. apply in_app_or in Hin. destruct Hin as [Hin | Hin].
    + apply Hkey, identifier_char_codes in Hin. tauto.
    + cbn [app In] in Hin. destruct Hin as [E' | [E' | Hin]]; try discriminate E'.
      apply Hvalue in Hin. discriminate Hin.
  - destruct key as [| c key]; [reflexivity |].
    apply starts_with_hash. apply (identifier_char_codes c), Hkey. left. reflexivity.
  - destruct key as [| c key]; [reflexivity |].
    apply starts_with_hash. apply (identifier_char_codes c), Hkey. left. reflexivity.
Qed.

(** *** The parser, block by block *)

Lemma parse_lines_body (body rest : list (list Z)) (m : gmap (list Z) (list Z))
    (secs : list PFMSection) (n : list Z) (acc : list (list Z)) :
  Forall plain_line body ->
  parse_lines (body ++ rest) (mkState m secs (InBody n acc))
  = parse_lines rest (mkState m secs (InBody n (rev body ++ acc))).
Proof.
  intros Hbody. revert acc. induction Hbody as [| line body (_ & Hs & He) _ IH]; intros acc.
  - reflexivity.
  - cbn [app parse_lines]. rewrite He, Hs. cbn [p_block p_meta p_sections].
    rewrite IH. cbn [rev]. rewrite <- app_assoc. reflexivity.
Qed.

Lemma parse_lines_index (entries rest : list (list Z)) (m : gmap (list Z) (list Z))
    (secs : list PFMSection) :
  Forall plain_line entries ->
  parse_lines (entries ++ rest) (mkState m secs InIndex)
  = parse_lines rest (mkState m secs InIndex).
Proof.
  intros Hentries. induction Hentries as [| line entries (_ & Hs & He) _ IH].
  - reflexivity.
  - cbn [app parse_lines]. rewrite He, Hs. cbn [p_block]. exact IH.
Qed.

Lemma parse_lines_meta (entries : list (list Z * list Z)) (rest : list (list Z))
    (m : gmap (list Z) (list Z)) :
  Forall valid_entry entries ->
  NoDup (entries.*1) ->
  (forall k, k ∈ entries.*1 -> m !! k = None) ->
  Z.of_nat (size m) + Z.of_nat (length entries) <= MAX_META_FIELDS ->
  parse_lines (map meta_line entries ++ rest) (mkState m [] InMeta)
  = parse_lines rest (mkState (list_to_map entries ∪ m) [] InMeta).
Proof.
  intros Hvalid. revert m.
  induction Hvalid as [| [key value] entries Hentry _ IH]; intros m Hnodup Hfresh Hsize.
  - cbn [map app list_to_map foldr]. rewrite (left_id_L ∅ (∪)). reflexivity.
  - destruct (meta_line_valid _ Hentry) as (_ & Hsplit & Hstrip & _ & Hs & He).
    cbn [fst snd] in Hstrip.
    cbn [map app parse_lines]. rewrite He, Hs. cbn [p_block p_meta p_sections].
    rewrite Hsplit, Hstrip.
    cbn [length] in Hsize. rewrite Nat2Z.inj_succ in Hsize.
    destruct (Z.leb_spec MAX_META_FIELDS (Z.of_nat (size m))) as [Hfull | _]; [lia |].
    cbn [fmap list_fmap] in Hnodup, Hfresh. cbn [fst] in Hnodup, Hfresh.
    apply NoDup_cons in Hnodup. destruct Hnodup as [Hkey Hnodup].
    assert (Hm : m !! key = None) by (apply Hfresh; left).
    rewrite IH.
    + f_equal. f_equal. cbn [list_to_map foldr]. cbn [fst snd uncurry].
      rewrite <- insert_union_l. apply eq_sym, insert_union_r.
      apply not_elem_of_list_to_map_1. exact Hkey.
    + exact Hnodup.
    + intros k Hk. rewrite lookup_insert_ne; [apply Hfresh; right; exact Hk |].
      intros ->. contradiction.
    + rewrite map_size_insert_None by assumption. lia.
Qed.

Lemma valid_name_not_index (n : list Z) :
  valid_section_name n = true -> bool_decide (n ∈ INDEX_MARKERS) = false.
Proof.
  intros Hn. apply ConvertFacts.name_accepted_spec in Hn.
  destruct Hn as (_ & _ & _ & Hindex & Htrailing).
  apply bool_decide_eq_false. unfold INDEX_MARKERS.
  rewrite !elem_of_cons, elem_of_nil. tauto.
Qed.

Lemma header_line (n : list Z) :
  starts_with EOF_MARKER (SECTION_PREFIX ++ n) = false
  /\ starts_with SECTION_PREFIX (SECTION_PREFIX ++ n) = true
  /\ drop (length SECTION_PREFIX) (SECTION_PREFIX ++ n) = n.
Proof. split; [| split]; reflexivity. Qed.

Lemma parse_lines_sections (secs : list PFMSection) (rest : list (list Z)) (st : parser_state) :
  Forall (fun s => valid_section_name (name s) = true) secs ->
  Z.of_nat (length (close_block st)) + Z.of_nat (length secs) <= MAX_SECTIONS ->
  exists st',
    parse_lines (flat_map section_lines secs ++ rest) st = parse_lines rest st'
    /\ p_meta st' = p_meta st
    /\ close_block st' = rev secs ++ close_block st.
Proof.
  intros Hvalid. revert st. induction Hvalid as [| s secs Hname _ IH]; intros st Hcount.
  - exists st. repeat split.
  - cbn [length] in Hcount. rewrite Nat2Z.inj_succ in Hcount.
    pose (st1 := mkState (p_meta st) (close_block st)
                   (InBody (name s) (rev (map escape_line (split_lines (content s))) ++ []))).
    assert (Hclose : close_block st1 = s :: close_block st).
    { unfold close_block at 1. cbn [st1 p_block p_sections].
      rewrite app_nil_r, rev_involutive, unescape_escape_lines.
      destruct s; reflexivity. }
    destruct (IH st1) as (st' & Hparse & Hmeta & Hdone).
    { rewrite Hclose. cbn [length]. rewrite Nat2Z.inj_succ. lia. }
    exists st'. split; [| split].
    + cbn [flat_map]. unfold section_lines at 1. rewrite <- !app_assoc.
      cbn [app parse_lines].
      destruct (header_line (name s)) as (He & Hs & Hdrop). rewrite He, Hs, Hdrop.
      rewrite (valid_name_not_index _ Hname), Hname. cbn [negb].
      destruct (Z.leb_spec MAX_SECTIONS (Z.of_nat (length (close_block st)))) as [? | _];
        [lia |].
      rewrite parse_lines_body.
      * exact Hparse.
      * apply List.Forall_forall. intros l Hl. apply in_map_iff in Hl.
        destruct Hl as (l0 & <- & Hl0). apply escape_line_plain.
        pose proof (split_lines_no_newline (content s)) as Hall.
        rewrite List.Forall_forall in Hall. auto.
    + rewrite Hmeta. reflexivity.
    + rewrite Hdone, Hclose. cbn [rev]. rewrite <- app_assoc. reflexivity.
Qed.

(** *** The round trip *)

Lemma valid_meta_entries (m : gmap (list Z) (list Z)) :
  valid_meta m ->
  Forall valid_entry (map_to_list m)
  /\ Z.of_nat (length (map_to_list m)) <= MAX_META_FIELDS.
Proof.
  intros [Hsize Hall]. split.
  - apply map_Forall_to_list in Hall.
    eapply List.Forall_impl; [| exact Hall].
    intros [key value] H. exact H.
  - rewrite length_map_to_list. exact Hsize.
Qed.

Lemma name_char_not_newline (n : list Z) :
  valid_section_name n = true -> no_newline n.
Proof.
  intros Hn. apply ConvertFacts.name_accepted_spec in Hn.
  destruct Hn as ((_ & Hchars) & _). rewrite List.Forall_forall in Hchars.
  intros Hin. apply Hchars in Hin. unfold Convert.name_char, NEWLINE in Hin. lia.
Qed.

Lemma no_newline_app (l1 l2 : list Z) : no_newline l1 -> no_newline l2 -> no_newline (l1 ++ l2).
Proof.
  unfold no_newline. intros H1 H2 Hin. apply in_app_or in Hin. tauto.
Qed.

Lemma supported_version (d : PFMDocument) :
  In (formatVersion d) SUPPORTED_FORMAT_VERSIONS -> formatVersion d = lit "1.0".
Proof. cbn [In SUPPORTED_FORMAT_VERSIONS]. intros [E | []]. congruence. Qed.

Lemma parse_magic_line (d : PFMDocument) :
  In (formatVersion d) SUPPORTED_FORMAT_VERSIONS ->
  parse_magic (magic_line d) = Some (formatVersion d, isStream d)
  /\ no_newline (magic_line d).
Proof.
  intros Hv. apply supported_version in Hv. unfold magic_line. rewrite Hv.
  destruct (isStream d); (split; [reflexivity |]);
    unfold no_newline; intros Hin; vm_compute in Hin; intuition discriminate.
Qed.

Section RoundTrip.

Variable place : placement.
Variable index_entries : PFMDocument -> list (list Z).
Variable index_offset : PFMDocument -> list Z.
Variable MAX_FILE_SIZE : Z.

Variable d : PFMDocument.

(** What the round trip needs of the index: its entry lines are physical
    lines that are neither a header nor the EOF marker, and the offset on
    the EOF line holds no newline. *)
Hypothesis index_entries_plain : Forall plain_line (index_entries d).
Hypothesis index_offset_line : no_newline (index_offset d).

Lemma eof_line_marker :
  starts_with EOF_MARKER (eof_line index_offset d) = true
  /\ no_newline (eof_line index_offset d).
Proof.
  split; [apply starts_with_app |]. unfold eof_line.
  apply no_newline_app.
  - unfold no_newline. intros Hin. vm_compute in Hin. intuition discriminate.
  - destruct (isStream d); [| intros []].
    intros [E | Hin]; [discriminate E | exact (index_offset_line Hin)].
Qed.

Lemma index_marker_listed : index_marker place ∈ INDEX_MARKERS.
Proof. destruct place; apply list_elem_of_In; cbn; tauto. Qed.

(** The parser passes over an index block: the block before it is closed
    and nothing else changes. *)
Lemma parse_lines_index_block (rest : list (list Z)) (st : parser_state) :
  exists st',
    parse_lines (index_lines place index_entries d ++ rest) st = parse_lines rest st'
    /\ p_meta st' = p_meta st
    /\ close_block st' = close_block st.
Proof.
  unfold index_lines. destruct (isStream d).
  - exists {| p_meta := p_meta st; p_sections := close_block st; p_block := InIndex |}.
    cbn [app parse_lines].
    destruct (header_line (index_marker place)) as (He & Hs & Hdrop). rewrite He, Hs, Hdrop.
    rewrite bool_decide_true by apply index_marker_listed.
    rewrite parse_lines_index by apply index_entries_plain.
    repeat split.
  - exists st. repeat split.
Qed.

Lemma parse_lines_tail (st : parser_state) :
  parse_lines (tail_lines place index_entries index_offset d) st
  = Parsed (p_meta st, rev (close_block st)).
Proof.
  destruct eof_line_marker as [Heof _]. unfold tail_lines.
  assert (Hend : forall st', parse_lines [eof_line index_offset d] st'
                             = Parsed (p_meta st', rev (close_block st'))).
  { intros st'. cbn [parse_lines]. rewrite Heof. reflexivity. }
  destruct (parse_lines_index_block [eof_line index_offset d] st) as (st' & Hblock & Hm & Hc).
  destruct place; [apply Hend |].
  rewrite Hblock, <- Hm, <- Hc. apply Hend.
Qed.

Lemma parse_lines_serialize :
  valid_document d ->
  parse_lines (map meta_line (map_to_list (meta d))
               ++ match place with Leading => index_lines place index_entries d | Trailing => [] end
               ++ flat_map section_lines (sections d)
               ++ tail_lines place index_entries index_offset d)
              (mkState ∅ [] InMeta)
  = Parsed (meta d, sections d).
Proof.
  intros (_ & Hmeta & Hcount & Hnames).
  destruct (valid_meta_entries _ Hmeta) as [Hentries Hsize].
  rewrite parse_lines_meta.
  - rewrite (right_id_L ∅ (∪)), list_to_map_to_list.
    assert (Hlead : exists st0,
               parse_lines (match place with
                            | Leading => index_lines place index_entries d
                            | Trailing => []
                            end
                            ++ flat_map section_lines (sections d)
                            ++ tail_lines place index_entries index_offset d)
                           (mkState (meta d) [] InMeta)
               = parse_lines (flat_map section_lines (sections d)
                              ++ tail_lines place index_entries index_offset d) st0
               /\ p_meta st0 = meta d /\ close_block st0 = []).
    { pose proof (parse_lines_index_block
                    (flat_map section_lines (sections d)
                     ++ tail_lines place index_entries index_offset d)
                    (mkState (meta d) [] InMeta)) as Hblock.
      destruct place; [exact Hblock |].
      eexists. repeat split. }
    destruct Hlead as (st0 & -> & Hm0 & Hc0).
    destruct (parse_lines_sections (sections d)
                (tail_lines place index_entries index_offset d) st0 Hnames)
      as (st' & Hparse & Hm & Hdone).
    { rewrite Hc0. cbn [length]. lia. }
    rewrite Hparse, parse_lines_tail, Hm, Hdone, Hm0, Hc0.
    rewrite app_nil_r, rev_involutive. reflexivity.
  - exact Hentries.
  - apply NoDup_fst_map_to_list.
  - intros k _. apply lookup_empty.
  - rewrite map_size_empty. lia.
Qed.

Lemma index_lines_no_newline : Forall no_newline (index_lines place index_entries d).
Proof.
  unfold index_lines. destruct (isStream d); [| constructor].
  constructor.
  - unfold no_newline. intros Hin. destruct place; vm_compute in Hin; intuition discriminate.
  - eapply List.Forall_impl; [| exact index_entries_plain].
    intros l Hl. apply Hl.
Qed.

Lemma serialize_lines_no_newline :
  valid_document d -> Forall no_newline (serialize_lines place index_entries index_offset d).
Proof.
  intros (Hv & Hmeta & _ & Hnames). unfold serialize_lines, head_lines, tail_lines.
  apply Forall_app_2; [| apply Forall_app_2; [| apply Forall_app_2]].
  - constructor; [apply parse_magic_line, Hv |]. apply Forall_app_2.
    + destruct (valid_meta_entries _ Hmeta) as [Hentries _].
      apply List.Forall_forall. intros l Hl. apply in_map_iff in Hl.
      destruct Hl as (entry & <- & Hentry).
      rewrite List.Forall_forall in Hentries.
      apply (meta_line_valid entry (Hentries entry Hentry)).
    + pose proof index_lines_no_newline as Hindex.
      destruct place; [exact Hindex | constructor].
  - apply List.Forall_forall. intros l Hl. apply in_flat_map in Hl.
    destruct Hl as (s & Hs & Hl). rewrite List.Forall_forall in Hnames.
    destruct Hl as [<- | Hl].
    + apply no_newline_app; [| apply name_char_not_newline, Hnames, Hs].
      unfold no_newline. intros Hin. vm_compute in Hin. intuition discriminate.
    + apply in_map_iff in Hl. destruct Hl as (l0 & <- & Hl0).
      apply (escape_line_no_newline MARKER_PREFIXES).
      pose proof (split_lines_no_newline (content s)) as Hall.
      rewrite List.Forall_forall in Hall. auto.
  - pose proof index_lines_no_newline as Hindex.
    destruct place; [constructor | exact Hindex].
  - repeat constructor. apply eof_line_marker.
Qed.

(** C2.  Parsing the serialization of a valid document whose serialized
    size is within the ceiling returns that document: the same format
    version and stream flag, the same meta mapping, the same sections with
    the same names and contents in the same order. *)
Theorem parse_serialize :
  valid_document d ->
  Z.of_nat (length (serialize place index_entries index_offset d)) <= MAX_FILE_SIZE ->
  parse MAX_FILE_SIZE (serialize place index_entries index_offset d) = Parsed d.
Proof.
  intros Hvalid Hsize. unfold parse.
  destruct (Z.ltb_spec MAX_FILE_SIZE
              (Z.of_nat (length (serialize place index_entries index_offset d)))) as [? | _];
    [lia |].
  unfold serialize. rewrite split_join_lines;
    [| discriminate | apply serialize_lines_no_newline, Hvalid].
  unfold serialize_lines at 1, head_lines at 1. cbn [app].
  destruct (parse_magic_line d (proj1 Hvalid)) as [Hmagic _]. rewrite Hmagic.
  rewrite bool_decide_true by (apply list_elem_of_In, Hvalid). cbn [negb].
  rewrite <- app_assoc, parse_lines_serialize by assumption.
  destruct d; reflexivity.
Qed.

End RoundTrip.

(** The parser refuses an unknown version, a reserved section name, a
    text over the size ceiling and a text without EOF marker. *)
Example parse_failures :
  parse 1000 (join_lines [ lit "#!PFM/2.0"; lit "#@content"; lit "x"; lit "#!END" ])
  = Failed StructuralError
  /\ parse 1000 (join_lines [ lit "#!PFM/1.0"; lit "#@meta"; lit "x"; lit "#!END" ])
     = Failed StructuralError
  /\ parse 10 (join_lines [ lit "#!PFM/1.0"; lit "#@content"; lit "x"; lit "#!END" ])
     = Failed ResourceError
  /\ parse 1000 (join_lines [ lit "#!PFM/1.0"; lit "#@content"; lit "x" ])
     = Failed StructuralError
  /\ parse 1000 (join_lines [ lit "#!PFM/1.0"; lit "agent: cli"; lit "#@content"; lit "\#@x";
                              lit "#!END" ])
     = Parsed {| formatVersion := lit "1.0"; isStream := false;
                 meta := {[ lit "agent" := lit "cli" ]};
                 sections := [ {| name := lit "content"; content := lit "#@x" |} ] |}.
Proof. vm_compute. repeat split. Qed.

Ltac no_newline_by_computation :=
  let H := fresh in unfold no_newline; intros H; vm_compute in H; intuition discriminate.

Lemma parse_serialize_witness :
  parse 524288000 (serialize Trailing one_pass_index one_pass_index_offset journal_document)
  = Parsed journal_document.
Proof.
  apply (parse_serialize Trailing one_pass_index one_pass_index_offset 524288000 journal_document).
  - repeat constructor; try no_newline_by_computation.
  - no_newline_by_computation.
  - split; [left; reflexivity |]. split; split.
    + vm_compute. discriminate.
    + apply map_Forall_to_list. vm_compute. repeat constructor.
    + vm_compute. discriminate.
    + repeat constructor.
  - vm_compute. discriminate.
Defined.

(** On that document every entry of the one-pass index resolves to the
    escaped body of its section. *)
Example one_pass_index_resolves :
  serialize_lines Trailing one_pass_index one_pass_index_offset journal_document
  = [ lit "#!PFM/1.0:STREAM"; lit "agent: cli"; lit "id: a: b";
      lit "#@content"; lit "Line before"; lit "\#@fake-section"; lit "\#!PFM/1.0";
      lit "\#!END"; lit "\\\#@escaped"; lit "Line after"; lit "";
      lit "#@chain"; lit "";
      lit "#@index-trailing"; lit "content 47 70"; lit "chain 126 0";
      lit "#!END:127" ]
  /\ map (fun s => escape (content s)) (sections journal_document)
     = [ firstn 70 (skipn 47 (serialize Trailing one_pass_index one_pass_index_offset journal_document));
         firstn 0 (skipn 126 (serialize Trailing one_pass_index one_pass_index_offset journal_document)) ].
Proof. vm_compute. split; reflexivity. Qed.

(** *** The bytes of a file *)







Lemma join_lines_app (front back : list (list Z)) :
  front <> [] -> back <> [] ->
  join_lines (front ++ back) = join_lines front ++ NEWLINE :: join_lines back.
Proof.
  intros Hfront Hback. induction front as [| line front IH]; [contradiction |].
  destruct front as [| line' front].
  - cbn [app]. apply join_lines_cons, Hback.
  - change ((line :: line' :: front) ++ back) with (line :: (line' :: front) ++ back).
    rewrite (join_lines_cons line) by discriminate.
    rewrite (join_lines_cons line (line' :: front)) by discriminate.
    rewrite IH by discriminate. rewrite <- app_assoc. reflexivity.
Qed.








(** *** Decimal numbers *)








(** *** Entry lines *)

Lemma split_fields_cons (line : list Z) :
  exists field fields, split_fields line = field :: fields.
Proof.
  induction line as [| c line (field & fields & IH)]; cbn [split_fields].
  - eauto.
  - destruct (c =? SPACE); [eauto |]. rewrite IH. eauto.
Qed.









(** *** The index and its convergence loop *)










(** *** The index read back *)







(** An index after the content moves no section: the first candidate is
    the index, at the first attempt. *)
Lemma write_trailing_index (d : PFMDocument) :
  write_attempts Trailing d
  = (1%nat, Some (utf8 (serialize_with Trailing d (first_candidate Trailing d)))).
Proof.
  unfold write_attempts. cbn [MAX_INDEX_ATTEMPTS converge].
  destruct (decide (offset_widths (measure Trailing d (first_candidate Trailing d))
                    = offset_widths (first_candidate Trailing d))) as [_ | Hw].
  - reflexivity.
  - contradiction Hw. reflexivity.
Qed.

(** An index before the content: the offsets of [growing_document] gain a
    digit once and the second encoding is the index; those of
    [drifting_document] gain a digit at each of the three attempts and the
    writer fails. *)
Example write_leading_index :
  fst (write_attempts Leading journal_document) = 1%nat
  /\ option_map split_lines (write Leading journal_document)
     = Some [ lit "#!PFM/1.0:STREAM"; lit "agent: cli"; lit "id: a: b";
              lit "#@index"; lit "content 81 70"; lit "chain 160 0";
              lit "#@content"; lit "Line before"; lit "\#@fake-section"; lit "\#!PFM/1.0";
              lit "\#!END"; lit "\\\#@escaped"; lit "Line after"; lit "";
              lit "#@chain"; lit "";
              lit "#!END:37" ]
  /\ map byteOffset (first_candidate Leading growing_document) = [83; 192; 1201]%nat
  /\ map byteOffset (measure Leading growing_document (first_candidate Leading growing_document))
     = [126; 235; 1244]%nat
  /\ fst (write_attempts Leading growing_document) = 2%nat
  /\ write Leading growing_document
     = Some (utf8 (serialize_with Leading growing_document
                     (locate 117 (sections growing_document))))
  /\ write_attempts Leading drifting_document = (3%nat, None).
Proof. vm_compute. repeat split; reflexivity. Qed.

(** Offsets and lengths are counted in bytes: on [accented_document],
    whose file has 128 code units and 136 bytes, the index read back from
    the file addresses the bytes of each content, and the EOF line gives
    the byte offset of the index block, one more than its offset in code
    units. *)
Example write_counts_bytes :
  fst (write_attempts Leading accented_document) = 2%nat
  /\ option_map (@length Z) (write Leading accented_document) = Some 136%nat
  /\ (exists index,
        write Leading accented_document
        = Some (utf8 (serialize_with Leading accented_document index))
        /\ length (serialize_with Leading accented_document index) = 128%nat)
  /\ option_map read_index (write Leading accented_document)
     = Some (Some [ mkEntry (lit "content") 86 16; mkEntry (lit "chain") 111 4;
                    mkEntry (lit "notes") 124 3 ])
  /\ option_map (fun file => map (readSection file) (default [] (read_index file)))
                (write Leading accented_document)
     = Some [ [110; 97; 195; 175; 118; 101; 32; 226; 130; 172; 53; 32; 240; 159; 152; 128];
              [239; 191; 189; 120];
              [101; 110; 100] ]
  /\ option_map (fun file => List.last (split_lines file) []) (write Leading accented_document)
     = Some (lit "#!END:30").
Proof.
  split; [vm_compute; reflexivity |]. split; [vm_compute; reflexivity |].
  split; [| vm_compute; repeat split; reflexivity].
  exists (locate 76 (sections accented_document)). vm_compute. split; reflexivity.
Qed.

End EngineFacts.

(** ** ECMAScript string methods *)

Module JSStringFacts.

Import JSString Engine.

Lemma trimStart_split (s : list Z) :
  exists ws, s = ws ++ trimStart s /\ forallb isWhiteSpace ws = true.
Proof.
  induction s as [| c s (ws & Hs & Hws)]; [exists []; split; reflexivity |].
  cbn [trimStart]. destruct (isWhiteSpace c) eqn:Hc.
  - exists (c :: ws). split; [cbn; congruence |]. cbn. rewrite Hc. exact Hws.
  - exists []. split; reflexivity.
Qed.

Lemma trimStart_head (s : list Z) (c : Z) (rest : list Z) :
  trimStart s = c :: rest -> isWhiteSpace c = false.
Proof.
  induction s as [| d s IH]; [discriminate |].
  cbn [trimStart]. destruct (isWhiteSpace d) eqn:Hd; [exact IH |].
  intros E. injection E as <- _. exact Hd.
Qed.

Lemma trimStart_whitespace (ws s : list Z) :
  forallb isWhiteSpace ws = true -> trimStart (ws ++ s) = trimStart s.
Proof.
  induction ws as [| c ws IH]; [reflexivity |].
  cbn [forallb app trimStart]. intros H. apply andb_true_iff in H. destruct H as [-> H].
  apply IH, H.
Qed.

Lemma trimStart_cons (c : Z) (s : list Z) :
  isWhiteSpace c = false -> trimStart (c :: s) = c :: s.
Proof. intros H. cbn [trimStart]. rewrite H. reflexivity. Qed.

Lemma trimStart_app (s t : list Z) :
  trimStart s <> [] -> trimStart (s ++ t) = trimStart s ++ t.
Proof.
  induction s as [| c s IH]; [contradiction |].
  cbn [app trimStart]. destruct (isWhiteSpace c); [exact IH | reflexivity].
Qed.

Lemma trimStart_idempotent (s : list Z) : trimStart (trimStart s) = trimStart s.
Proof.
  destruct (trimStart s) as [| c rest] eqn:E; [reflexivity |].
  apply trimStart_cons, (trimStart_head _ _ _ E).
Qed.

Lemma trimStart_all_whitespace (ws : list Z) :
  forallb isWhiteSpace ws = true -> trimStart ws = [].
Proof.
  intros H. rewrite <- (app_nil_r ws). rewrite trimStart_whitespace by exact H. reflexivity.
Qed.

Lemma trimStart_bare (s : list Z) : bare s -> trimStart s = s.
Proof. destruct s as [| c s]; [reflexivity |]. intros [H _]. apply trimStart_cons, H. Qed.

Lemma bare_rev (s : list Z) : bare s -> bare (rev s).
Proof. intros [H1 H2]. split; [exact H2 | rewrite rev_involutive; exact H1]. Qed.

Lemma trim_bare (s : list Z) : bare s -> trim s = s.
Proof.
  intros Hs. unfold trim, trimEnd. rewrite (trimStart_bare s Hs).
  rewrite (trimStart_bare _ (bare_rev _ Hs)). apply rev_involutive.
Qed.

Lemma trim_split (s : list Z) :
  exists ws1 ws2,
    s = ws1 ++ trim s ++ ws2
    /\ forallb isWhiteSpace ws1 = true /\ forallb isWhiteSpace ws2 = true.
Proof.
  destruct (trimStart_split s) as (ws1 & Hs & Hws1).
  destruct (trimStart_split (rev (trimStart s))) as (ws2 & Ht & Hws2).
  exists ws1, (rev ws2). split; [| split; [exact Hws1 |]].
  - unfold trim, trimEnd. rewrite <- rev_app_distr, <- Ht, rev_involutive. exact Hs.
  - rewrite forallb_forall in *. intros c Hc. apply Hws2, in_rev, Hc.
Qed.

Lemma trim_is_bare (s : list Z) : bare (trim s).
Proof.
  unfold trim, trimEnd. split.
  - destruct (trimStart_split (rev (trimStart s))) as (ws & Ht & _).
    destruct (rev (trimStart (rev (trimStart s)))) as [| c u] eqn:Eu; [exact I |].
    apply (f_equal (@rev Z)) in Ht. rewrite rev_involutive, rev_app_distr, Eu in Ht.
    apply (trimStart_head s c (u ++ rev ws)). exact Ht.
  - rewrite rev_involutive.
    destruct (trimStart (rev (trimStart s))) as [| c u] eqn:Eu; [exact I |].
    apply (trimStart_head _ _ _ Eu).
Qed.

Lemma trim_idempotent (s : list Z) : trim (trim s) = trim s.
Proof. apply trim_bare, trim_is_bare. Qed.

Lemma trim_whitespace_around (ws1 s ws2 : list Z) :
  forallb isWhiteSpace ws1 = true -> forallb isWhiteSpace ws2 = true ->
  trim (ws1 ++ s ++ ws2) = trim s.
Proof.
  intros H1 H2. unfold trim, trimEnd. rewrite (trimStart_whitespace ws1) by exact H1.
  assert (Hrev : forallb isWhiteSpace (rev ws2) = true).
  { rewrite forallb_forall in *. intros c Hc. apply H2, in_rev, Hc. }
  destruct (trimStart s) as [| c u] eqn:Es.
  - destruct (trimStart_split s) as (ws & Hs & Hws). rewrite Es, app_nil_r in Hs. subst ws.
    rewrite (trimStart_whitespace s) by exact Hws.
    rewrite (trimStart_all_whitespace ws2) by exact H2. reflexivity.
  - rewrite trimStart_app by (rewrite Es; discriminate). rewrite Es.
    rewrite rev_app_distr, (trimStart_whitespace (rev ws2)) by exact Hrev. reflexivity.
Qed.

Lemma starts_with_single (c : Z) (s : list Z) :
  starts_with [c] s = match s with d :: _ => c =? d | [] => false end.
Proof. destruct s; [reflexivity |]. cbn. apply andb_true_r. Qed.

Lemma includes_single (c : Z) (s : list Z) : includes [c] s = true <-> In c s.
Proof.
  unfold includes. induction s as [| d s IH].
  - cbn. split; [discriminate | intros []].
  - cbn [indexOf]. rewrite starts_with_single.
    destruct (Z.eqb_spec c d) as [-> | Hne].
    + split; [left; reflexivity | reflexivity].
    + destruct (indexOf [c] s); cbn [option_map].
      * split; [right; apply IH; reflexivity | reflexivity].
      * split; [discriminate |]. intros [E | Hin]; [congruence |].
        apply IH in Hin. discriminate Hin.
Qed.

Lemma truthy_spec (s : list Z) : truthy s = true <-> s <> [].
Proof. destruct s; cbn; split; (discriminate || congruence || auto). Qed.

Lemma isWhiteSpace_spec (c : Z) :
  isWhiteSpace c = true <->
  9 <= c <= 13 \/ c = 32 \/ c = 160 \/ c = 5760 \/ 8192 <= c <= 8202 \/ c = 8232
  \/ c = 8233 \/ c = 8239 \/ c = 8287 \/ c = 12288 \/ c = 65279.
Proof.
  unfold isWhiteSpace.
  rewrite !orb_true_iff, !andb_true_iff, !Z.leb_le, !Z.eqb_eq. tauto.
Qed.

End JSStringFacts.

(** ** The converters of [convert.ts] *)

Module ConvertersFacts.

Import Convert JSString Converters JSStringFacts ConvertFacts Samples.
Import Engine(starts_with, split_lines, join_lines, no_newline, NEWLINE).
Import EngineFacts.

(** *** CSV fields *)

(** *** [escapeCSV] *)

Lemma escapeCSV_cases (value : list Z) :
  (exists first rest, trimStart value = first :: rest
                      /\ first ∈ lit "=+-@;" /\ escapeCSV value = APOSTROPHE :: value)
  \/ (match trimStart value with first :: _ => first ∉ FORMULA_TRIGGERS | [] => True end
      /\ escapeCSV value = value).
Proof.
  unfold escapeCSV. destruct (trimStart value) as [| first rest] eqn:E; [right; split; auto |].
  pose proof (trimStart_head _ _ _ E) as Hws.
  destruct (bool_decide_reflect (first ∈ FORMULA_TRIGGERS)) as [Hin | Hout].
  - left. exists first, rest. split; [reflexivity |]. split; [| reflexivity].
    apply list_elem_of_In in Hin. apply list_elem_of_In.
    cbn in Hin |- *. intuition (subst; try discriminate; auto).
  - right. split; [exact Hout | reflexivity].
Qed.

Lemma parseLine_unquoted (f rest current : list Z) (fields : list (list Z)) :
  ~ In QUOTE f -> ~ In COMMA f ->
  parseLine_from (f ++ rest) false current fields
  = parseLine_from rest false (current ++ f) fields.
Proof.
  revert current. induction f as [| c f IH]; intros current Hq Hc.
  - rewrite app_nil_r. reflexivity.
  - cbn [app parseLine_from].
    destruct (Z.eqb_spec c QUOTE) as [-> | _]; [exfalso; apply Hq; left; reflexivity |].
    destruct (Z.eqb_spec c COMMA) as [-> | _]; [exfalso; apply Hc; left; reflexivity |].
    rewrite IH; [rewrite <- app_assoc; reflexivity | |].
    + intros Hin. apply Hq. right. exact Hin.
    + intros Hin. apply Hc. right. exact Hin.
Qed.

Lemma parseLine_quoted (f rest current : list Z) (fields : list (list Z)) :
  match rest with next :: _ => next <> QUOTE | [] => True end ->
  parseLine_from (double_quotes f ++ QUOTE :: rest) true current fields
  = parseLine_from rest false (current ++ f) fields.
Proof.
  intros Hrest. revert current. induction f as [| c f IH]; intros current.
  - rewrite app_nil_r. cbn [double_quotes flat_map app parseLine_from]. rewrite Z.eqb_refl.
    destruct rest as [| next rest']; [reflexivity |].
    destruct (Z.eqb_spec next QUOTE) as [-> | _]; [contradiction | reflexivity].
  - unfold double_quotes in *. cbn [flat_map].
    destruct (Z.eqb_spec c QUOTE) as [-> | Hc].
    + cbn [app parseLine_from]. rewrite !Z.eqb_refl. rewrite IH, <- app_assoc. reflexivity.
    + cbn [app parseLine_from]. destruct (Z.eqb_spec c QUOTE) as [? | _]; [contradiction |].
      rewrite IH, <- app_assoc. reflexivity.
Qed.

Lemma parseLine_field (f rest : list Z) (fields : list (list Z)) :
  match rest with next :: _ => next <> QUOTE | [] => True end ->
  parseLine_from (quote_field f ++ rest) false [] fields
  = parseLine_from rest false f fields.
Proof.
  intros Hrest. unfold quote_field.
  destruct (includes [COMMA] f || includes [QUOTE] f || includes [10] f) eqn:Hq.
  - rewrite <- !app_assoc. cbn [app parseLine_from]. rewrite Z.eqb_refl.
    apply (parseLine_quoted f rest [] fields Hrest).
  - apply orb_false_iff in Hq. destruct Hq as [Hq _].
    apply orb_false_iff in Hq. destruct Hq as [Hcomma Hquote].
    apply parseLine_unquoted.
    + intros Hin. apply includes_single in Hin. congruence.
    + intros Hin. apply includes_single in Hin. congruence.
Qed.

Lemma parseLine_fields (fields done : list (list Z)) :
  fields <> [] ->
  parseLine_from (join_commas (map quote_field fields)) false [] done = done ++ fields.
Proof.
  revert done. induction fields as [| f fields IH]; intros done Hne; [contradiction |].
  destruct fields as [| g fields].
  - cbn [map join_commas]. rewrite <- (app_nil_r (quote_field f)).
    rewrite parseLine_field by exact I. reflexivity.
  - change (join_commas (map quote_field (f :: g :: fields)))
      with (quote_field f ++ COMMA :: join_commas (map quote_field (g :: fields))).
    rewrite parseLine_field by discriminate.
    cbn [parseLine_from]. change (COMMA =? QUOTE) with false. rewrite Z.eqb_refl.
    cbv iota. rewrite IH by discriminate. rewrite <- app_assoc. reflexivity.
Qed.

(** X4.  What [escapeCSV] returns never shows a formula trigger first: its
    first code unit after leading whitespace is none of [=], [+], [-],
    [@], tab, carriage return and [;].  Escaping twice is escaping
    once. *)
Theorem escapeCSV_safe (value : list Z) :
  match trimStart (escapeCSV value) with
  | first :: _ => first ∉ FORMULA_TRIGGERS
  | [] => True
  end
  /\ escapeCSV (escapeCSV value) = escapeCSV value.
Proof.
  assert (Hquote : forall v, trimStart (APOSTROPHE :: v) = APOSTROPHE :: v) by reflexivity.
  assert (Hout : APOSTROPHE ∉ FORMULA_TRIGGERS).
  { intros Hin. apply list_elem_of_In in Hin. vm_compute in Hin. intuition discriminate. }
  destruct (escapeCSV_cases value) as [(c & r & _ & _ & E) | [Hfirst E]]; rewrite E.
  - rewrite Hquote. split; [exact Hout |].
    unfold escapeCSV. rewrite Hquote, bool_decide_false by exact Hout. reflexivity.
  - split; [exact Hfirst | exact E].
Qed.

(** X5.  [escapeCSV] decides by the first code unit that is not
    whitespace: the value gets an apostrophe in front when that code unit
    is one of [=], [+], [-], [@] and [;], and is returned as it is
    otherwise.  The tab and the carriage return of the trigger list are
    whitespace, which [trimStart] has removed: a value is never escaped on
    their account. *)
Theorem escapeCSV_first_visible (value : list Z) :
  escapeCSV value
  = match trimStart value with
    | first :: _ =>
        if bool_decide (first ∈ lit "=+-@;") then APOSTROPHE :: value else value
    | [] => value
    end.
Proof.
  unfold escapeCSV. destruct (trimStart value) as [| first rest] eqn:E; [reflexivity |].
  pose proof (trimStart_head _ _ _ E) as Hws.
  destruct (bool_decide_reflect (first ∈ lit "=+-@;")) as [Hin | Hout].
  - rewrite bool_decide_true; [reflexivity |].
    apply list_elem_of_In in Hin. apply list_elem_of_In. cbn in Hin |- *. tauto.
  - rewrite bool_decide_false; [reflexivity |]. intros Hin. apply Hout.
    apply list_elem_of_In in Hin. apply list_elem_of_In. cbn in Hin |- *.
    destruct Hin as [? | [? | [? | [? | [E9 | [E13 | [? | []]]]]]]]; auto 10;
      subst first; discriminate Hws.
Qed.

(** X3.  [parseLine] reads a row that [csvRow] wrote back into its three
    fields, whatever they hold (commas, quotes, newlines): the type, the
    key and the escaped value. *)
Theorem parseLine_csvRow (type key value : list Z) :
  parseLine (csvRow type key value) = [type; key; escapeCSV value].
Proof.
  unfold parseLine, csvRow. rewrite parseLine_fields by discriminate. reflexivity.
Qed.

(** *** The JSON round trip *)

(** *** Dictionaries built by assignments *)

Lemma fold_insert (entries : list (list Z * list Z)) (acc : gmap (list Z) (list Z)) :
  NoDup entries.*1 ->
  fold_left (fun m kv => <[kv.1 := kv.2]> m) entries acc = list_to_map entries ∪ acc.
Proof.
  revert acc. induction entries as [| [k v] entries IH]; intros acc Hnodup.
  - cbn. rewrite (left_id_L ∅ (∪)). reflexivity.
  - cbn [fmap list_fmap fst] in Hnodup. apply NoDup_cons in Hnodup.
    destruct Hnodup as [Hk Hnodup].
    cbn [fold_left list_to_map foldr fst snd uncurry]. rewrite IH by exact Hnodup.
    rewrite <- insert_union_l. apply eq_sym, insert_union_r.
    apply not_elem_of_list_to_map_1. exact Hk.
Qed.

Lemma list_to_map_filter (P : list Z * list Z -> Prop) `{!forall x, Decision (P x)}
    (entries : list (list Z * list Z)) :
  NoDup entries.*1 ->
  list_to_map (filter P entries) =@{gmap (list Z) (list Z)} filter P (list_to_map entries).
Proof.
  intros Hnodup. apply map_eq. intros k. apply option_eq. intros v.
  assert (Hsub : NoDup (filter P entries).*1).
  { eapply sublist_NoDup; [exact Hnodup | apply fmap_sublist, sublist_filter]. }
  rewrite <- elem_of_list_to_map by exact Hsub.
  rewrite map_lookup_filter_Some, <- elem_of_list_to_map by exact Hnodup.
  rewrite list_elem_of_filter. tauto.
Qed.

Section JsonRoundTrip.

Variable H : Host.
Variable JSON_stringify_indent : json -> Z -> list Z.
Variable Object_entries : gmap (list Z) (list Z) -> list (list Z * list Z).

(** [Object.entries] lists every own property once. *)
Hypothesis Object_entries_spec :
  forall m, NoDup (Object_entries m).*1 /\ list_to_map (Object_entries m) = m.

Lemma sanitize_meta_strings (entries : list (list Z * list Z)) :
  NoDup entries.*1 ->
  sanitize_meta (map (fun '(k, v) => (k, JStr v)) entries)
  = filter (fun kv => kv.1 ∉ FORBIDDEN_KEYS) (list_to_map entries).
Proof.
  intros Hnodup. rewrite <- list_to_map_filter by exact Hnodup.
  rewrite <- (right_id_L ∅ (∪) (list_to_map _)).
  rewrite <- fold_insert
    by (eapply sublist_NoDup; [exact Hnodup | apply fmap_sublist, sublist_filter]).
  unfold sanitize_meta. generalize (∅ : gmap (list Z) (list Z)) as acc.
  clear Hnodup. induction entries as [| [k v] entries IH]; intros acc; [reflexivity |].
  rewrite filter_cons. cbn [map fold_left fst].
  destruct (decide (k ∉ FORBIDDEN_KEYS)) as [Hk | Hk].
  - rewrite bool_decide_false by exact Hk. cbn [fold_left fst snd]. apply IH.
  - rewrite bool_decide_true by (destruct (decide (k ∈ FORBIDDEN_KEYS)); tauto). apply IH.
Qed.

Lemma section_of_export (s : PFMSection) :
  section_of (export_section s) = if name_accepted (name s) then Some s else None.
Proof.
  unfold section_of, export_section. cbn [get lookup_prop].
  rewrite decide_True by reflexivity.
  replace (lookup_prop (lit "content")
             [(lit "name", JStr (name s)); (lit "content", JStr (content s))])
    with (Some (JStr (content s))) by reflexivity.
  destruct s; reflexivity.
Qed.

Lemma omap_section_of_export (secs : list PFMSection) :
  omap section_of (map export_section secs)
  = filter (fun s => name_accepted (name s) = true) secs.
Proof.
  induction secs as [| s secs IH]; [reflexivity |].
  cbn [map omap list_omap]. fold (omap section_of (map export_section secs)).
  rewrite section_of_export, filter_cons, IH.
  destruct (name_accepted (name s)).
  - rewrite decide_True by reflexivity. reflexivity.
  - rewrite decide_False by discriminate. reflexivity.
Qed.

(** What [fromJSON] makes of the object [toJSON] serializes. *)
Lemma fromJSON_data_export (d : PFMDocument) :
  fromJSON_data H (export_of Object_entries d)
  = if decide (formatVersion d = lit "1.0")
    then Return {| formatVersion := lit "1.0";
                   isStream := false;
                   meta := filter (fun kv => kv.1 ∉ FORBIDDEN_KEYS) (meta d);
                   sections := filter (fun s => name_accepted (name s) = true) (sections d) |}
    else Throw (unsupported_version (formatVersion d)).
Proof.
  rewrite fromJSON_data_structured by reflexivity.
  replace (version_read (export_of Object_entries d)) with (formatVersion d) by reflexivity.
  replace (items_read (export_of Object_entries d)) with (map export_section (sections d))
    by reflexivity.
  replace (meta_read (export_of Object_entries d))
    with (sanitize_meta (map (fun '(k, v) => (k, JStr v)) (Object_entries (meta d))))
    by reflexivity.
  destruct (Object_entries_spec (meta d)) as [Hnodup Hmap].
  rewrite sanitize_meta_strings, Hmap, omap_section_of_export by exact Hnodup.
  reflexivity.
Qed.

(** X1.  [fromJSON] on the text [toJSON] wrote, when [JSON.parse] reads
    that text back as the object serialized: a document of version
    ["1.0"] comes back with the stream flag off, without the meta entries
    under a forbidden key and without the sections whose name is not
    accepted; a document of another version makes [fromJSON] throw. *)
Theorem fromJSON_toJSON (d : PFMDocument) (indent : Z) :
  JSON_parse H (toJSON JSON_stringify_indent Object_entries d indent)
  = Some (export_of Object_entries d) ->
  fromJSON H (toJSON JSON_stringify_indent Object_entries d indent)
  = if decide (formatVersion d = lit "1.0")
    then Return {| formatVersion := lit "1.0";
                   isStream := false;
                   meta := filter (fun kv => kv.1 ∉ FORBIDDEN_KEYS) (meta d);
                   sections := filter (fun s => name_accepted (name s) = true) (sections d) |}
    else Throw (unsupported_version (formatVersion d)).
Proof.
  intros Hparse. unfold fromJSON. rewrite Hparse. apply fromJSON_data_export.
Qed.

(** X2.  The JSON round trip: a document of version ["1.0"] that is not a
    stream document, has no forbidden meta key and only accepted section
    names comes back from [fromJSON (toJSON doc)] as it was. *)
Theorem fromJSON_toJSON_identity (d : PFMDocument) (indent : Z) :
  JSON_parse H (toJSON JSON_stringify_indent Object_entries d indent)
  = Some (export_of Object_entries d) ->
  formatVersion d = lit "1.0" ->
  isStream d = false ->
  (forall k v, meta d !! k = Some v -> k ∉ FORBIDDEN_KEYS) ->
  Forall (fun s => name_accepted (name s) = true) (sections d) ->
  fromJSON H (toJSON JSON_stringify_indent Object_entries d indent) = Return d.
Proof.
  intros Hparse Hversion Hstream Hkeys Hnames. unfold fromJSON. rewrite Hparse.
  rewrite fromJSON_data_export, decide_True by exact Hversion.
  assert (Hmeta : filter (fun kv => kv.1 ∉ FORBIDDEN_KEYS) (meta d) = meta d).
  { apply map_filter_id. intros k v Hk. exact (Hkeys k v Hk). }
  assert (Hsections : filter (fun s => name_accepted (name s) = true) (sections d) = sections d).
  { induction Hnames as [| s secs Hs _ IH]; [reflexivity |].
    rewrite filter_cons, decide_True by exact Hs. f_equal. exact IH. }
  rewrite Hmeta, Hsections, <- Hversion, <- Hstream. destruct d; reflexivity.
Qed.

End JsonRoundTrip.

(** *** Rows of a CSV text *)

Lemma ends_bare_app (s t : list Z) :
  ends_bare t -> (t = [] -> ends_bare s) -> ends_bare (s ++ t).
Proof.
  unfold ends_bare. rewrite rev_app_distr. intros Ht Hs.
  destruct (rev t) as [| c u] eqn:E; [| exact Ht].
  apply (f_equal (@rev Z)) in E. rewrite rev_involutive in E. cbn in E. exact (Hs E).
Qed.

Lemma ends_bare_after_comma (front last : list Z) :
  ends_bare last -> ends_bare (front ++ COMMA :: last).
Proof.
  intros Hlast. change (front ++ COMMA :: last) with (front ++ [COMMA] ++ last).
  rewrite app_assoc. apply ends_bare_app; [exact Hlast |].
  intros _. unfold ends_bare. rewrite rev_app_distr. reflexivity.
Qed.

Lemma ends_bare_escapeCSV (value : list Z) : ends_bare value -> ends_bare (escapeCSV value).
Proof.
  intros Hv. destruct (escapeCSV_cases value) as [(c & r & _ & _ & ->) | [_ ->]]; [| exact Hv].
  apply (ends_bare_app [APOSTROPHE] value Hv). intros _. reflexivity.
Qed.

Lemma ends_bare_quote_field (f : list Z) : ends_bare f -> ends_bare (quote_field f).
Proof.
  intros Hf. unfold quote_field.
  destruct (includes [COMMA] f || includes [QUOTE] f || includes [10] f); [| exact Hf].
  rewrite app_assoc. apply ends_bare_app; [reflexivity | discriminate].
Qed.

Lemma no_newline_cons (c : Z) (s : list Z) : c <> NEWLINE -> no_newline s -> no_newline (c :: s).
Proof. intros Hc Hs [E | Hin]; [congruence | exact (Hs Hin)]. Qed.

Lemma no_newline_escapeCSV (value : list Z) : no_newline value -> no_newline (escapeCSV value).
Proof.
  intros Hv. destruct (escapeCSV_cases value) as [(c & r & _ & _ & ->) | [_ ->]]; [| exact Hv].
  apply no_newline_cons; [discriminate | exact Hv].
Qed.

Lemma no_newline_quote_field (f : list Z) : no_newline f -> no_newline (quote_field f).
Proof.
  intros Hf. unfold quote_field.
  destruct (includes [COMMA] f || includes [QUOTE] f || includes [10] f); [| exact Hf].
  apply no_newline_app; [intros [E | []]; discriminate E |].
  apply no_newline_app; [| intros [E | []]; discriminate E].
  intros Hin. apply in_flat_map in Hin. destruct Hin as (c & Hc & Hin).
  destruct (Z.eqb_spec c QUOTE) as [-> | _].
  - destruct Hin as [E | [E | []]]; discriminate E.
  - destruct Hin as [E | []]. subst c. exact (Hf Hc).
Qed.

Lemma csvRow_text (type key value : list Z) :
  csvRow type key value
  = quote_field type ++ COMMA :: quote_field key ++ COMMA :: quote_field (escapeCSV value).
Proof. reflexivity. Qed.

Lemma no_newline_csvRow (type key value : list Z) :
  no_newline type -> no_newline key -> no_newline value -> no_newline (csvRow type key value).
Proof.
  intros Ht Hk Hv. rewrite csvRow_text.
  apply no_newline_app; [apply no_newline_quote_field, Ht |].
  apply no_newline_cons; [discriminate |].
  apply no_newline_app; [apply no_newline_quote_field, Hk |].
  apply no_newline_cons; [discriminate |].
  apply no_newline_quote_field, no_newline_escapeCSV, Hv.
Qed.

(** A row whose type is [meta] or [section] reads back as its three
    fields, the line trimmed as [fromCSV] trims it. *)
Lemma csvRow_read (type key value : list Z) :
  type = lit "meta" \/ type = lit "section" ->
  ends_bare value ->
  trim (csvRow type key value) = csvRow type key value
  /\ truthy (csvRow type key value) = true
  /\ parseLine (csvRow type key value) = [type; key; escapeCSV value].
Proof.
  intros Htype Hv. split; [| split].
  - apply trim_bare. rewrite csvRow_text. split.
    + destruct Htype as [-> | ->]; reflexivity.
    + replace (quote_field type ++ COMMA :: quote_field key
               ++ COMMA :: quote_field (escapeCSV value))
        with ((quote_field type ++ COMMA :: quote_field key)
              ++ COMMA :: quote_field (escapeCSV value))
        by (rewrite <- app_assoc; reflexivity).
      apply ends_bare_after_comma, ends_bare_quote_field, ends_bare_escapeCSV, Hv.
  - destruct Htype as [-> | ->]; reflexivity.
  - unfold parseLine, csvRow. rewrite parseLine_fields by discriminate. reflexivity.
Qed.

Lemma csv_step_meta (st : gmap (list Z) (list Z) * list PFMSection) (kv : list Z * list Z) :
  csv_entry kv ->
  csv_step st (csvRow (lit "meta") kv.1 kv.2) = (<[kv.1 := escapeCSV kv.2]> (fst st), snd st).
Proof.
  intros (Hk & Hproto & _ & _ & _ & Hend). unfold csv_step.
  destruct (csvRow_read (lit "meta") kv.1 kv.2 (or_introl eq_refl) Hend) as (-> & -> & ->).
  cbn [negb]. rewrite bool_decide_true by reflexivity.
  rewrite (proj2 (truthy_spec _) Hk). cbn [andb]. unfold assign.
  rewrite decide_False by exact Hproto. reflexivity.
Qed.

Lemma csv_step_section (st : gmap (list Z) (list Z) * list PFMSection) (s : PFMSection) :
  csv_section s ->
  csv_step st (csvRow (lit "section") (name s) (content s))
  = (fst st, snd st ++ [escaped_section s]).
Proof.
  intros (Hn & _ & _ & Hend). unfold csv_step.
  destruct (csvRow_read (lit "section") (name s) (content s) (or_intror eq_refl) Hend)
    as (-> & -> & ->).
  cbn [negb]. rewrite bool_decide_false by discriminate.
  rewrite bool_decide_true by reflexivity.
  rewrite (proj2 (truthy_spec _) Hn). reflexivity.
Qed.

Lemma fold_meta_rows (entries : list (list Z * list Z))
    (st : gmap (list Z) (list Z) * list PFMSection) :
  Forall csv_entry entries ->
  fold_left csv_step (map (fun kv => csvRow (lit "meta") kv.1 kv.2) entries) st
  = (fold_left (fun m kv => <[kv.1 := kv.2]> m)
               (prod_map id escapeCSV <$> entries) (fst st),
     snd st).
Proof.
  intros Hall. revert st. induction Hall as [| kv entries Hkv _ IH]; intros st.
  - destruct st; reflexivity.
  - cbn [map fold_left fmap list_fmap]. rewrite (csv_step_meta st kv Hkv), IH. reflexivity.
Qed.

Lemma fold_section_rows (secs : list PFMSection)
    (st : gmap (list Z) (list Z) * list PFMSection) :
  Forall csv_section secs ->
  fold_left csv_step (map (fun s => csvRow (lit "section") (name s) (content s)) secs) st
  = (fst st, snd st ++ map escaped_section secs).
Proof.
  intros Hall. revert st. induction Hall as [| s secs Hs _ IH]; intros st.
  - cbn. rewrite app_nil_r. destruct st; reflexivity.
  - cbn [map fold_left]. rewrite (csv_step_section st s Hs), IH. cbn [fst snd].
    rewrite <- app_assoc. reflexivity.
Qed.

Lemma meta_rows (entries : list (list Z * list Z)) :
  Forall csv_entry entries ->
  flat_map (fun '(key, val) => if truthy val then [csvRow (lit "meta") key val] else [])
           entries
  = map (fun kv => csvRow (lit "meta") kv.1 kv.2) entries.
Proof.
  induction 1 as [| [k v] entries (_ & _ & _ & Hv & _) _ IH]; [reflexivity |].
  cbn [flat_map map fst snd]. cbn [snd] in Hv. rewrite (proj2 (truthy_spec _) Hv), IH.
  reflexivity.
Qed.

Lemma split_lines_newline (text rest : list Z) :
  split_lines (text ++ NEWLINE :: rest) = split_lines text ++ split_lines rest.
Proof.
  induction text as [| c text IH].
  - cbn [app split_lines]. rewrite Z.eqb_refl. reflexivity.
  - cbn [app split_lines]. destruct (c =? NEWLINE); [rewrite IH; reflexivity |].
    rewrite IH. destruct (split_lines_cons text) as (line & lines & ->). reflexivity.
Qed.

(** The lines of a text put together from parts: those of the parts. *)
Lemma split_lines_join (parts : list (list Z)) :
  parts <> [] -> split_lines (join_lines parts) = flat_map split_lines parts.
Proof.
  induction parts as [| part parts IH]; [contradiction |]. intros _.
  destruct parts as [| part' parts].
  - cbn [join_lines flat_map]. rewrite app_nil_r. reflexivity.
  - rewrite join_lines_cons by discriminate. rewrite split_lines_newline, IH by discriminate.
    reflexivity.
Qed.

Section CsvRoundTrip.

Variable H : Host.
Variable Object_entries : gmap (list Z) (list Z) -> list (list Z * list Z).
Variable toLowerCase : list Z -> list Z.

Hypothesis Object_entries_spec :
  forall m, NoDup (Object_entries m).*1 /\ list_to_map (Object_entries m) = m.
Hypothesis toLowerCase_type : toLowerCase (lit "type") = lit "type".
Hypothesis toLowerCase_key : toLowerCase (lit "key") = lit "key".

(** X6.  The CSV round trip.  For a document with at least one section
    whose fields hold no newline, whose keys and names are not empty, whose
    meta values are not empty and whose values and contents do not end with
    whitespace, [fromCSV (toCSV doc)] has version ["1.0"], the stream flag
    off, the sections of [doc] in order with their contents escaped by
    [escapeCSV], and the meta of [doc] with its values escaped, over the
    importer's [agent] and [created]. *)
Theorem fromCSV_toCSV (d : PFMDocument) :
  map_Forall (fun k v => csv_entry (k, v)) (meta d) ->
  Forall csv_section (sections d) ->
  sections d <> [] ->
  fromCSV H toLowerCase (toCSV Object_entries d)
  = {| formatVersion := lit "1.0";
       isStream := false;
       meta := (escapeCSV <$> meta d) ∪ import_meta H (lit "csv-import");
       sections := map escaped_section (sections d) |}.
Proof.
  intros Hmeta Hsections Hne.
  destruct (Object_entries_spec (meta d)) as [Hnodup Hmap].
  assert (Hentries : Forall csv_entry (Object_entries (meta d))).
  { apply List.Forall_forall. intros [k v] Hin. apply (Hmeta k v).
    rewrite <- Hmap. apply elem_of_list_to_map; [exact Hnodup |].
    apply list_elem_of_In, Hin. }
  unfold toCSV. rewrite (meta_rows _ Hentries).
  set (rows := [lit "type,key,value"]
               ++ map (fun kv => csvRow (lit "meta") kv.1 kv.2) (Object_entries (meta d))
               ++ map (fun s => csvRow (lit "section") (name s) (content s)) (sections d)).
  assert (Hrows : Forall no_newline rows).
  { subst rows. apply Forall_app_2; [| apply Forall_app_2].
    - repeat constructor. intros Hin. vm_compute in Hin. intuition discriminate.
    - apply List.Forall_forall. intros row Hrow. apply in_map_iff in Hrow.
      destruct Hrow as (kv & <- & Hkv). rewrite List.Forall_forall in Hentries.
      destruct (Hentries kv Hkv) as (_ & _ & Hk & _ & Hv & _).
      apply no_newline_csvRow; [| exact Hk | exact Hv].
      intros Hin. vm_compute in Hin. intuition discriminate.
    - apply List.Forall_forall. intros row Hrow. apply in_map_iff in Hrow.
      destruct Hrow as (s & <- & Hs). rewrite List.Forall_forall in Hsections.
      destruct (Hsections s Hs) as (_ & Hn & Hc & _).
      apply no_newline_csvRow; [| exact Hn | exact Hc].
      intros Hin. vm_compute in Hin. intuition discriminate. }
  assert (Hlines : split_lines (join_lines rows ++ [10]) = rows ++ [[]]).
  { change (join_lines rows ++ [10]) with (join_lines rows ++ NEWLINE :: join_lines [[]]).
    rewrite <- join_lines_app by (subst rows; discriminate).
    apply split_join_lines; [subst rows; discriminate |].
    apply Forall_app_2; [exact Hrows |]. repeat constructor. intros []. }
  unfold fromCSV. rewrite Hlines.
  replace (length (rows ++ [[]]) <? 2)%nat with false
    by (symmetry; apply Nat.ltb_ge; subst rows; rewrite !length_app; cbn [length]; lia).
  replace (nth 0 (rows ++ [[]]) []) with (lit "type,key,value") by reflexivity.
  replace (isPFMCSV toLowerCase (parseLine (lit "type,key,value"))) with true.
  2: { unfold isPFMCSV.
       replace (parseLine (lit "type,key,value")) with [lit "type"; lit "key"; lit "value"]
         by reflexivity.
       cbn [nth length].
       replace (trim (lit "type")) with (lit "type") by reflexivity.
       replace (trim (lit "key")) with (lit "key") by reflexivity.
       rewrite toLowerCase_type, toLowerCase_key, !bool_decide_true by reflexivity.
       reflexivity. }
  cbn [negb]. subst rows. cbn [app drop]. rewrite drop_0, <- app_assoc.
  rewrite !fold_left_app, (fold_meta_rows _ _ Hentries), (fold_section_rows _ _ Hsections).
  cbn [fst snd fold_left app]. unfold csv_step at 1.
  replace (truthy (trim [])) with false by reflexivity. cbn [negb].
  f_equal.
  - rewrite fold_insert.
    + rewrite list_to_map_fmap, Hmap. reflexivity.
    + rewrite <- list_fmap_compose.
      replace (fst ∘ prod_map id escapeCSV) with (@fst (list Z) (list Z)); [exact Hnodup |].
      reflexivity.
  - unfold or_fallback. destruct (sections d); [contradiction | reflexivity].
Qed.

End CsvRoundTrip.

(** *** The Markdown round trip *)

Lemma KEY_class_spec (c : Z) :
  KEY_class c = true <->
  97 <= c <= 122 \/ 65 <= c <= 90 \/ 48 <= c <= 57 \/ c = 95 \/ c = 45.
Proof.
  unfold KEY_class, in_range.
  rewrite !orb_true_iff, !andb_true_iff, !Z.leb_le, !Z.eqb_eq.
  change (code "a") with 97. change (code "z") with 122. change (code "A") with 65.
  change (code "Z") with 90. change (code "0") with 48. change (code "9") with 57.
  change (code "_") with 95. change (code "-") with 45. tauto.
Qed.

Lemma VALID_NAME_class_KEY (c : Z) : VALID_NAME_class c = true -> KEY_class c = true.
Proof.
  unfold VALID_NAME_class, KEY_class. rewrite !orb_true_iff. tauto.
Qed.

Lemma KEY_class_plain (c : Z) :
  KEY_class c = true -> isWhiteSpace c = false /\ c <> NEWLINE /\ c <> 58.
Proof.
  intros Hc. apply KEY_class_spec in Hc. split; [| unfold NEWLINE; lia].
  destruct (isWhiteSpace c) eqn:E; [| reflexivity].
  apply isWhiteSpace_spec in E. lia.
Qed.

(** A key or a name: not empty, made of the characters of the class. *)
Lemma class_string_bare (s : list Z) :
  forallb KEY_class s = true -> bare s /\ no_newline s /\ ~ In 58 s.
Proof.
  intros Hs. rewrite forallb_forall in Hs.
  assert (Hall : forall c, In c s -> isWhiteSpace c = false /\ c <> NEWLINE /\ c <> 58)
    by (intros c Hc; apply KEY_class_plain, Hs, Hc).
  split; [split |].
  - destruct s as [| c s]; [exact I |]. apply Hall. left. reflexivity.
  - destruct (rev s) as [| c u] eqn:E; [exact I |]. apply Hall, in_rev. rewrite E. left.
    reflexivity.
  - split; intros Hin; destruct (Hall _ Hin) as (_ & ? & ?); congruence.
Qed.

Lemma replace_outside_id (keep : Z -> bool) (s : list Z) :
  forallb keep s = true -> replace_outside keep s = s.
Proof.
  unfold replace_outside. induction s as [| c s IH]; [reflexivity |].
  cbn [forallb map]. intros H.
  apply andb_true_iff in H. destruct H as [-> H]. rewrite (IH H). reflexivity.
Qed.

Lemma hyphenate_id (s : list Z) :
  (forall c, In c s -> isWhiteSpace c = false) -> hyphenate s = s.
Proof.
  unfold hyphenate. induction s as [| c s IH]; [reflexivity |]. intros H.
  cbn [hyphenate_from]. rewrite (H c) by (left; reflexivity).
  rewrite IH by (intros d Hd; apply H; right; exact Hd). reflexivity.
Qed.

Lemma indexOf_first (k rest : list Z) :
  ~ In 58 k -> indexOf (lit ": ") (k ++ lit ": " ++ rest) = Some (length k).
Proof.
  induction k as [| c k IH]; intros Hk; [reflexivity |].
  cbn [app indexOf length].
  replace (starts_with (lit ": ") (c :: k ++ lit ": " ++ rest)) with false.
  - rewrite IH by (intros Hin; apply Hk; right; exact Hin). reflexivity.
  - change (lit ": ") with [58; 32]. cbn [starts_with].
    destruct (Z.eqb_spec 58 c) as [<- | _]; [| reflexivity].
    exfalso. apply Hk. left. reflexivity.
Qed.

Lemma flat_map_eq {A B : Type} (P : A -> Prop) (f g : A -> list B) (l : list A) :
  Forall P l -> (forall x, P x -> f x = g x) -> flat_map f l = flat_map g l.
Proof.
  intros Hall Hfg. induction Hall as [| x l Hx _ IH]; [reflexivity |].
  cbn [flat_map]. rewrite IH, (Hfg x Hx). reflexivity.
Qed.

Lemma flat_map_flat_map {A B C : Type} (f : A -> list B) (g : B -> list C) (l : list A) :
  flat_map g (flat_map f l) = flat_map (fun x => flat_map g (f x)) l.
Proof.
  induction l as [| x l IH]; [reflexivity |].
  cbn [flat_map]. rewrite flat_map_app, IH. reflexivity.
Qed.

Section MdRoundTrip.

Variable H : Host.
Variable Object_entries : gmap (list Z) (list Z) -> list (list Z * list Z).
Variable toLowerCase : list Z -> list Z.

Hypothesis Object_entries_spec :
  forall m, NoDup (Object_entries m).*1 /\ list_to_map (Object_entries m) = m.

Lemma frontmatter_entry_plain (kv : list Z * list Z) :
  md_entry kv -> frontmatter_entry kv.1 kv.2 = entry_line kv.
Proof.
  intros (_ & Hk & _ & _ & _ & Hv & Hrules). unfold frontmatter_entry, entry_line.
  rewrite replace_outside_id by exact Hk.
  replace (map (fun c => if c =? 10 then 32 else c) kv.2) with kv.2; [rewrite Hrules; reflexivity |].
  clear Hrules. induction kv.2 as [| c v IH]; [reflexivity |].
  cbn [map]. destruct (Z.eqb_spec c 10) as [-> | _]; [exfalso; apply Hv; left; reflexivity |].
  f_equal. apply IH. intros Hin. apply Hv. right. exact Hin.
Qed.

Lemma bare_app (s t : list Z) :
  match s with c :: _ => isWhiteSpace c = false | [] => False end ->
  match rev t with c :: _ => isWhiteSpace c = false | [] => False end ->
  bare (s ++ t).
Proof.
  intros Hs Ht. split.
  - destruct s; [contradiction | exact Hs].
  - rewrite rev_app_distr. destruct (rev t); [contradiction | exact Ht].
Qed.

Lemma bare_head (s : list Z) :
  s <> [] -> bare s -> match s with c :: _ => isWhiteSpace c = false | [] => False end.
Proof. intros Hs [H1 _]. destruct s; [contradiction | exact H1]. Qed.

Lemma bare_last (s : list Z) :
  s <> [] -> bare s -> match rev s with c :: _ => isWhiteSpace c = false | [] => False end.
Proof.
  intros Hs [_ H2]. destruct (rev s) as [| c u] eqn:E; [| exact H2].
  apply (f_equal (@rev Z)) in E. rewrite rev_involutive in E. contradiction.
Qed.

Lemma entry_line_read (m : gmap (list Z) (list Z)) (kv : list Z * list Z) :
  md_entry kv ->
  trim (entry_line kv) <> lit "---"
  /\ frontmatter_line m (entry_line kv) = <[kv.1 := kv.2]> m
  /\ no_newline (entry_line kv).
Proof.
  intros (Hk & Hclass & Hproto & Hv & Hbare & Hline & _).
  destruct (class_string_bare _ Hclass) as (Hkbare & Hkline & Hcolon).
  assert (Htrim : trim (entry_line kv) = entry_line kv).
  { apply trim_bare. unfold entry_line. rewrite app_assoc. apply bare_app.
    - destruct kv.1; [contradiction | apply Hkbare].
    - apply bare_last; assumption. }
  split; [| split].
  - rewrite Htrim. intros E. apply (f_equal (@length Z)) in E.
    unfold entry_line in E. rewrite !length_app in E.
    destruct kv.1; [contradiction |]. destruct kv.2; [contradiction |]. cbn in E. lia.
  - unfold frontmatter_line. rewrite Htrim. unfold entry_line.
    rewrite (indexOf_first _ _ Hcolon).
    destruct (length kv.1) as [| n] eqn:Hlen; [destruct kv.1; [contradiction | discriminate] |].
    rewrite <- Hlen.
    rewrite take_app_length.
    replace (drop (length kv.1 + 2) (kv.1 ++ lit ": " ++ kv.2)) with kv.2.
    2: { rewrite app_assoc. replace (length kv.1 + 2)%nat with (length (kv.1 ++ lit ": "))
           by (rewrite length_app; reflexivity).
         rewrite drop_app_length. reflexivity. }
    rewrite (trim_bare _ Hkbare), (trim_bare _ Hbare), (replace_outside_id _ _ Hclass).
    rewrite (proj2 (truthy_spec _) Hk), (proj2 (truthy_spec _) Hv). cbn [andb].
    unfold assign. rewrite decide_False by exact Hproto. reflexivity.
  - unfold entry_line. apply no_newline_app; [exact Hkline |].
    apply no_newline_app; [intros Hin; vm_compute in Hin; intuition discriminate | exact Hline].
Qed.

Lemma frontmatter_entries (entries : list (list Z * list Z)) (rest : list (list Z))
    (m : gmap (list Z) (list Z)) :
  Forall md_entry entries ->
  frontmatter (map entry_line entries ++ lit "---" :: rest) m
  = (fold_left (fun m kv => <[kv.1 := kv.2]> m) entries m, rest).
Proof.
  intros Hall. revert m. induction Hall as [| kv entries Hkv _ IH]; intros m.
  - cbn [map app frontmatter fold_left].
    rewrite decide_True by reflexivity. reflexivity.
  - destruct (entry_line_read m kv Hkv) as (Hrule & Hread & _).
    cbn [map app frontmatter fold_left]. rewrite decide_False by exact Hrule.
    rewrite Hread. apply IH.
Qed.

Lemma heading_read (s : PFMSection) :
  md_section toLowerCase s ->
  starts_with (lit "## ") (lit "## " ++ name s) = true
  /\ heading_name toLowerCase (lit "## " ++ name s) = name s
  /\ replace_outside VALID_NAME_class (name s) = name s
  /\ bare (lit "## " ++ name s)
  /\ no_newline (lit "## " ++ name s).
Proof.
  intros (Hn & Hclass & Hlower & _ & _).
  assert (Hkey : forallb KEY_class (name s) = true).
  { rewrite forallb_forall in *. intros c Hc. apply VALID_NAME_class_KEY, Hclass, Hc. }
  destruct (class_string_bare _ Hkey) as (Hbare & Hline & _).
  split; [apply starts_with_app |]. split; [| split; [| split]].
  - unfold heading_name. replace (drop 3 (lit "## " ++ name s)) with (name s) by reflexivity.
    rewrite (trim_bare _ Hbare), Hlower, hyphenate_id.
    + rewrite (filter_all _ _ Hclass), (proj2 (truthy_spec _) Hn). reflexivity.
    + intros c Hc. rewrite forallb_forall in Hkey. apply KEY_class_plain, Hkey, Hc.
  - apply replace_outside_id, Hclass.
  - apply bare_app; [reflexivity | apply bare_last; assumption].
  - apply no_newline_app; [intros Hin; vm_compute in Hin; intuition discriminate | exact Hline].
Qed.

Lemma md_step_body (lines : list (list Z)) (done : list PFMSection) (current : list Z)
    (body before : list (list Z)) :
  Forall (fun l => starts_with (lit "## ") l = false) lines ->
  fold_left (md_step toLowerCase) lines (mkMd done (Some current) body before)
  = mkMd done (Some current) (body ++ lines) before.
Proof.
  intros Hlines. revert body. induction Hlines as [| line lines Hline _ IH]; intros body.
  - rewrite app_nil_r. reflexivity.
  - cbn [fold_left]. unfold md_step at 2. rewrite Hline.
    cbn [currentSection md_sections sectionLines contentBefore].
    rewrite IH, <- app_assoc. reflexivity.
Qed.

Lemma md_step_heading (st : md_state) (s : PFMSection) :
  md_section toLowerCase s ->
  md_step toLowerCase st (lit "## " ++ name s)
  = mkMd (flush st) (Some (name s)) [] (contentBefore st).
Proof.
  intros Hs. destruct (heading_read s Hs) as (Hstart & Hname & _).
  unfold md_step. rewrite Hstart, Hname. reflexivity.
Qed.

Lemma md_section_read (s : PFMSection) (st : md_state) :
  md_section toLowerCase s ->
  fold_left (md_step toLowerCase) (section_part s) st
  = mkMd (flush st) (Some (name s)) ([[]] ++ split_lines (content s) ++ [[]])
         (contentBefore st).
Proof.
  intros Hs. unfold section_part.
  change ([lit "## " ++ name s; []] ++ split_lines (content s) ++ [[]])
    with ((lit "## " ++ name s) :: ([[]] ++ split_lines (content s) ++ [[]])).
  cbn [fold_left]. rewrite (md_step_heading st s Hs).
  destruct Hs as (_ & _ & _ & _ & Hlines).
  rewrite md_step_body; [reflexivity |].
  apply Forall_app_2; [repeat constructor |].
  apply Forall_app_2; [exact Hlines | repeat constructor].
Qed.

Lemma md_sections_read (secs : list PFMSection) (st : md_state) :
  Forall (md_section toLowerCase) secs ->
  flush (fold_left (md_step toLowerCase) (flat_map section_part secs) st) = flush st ++ secs.
Proof.
  intros Hall. revert st. induction Hall as [| s secs Hs _ IH]; intros st.
  - cbn. rewrite app_nil_r. reflexivity.
  - cbn [flat_map]. rewrite fold_left_app, IH, (md_section_read s st Hs).
    destruct Hs as (Hn & _ & _ & Hbare & _).
    unfold flush at 1. cbn [currentSection md_sections sectionLines].
    destruct (name s) as [| c n] eqn:En; [contradiction |]. rewrite <- En.
    rewrite <- app_assoc. f_equal. f_equal.
    replace (join_lines ([[]] ++ split_lines (content s) ++ [[]]))
      with ([NEWLINE] ++ content s ++ [NEWLINE]).
    + rewrite trim_whitespace_around by reflexivity. rewrite (trim_bare _ Hbare).
      destruct s; cbn in *; congruence.
    + destruct (split_lines_cons (content s)) as (l & ls & E).
      rewrite join_lines_app by (rewrite ?E; discriminate).
      rewrite join_lines_app by (rewrite ?E; discriminate).
      rewrite join_split_lines. reflexivity.
Qed.

(** The lines of the text [toMarkdown] writes. *)
Lemma toMarkdown_lines (d : PFMDocument) :
  map_Forall (fun k v => md_entry (k, v)) (meta d) ->
  Forall (md_section toLowerCase) (sections d) ->
  sections d <> [] ->
  split_lines (toMarkdown Object_entries d)
  = (if (0 <? length (Object_entries (meta d)))%nat
     then [lit "---"] ++ map entry_line (Object_entries (meta d)) ++ [lit "---"; []]
     else [])
    ++ flat_map section_part (sections d).
Proof.
  intros Hmeta Hsections Hne.
  destruct (Object_entries_spec (meta d)) as [Hnodup Hmap].
  assert (Hentries : Forall md_entry (Object_entries (meta d))).
  { apply List.Forall_forall. intros [k v] Hin. apply (Hmeta k v).
    rewrite <- Hmap. apply elem_of_list_to_map; [exact Hnodup |].
    apply list_elem_of_In, Hin. }
  unfold toMarkdown. rewrite split_lines_join.
  2: { destruct (sections d); [contradiction |]. intros E. apply app_eq_nil in E.
       destruct E as [_ E]. discriminate E. }
  rewrite flat_map_app. f_equal.
  - destruct (0 <? length (Object_entries (meta d)))%nat; [| reflexivity].
    rewrite !flat_map_app. cbn [flat_map app]. f_equal.
    rewrite app_nil_r. f_equal.
    rewrite flat_map_flat_map. clear Hnodup Hmap.
    induction Hentries as [| [k v] entries Hkv _ IH]; [reflexivity |].
    cbn [flat_map map]. rewrite IH.
    pose proof Hkv as (_ & _ & _ & Hv & _). cbn [snd] in Hv.
    rewrite (proj2 (truthy_spec _) Hv). cbn [flat_map app].
    pose proof (frontmatter_entry_plain (k, v) Hkv) as Hplain. cbn [fst snd] in Hplain.
    rewrite Hplain.
    rewrite split_lines_single by apply (entry_line_read ∅ (k, v) Hkv). reflexivity.
  - rewrite flat_map_flat_map. apply (flat_map_eq (md_section toLowerCase)); [exact Hsections |].
    intros s Hs. destruct (heading_read s Hs) as (_ & _ & -> & _ & Hline).
    cbn [flat_map]. rewrite (split_lines_single _ Hline). unfold section_part.
    rewrite app_nil_r. reflexivity.
Qed.

(** X7.  The Markdown round trip.  For a document with at least one
    section, whose names are of the class [[a-z0-9_-]] and unchanged by
    lower-casing, whose contents have no whitespace around them and no line
    that starts with [## ], and whose meta entries have a key of the class
    [[a-zA-Z0-9_-]] and a one-line value without whitespace around it and
    without [---], [fromMarkdown (toMarkdown doc)] has version ["1.0"],
    the stream flag off, the sections of [doc] and the meta of [doc] over
    the importer's [agent] and [created]. *)
Theorem fromMarkdown_toMarkdown (d : PFMDocument) :
  map_Forall (fun k v => md_entry (k, v)) (meta d) ->
  Forall (md_section toLowerCase) (sections d) ->
  sections d <> [] ->
  fromMarkdown H toLowerCase (toMarkdown Object_entries d)
  = {| formatVersion := lit "1.0";
       isStream := false;
       meta := meta d ∪ import_meta H (lit "markdown-import");
       sections := sections d |}.
Proof.
  intros Hmeta Hsections Hne.
  destruct (Object_entries_spec (meta d)) as [Hnodup Hmap].
  assert (Hentries : Forall md_entry (Object_entries (meta d))).
  { apply List.Forall_forall. intros [k v] Hin. apply (Hmeta k v).
    rewrite <- Hmap. apply elem_of_list_to_map; [exact Hnodup |].
    apply list_elem_of_In, Hin. }
  unfold fromMarkdown. rewrite (toMarkdown_lines d Hmeta Hsections Hne).
  destruct (Object_entries (meta d)) as [| entry entries] eqn:Eentries.
  - cbn [length Nat.ltb Nat.leb app].
    destruct (sections d) as [| s secs] eqn:Esecs; [contradiction |].
    pose proof (Forall_inv Hsections) as Hs.
    destruct (heading_read s Hs) as (_ & _ & _ & Hbare & _).
    cbn [flat_map]. unfold section_part at 1. cbn [app].
    rewrite (trim_bare _ Hbare), decide_False by discriminate.
    change ((lit "## " ++ name s) :: [] :: (split_lines (content s) ++ [[]])
            ++ flat_map section_part secs)
      with (flat_map section_part (s :: secs)).
    rewrite (md_sections_read _ _ Hsections). cbn [flush currentSection app].
    cbn in Hmap. rewrite <- Hmap, (left_id_L ∅ (∪)). reflexivity.
  - replace (0 <? length (entry :: entries))%nat with true by reflexivity.
    cbn [app]. replace (trim (lit "---")) with (lit "---") by reflexivity.
    rewrite decide_True by reflexivity. rewrite <- app_assoc.
    change ([lit "---"; []] ++ flat_map section_part (sections d))
      with (lit "---" :: [] :: flat_map section_part (sections d)).
    change (entry_line entry :: map entry_line entries) with (map entry_line (entry :: entries)).
    rewrite (frontmatter_entries _ _ _ Hentries), fold_insert by exact Hnodup.
    rewrite Hmap.
    change (fold_left (md_step toLowerCase) ([] :: flat_map section_part (sections d))
              (mkMd [] None [] []))
      with (fold_left (md_step toLowerCase) (flat_map section_part (sections d))
              (mkMd [] None [] [[]])).
    rewrite (md_sections_read _ _ Hsections). cbn [flush currentSection app].
    unfold or_fallback. destruct (sections d); [contradiction | reflexivity].
Qed.

End MdRoundTrip.

(** *** The importers *)

Section Importers.

Variable H : Host.
Variable toLowerCase : list Z -> list Z.

(** X9.  [fromText] returns one section, named [content], whose content
    is the text without the whitespace around it: the text is whitespace,
    the content, whitespace, and the content neither starts nor ends with
    whitespace. *)
Theorem fromText_trims (text : list Z) :
  exists ws1 body ws2,
    text = ws1 ++ body ++ ws2
    /\ forallb isWhiteSpace ws1 = true /\ forallb isWhiteSpace ws2 = true
    /\ bare body
    /\ sections (fromText H text) = [ {| name := lit "content"; content := body |} ].
Proof.
  destruct (trim_split text) as (ws1 & ws2 & Htext & Hws1 & Hws2).
  exists ws1, (trim text), ws2. repeat split; try assumption; apply trim_is_bare.
Qed.

Lemma heading_name_valid (line : list Z) :
  VALID_NAME_test (heading_name toLowerCase line) = true.
Proof.
  unfold heading_name.
  set (raw := List.filter VALID_NAME_class _).
  assert (Hraw : forallb VALID_NAME_class raw = true).
  { apply forallb_forall. intros c Hc. apply filter_In in Hc. apply Hc. }
  destruct raw as [| c raw]; [reflexivity | exact Hraw].
Qed.

Lemma flush_valid (st : md_state) :
  md_valid st -> Forall (fun s => VALID_NAME_test (name s) = true) (flush st).
Proof.
  intros [Hdone Hcurrent]. unfold flush.
  destruct (currentSection st) as [[| c current] |].
  - destruct (truthy _); [| exact Hdone].
    apply Forall_app_2; [exact Hdone | repeat constructor].
  - apply Forall_app_2; [exact Hdone | repeat constructor; exact Hcurrent].
  - destruct (truthy _); [| exact Hdone].
    apply Forall_app_2; [exact Hdone | repeat constructor].
Qed.

Lemma md_step_valid (st : md_state) (line : list Z) :
  md_valid st -> md_valid (md_step toLowerCase st line).
Proof.
  intros Hst. unfold md_step. destruct (starts_with (lit "## ") line).
  - split; [apply flush_valid, Hst | apply heading_name_valid].
  - destruct Hst as [Hdone Hcurrent].
    destruct (currentSection st); split; assumption.
Qed.

Lemma fromMarkdown_sections (md : list Z) :
  exists body,
    sections (fromMarkdown H toLowerCase md)
    = or_fallback (flush (fold_left (md_step toLowerCase) body (mkMd [] None [] [])))
                  (trim md).
Proof.
  unfold fromMarkdown. destruct (split_lines md) as [| first rest].
  - eexists. reflexivity.
  - destruct (decide (trim first = lit "---")).
    + destruct (frontmatter rest (import_meta H (lit "markdown-import"))) as [m body].
      exists body. reflexivity.
    + eexists. reflexivity.
Qed.

(** X8.  Whatever the text, [fromMarkdown] returns at least one section,
    and every section name is a non-empty string of the class
    [[a-z0-9_-]]. *)
Theorem fromMarkdown_names (md : list Z) :
  sections (fromMarkdown H toLowerCase md) <> []
  /\ Forall (fun s => VALID_NAME_test (name s) = true)
            (sections (fromMarkdown H toLowerCase md)).
Proof.
  destruct (fromMarkdown_sections md) as [body ->].
  assert (Hfold : forall lines st,
             md_valid st -> md_valid (fold_left (md_step toLowerCase) lines st)).
  { induction lines as [| line lines IH]; intros st Hst; [exact Hst |].
    cbn [fold_left]. apply IH, md_step_valid, Hst. }
  assert (Hinit : md_valid (mkMd [] None [] [])) by (split; [constructor | exact I]).
  pose proof (flush_valid _ (Hfold body _ Hinit)) as Hflush.
  unfold or_fallback.
  destruct (flush (fold_left (md_step toLowerCase) body (mkMd [] None [] []))) as [| s secs];
    cbn [length Nat.eqb].
  - split; [discriminate | repeat constructor].
  - split; [discriminate | exact Hflush].
Qed.

End Importers.

(** *** The round trips on sample documents *)

Lemma map_to_list_entries (m : gmap (list Z) (list Z)) :
  NoDup (map_to_list m).*1 /\ list_to_map (map_to_list m) = m.
Proof. split; [apply NoDup_fst_map_to_list | apply list_to_map_to_list]. Qed.

Ltac evaluated :=
  vm_compute;
  repeat match goal with
         | |- Forall _ _ => constructor
         | |- _ /\ _ => split
         | |- _ <> _ => discriminate
         | |- ~ _ => let E := fresh in intros E; intuition discriminate
         | |- _ -> False => let E := fresh in intros E; intuition discriminate
         | |- _ = _ => reflexivity
         | |- True => exact I
         end.

Lemma fromJSON_toJSON_witness :
  fromJSON renamed_host (toJSON (fun _ _ => renamed_export_text) map_to_list renamed_document 2)
  = if decide (formatVersion renamed_document = lit "1.0")
    then Return {| formatVersion := lit "1.0";
                   isStream := false;
                   meta := filter (fun kv => kv.1 ∉ FORBIDDEN_KEYS) (meta renamed_document);
                   sections := filter (fun s => name_accepted (name s) = true)
                                      (sections renamed_document) |}
    else Throw (unsupported_version (formatVersion renamed_document)).
Proof.
  apply (fromJSON_toJSON renamed_host (fun _ _ => renamed_export_text) map_to_list
           map_to_list_entries renamed_document 2).
  reflexivity.
Defined.

Lemma fromJSON_toJSON_identity_witness :
  fromJSON notes_host (toJSON (fun _ _ => notes_export_text) map_to_list notes_document 2)
  = Return notes_document.
Proof.
  apply (fromJSON_toJSON_identity notes_host (fun _ _ => notes_export_text) map_to_list
           map_to_list_entries notes_document 2).
  - reflexivity.
  - reflexivity.
  - reflexivity.
  - apply map_Forall_lookup. apply map_Forall_to_list. evaluated.
  - evaluated.
Defined.

Lemma fromCSV_toCSV_witness :
  fromCSV notes_host ascii_lower (toCSV map_to_list table_document)
  = {| formatVersion := lit "1.0";
       isStream := false;
       meta := (escapeCSV <$> meta table_document) ∪ import_meta notes_host (lit "csv-import");
       sections := map escaped_section (sections table_document) |}.
Proof.
  apply (fromCSV_toCSV notes_host map_to_list ascii_lower map_to_list_entries eq_refl eq_refl
           table_document).
  - apply map_Forall_to_list. evaluated.
  - evaluated.
  - discriminate.
Defined.

Lemma fromMarkdown_toMarkdown_witness :
  fromMarkdown notes_host ascii_lower (toMarkdown map_to_list table_document)
  = {| formatVersion := lit "1.0";
       isStream := false;
       meta := meta table_document ∪ import_meta notes_host (lit "markdown-import");
       sections := sections table_document |}.
Proof.
  apply (fromMarkdown_toMarkdown notes_host map_to_list ascii_lower map_to_list_entries
           table_document).
  - apply map_Forall_to_list. evaluated.
  - evaluated.
  - discriminate.
Defined.

(** What the two texts look like, and what does not come back: of a
    content of two lines [fromCSV] keeps the first, and [fromMarkdown]
    makes a section of a heading named [Meta], under the reserved name
    [meta]. *)
Example converters_on_samples :
  split_lines (toCSV map_to_list table_document)
  = [ lit "type,key,value";
      lit "meta,agent," ++ quoted "cli, v2";
      lit "meta,title,x - y";
      lit "section,content," ++ [QUOTE] ++ lit "say " ++ [QUOTE; QUOTE] ++ lit "hi"
      ++ [QUOTE; QUOTE] ++ lit ", ok" ++ [QUOTE];
      lit "section,chain,'-x";
      [] ]
  /\ split_lines (toMarkdown map_to_list table_document)
     = [ lit "---"; lit "agent: cli, v2"; lit "title: x - y"; lit "---"; [];
         lit "## content"; []; lit "say " ++ quoted "hi" ++ lit ", ok"; [];
         lit "## chain"; []; lit "-x"; [] ]
  /\ sections (fromCSV notes_host ascii_lower
                 (toCSV map_to_list
                    {| formatVersion := lit "1.0"; isStream := false; meta := ∅;
                       sections := [ {| name := lit "content";
                                        content := join_lines [lit "a"; lit "b"] |} ] |}))
     = [ {| name := lit "content"; content := lit "a" |} ]
  /\ sections (fromMarkdown notes_host ascii_lower
                 (join_lines [ lit "intro"; lit "## Meta"; lit "x"; lit "## A  b!"; lit "y" ]))
     = [ {| name := lit "content"; content := lit "intro" |};
         {| name := lit "meta"; content := lit "x" |};
         {| name := lit "a-b"; content := lit "y" |} ].
Proof. vm_compute. repeat split; reflexivity. Qed.

End ConvertersFacts.

(** ** The DOM scrapers *)

Module ScrapersFacts.

Import JSString JSStringFacts Scrapers Pages.

Lemma total_size_app (messages : list Message) (m : Message) :
  total_size (messages ++ [m]) = total_size messages + Z.of_nat (length (msg_content m)).
Proof.
  induction messages as [| m' messages IH]; cbn [app total_size fold_right]; [lia |].
  fold (total_size (messages ++ [m])). fold (total_size messages). lia.
Qed.

Lemma within_limits_start : within_limits ([], 0).
Proof.
  repeat split; cbn; try constructor; unfold MAX_MESSAGES, MAX_CONTENT_SIZE; lia.
Qed.

Lemma within_limits_push (messages : list Message) (totalSize : Z) (r text : jsstring) :
  within_limits (messages, totalSize) ->
  (MAX_MESSAGES <=? Z.of_nat (length messages)) = false ->
  (MAX_CONTENT_SIZE <? totalSize + Z.of_nat (length text)) = false ->
  r = USER \/ r = ASSISTANT ->
  text <> [] -> bare text ->
  within_limits (messages ++ [mkMessage r text], totalSize + Z.of_nat (length text)).
Proof.
  intros (Hcount & Hsize & Hmax & Hall) Hroom Hfits Hr Htext Hbare.
  apply Z.leb_gt in Hroom. apply Z.ltb_ge in Hfits. cbn [fst snd] in *.
  split; [| split; [| split]]; cbn [fst snd].
  - rewrite length_app, Nat2Z.inj_add. cbn [length]. lia.
  - rewrite total_size_app. cbn [msg_content]. lia.
  - rewrite total_size_app. cbn [msg_content]. lia.
  - apply Forall_app_2; [exact Hall |]. constructor; [| constructor].
    split; [exact Hr | split; assumption].
Qed.

Lemma within_limits_skip (messages : list Message) (totalSize : Z) (n : nat) :
  within_limits (messages, totalSize) -> within_limits (messages, totalSize + Z.of_nat n).
Proof.
  intros (Hcount & Hsize & Hmax & Hall). repeat split; cbn [fst snd] in *; try assumption. lia.
Qed.

Lemma role_of_flag (isUser : bool) :
  (if isUser then USER else ASSISTANT) = USER \/ (if isUser then USER else ASSISTANT) = ASSISTANT.
Proof. destruct isUser; [left | right]; reflexivity. Qed.

Lemma text_of_bare (e : Node) : bare (text_of e).
Proof. apply trim_is_bare. Qed.

Lemma collect_within_limits (turns : list Turn) (messages : list Message) (totalSize : Z) :
  Forall kept_turn turns ->
  within_limits (messages, totalSize) ->
  within_limits (collect turns messages totalSize).
Proof.
  intros Hturns. revert messages totalSize.
  induction Hturns as [| turn turns (Hr & Htext & Hbare) _ IH]; intros messages totalSize Hin;
    [exact Hin |].
  cbn [collect]. destruct (MAX_MESSAGES <=? Z.of_nat (length messages)) eqn:Hroom; [exact Hin |].
  destruct (MAX_CONTENT_SIZE <? totalSize + Z.of_nat (length (turn_content turn))) eqn:Hfits.
  - apply within_limits_skip, Hin.
  - apply IH, within_limits_push; assumption.
Qed.

Lemma turns_of_kept (text : Node -> jsstring) (r : jsstring) (els : list Node) :
  (forall e, bare (text e)) ->
  r = USER \/ r = ASSISTANT -> Forall kept_turn (turns_of text r els).
Proof.
  intros Hbare Hr. unfold turns_of. induction els as [| e els IH]; [constructor |].
  cbn [flat_map]. destruct (truthy (text e)) eqn:Htext; [| exact IH].
  constructor; [| exact IH]. split; [exact Hr |]. split.
  - apply truthy_spec, Htext.
  - apply Hbare.
Qed.

Lemma collect_alternating_within_limits (nodes : list Node) (isUser : bool)
    (messages : list Message) (totalSize : Z) :
  within_limits (messages, totalSize) ->
  within_limits (collect_alternating nodes isUser messages totalSize).
Proof.
  revert isUser messages totalSize.
  induction nodes as [| child nodes IH]; intros isUser messages totalSize Hin; [exact Hin |].
  cbn [collect_alternating].
  destruct (MAX_MESSAGES <=? Z.of_nat (length messages)) eqn:Hroom; [exact Hin |].
  destruct (truthy (text_of child) && (1 <? length (text_of child))%nat) eqn:Htext;
    [| apply IH, Hin].
  apply andb_true_iff in Htext. destruct Htext as [Htext _].
  destruct (MAX_CONTENT_SIZE <? totalSize + Z.of_nat (length (text_of child))) eqn:Hfits.
  - apply within_limits_skip, Hin.
  - apply IH, within_limits_push; try assumption.
    + apply role_of_flag.
    + apply truthy_spec, Htext.
    + apply text_of_bare.
Qed.

(** The loop over the turns keeps the longest run of leading turns that
    the two limits admit. *)
Lemma collect_prefix (turns : list Turn) (messages : list Message) (totalSize : Z) :
  totalSize = total_size messages ->
  Z.of_nat (length messages) <= MAX_MESSAGES ->
  exists n,
    (collect turns messages totalSize).1 = messages ++ map message_of (take n turns)
    /\ (n = length turns
        \/ Z.of_nat (length messages + n) = MAX_MESSAGES
        \/ MAX_CONTENT_SIZE < total_size (messages ++ map message_of (take (S n) turns))).
Proof.
  revert messages totalSize.
  induction turns as [| turn turns IH]; intros messages totalSize Hsize Hcount.
  - exists 0%nat. cbn. rewrite app_nil_r. auto.
  - cbn [collect].
    destruct (MAX_MESSAGES <=? Z.of_nat (length messages)) eqn:Hroom.
    { apply Z.leb_le in Hroom. exists 0%nat. cbn [take map fst]. rewrite app_nil_r.
      split; [reflexivity |]. right. left. lia. }
    apply Z.leb_gt in Hroom.
    destruct (MAX_CONTENT_SIZE <? totalSize + Z.of_nat (length (turn_content turn))) eqn:Hfits.
    { apply Z.ltb_lt in Hfits. exists 0%nat. cbn [take map fst]. rewrite app_nil_r.
      split; [reflexivity |]. right. right. rewrite total_size_app. cbn [message_of msg_content].
      lia. }
    destruct (IH (messages ++ [message_of turn])
                 (totalSize + Z.of_nat (length (turn_content turn)))) as (n & Hn & Hstop).
    { rewrite total_size_app. cbn [message_of msg_content]. lia. }
    { rewrite length_app, Nat2Z.inj_add. cbn [length]. lia. }
    exists (S n). cbn [take map length]. rewrite Hn, <- app_assoc. cbn [app].
    split; [reflexivity |]. rewrite length_app in Hstop. cbn [length] in Hstop.
    rewrite <- app_assoc in Hstop. cbn [app] in Hstop.
    destruct Hstop as [-> | [Hstop | Hstop]]; [left; reflexivity | right; left; lia |].
    right. right. exact Hstop.
Qed.

(** The loop over the children of a container gives the roles in turn. *)
Lemma collect_alternating_alternating (nodes : list Node) (isUser : bool)
    (messages : list Message) (totalSize : Z) :
  alternating messages -> isUser = Nat.even (length messages) ->
  alternating (collect_alternating nodes isUser messages totalSize).1.
Proof.
  revert isUser messages totalSize.
  induction nodes as [| child nodes IH]; intros isUser messages totalSize Hin Hflag; [exact Hin |].
  cbn [collect_alternating].
  destruct (MAX_MESSAGES <=? Z.of_nat (length messages)); [exact Hin |].
  destruct (truthy (text_of child) && (1 <? length (text_of child))%nat); [| apply IH; assumption].
  destruct (MAX_CONTENT_SIZE <? totalSize + Z.of_nat (length (text_of child)));
    [exact Hin |].
  apply IH.
  - intros i m Hm. apply lookup_app_Some in Hm. destruct Hm as [Hm | [Hi Hm]].
    + apply Hin, Hm.
    + apply list_lookup_singleton_Some in Hm. destruct Hm as [Hi' <-]. cbn [role].
      replace i with (length messages) by lia. rewrite <- Hflag. reflexivity.
  - rewrite length_app. cbn [length]. rewrite Nat.add_1_r, Nat.even_succ, <- Nat.negb_even.
    rewrite Hflag. reflexivity.
Qed.

(** The loop over the children of a container keeps, in order, the texts of
    the first children that have one of more than one code unit. *)
Lemma collect_alternating_texts (nodes : list Node) (isUser : bool)
    (messages : list Message) (totalSize : Z) :
  exists n,
    map msg_content (collect_alternating nodes isUser messages totalSize).1
    = map msg_content messages
      ++ take n (List.filter (fun text => truthy text && (1 <? length text)%nat)
                             (map text_of nodes)).
Proof.
  revert isUser messages totalSize.
  induction nodes as [| child nodes IH]; intros isUser messages totalSize.
  - exists 0%nat. cbn. rewrite app_nil_r. reflexivity.
  - cbn [collect_alternating map List.filter].
    destruct (MAX_MESSAGES <=? Z.of_nat (length messages)).
    { exists 0%nat. cbn [take fst]. rewrite app_nil_r. reflexivity. }
    destruct (truthy (text_of child) && (1 <? length (text_of child))%nat); [| apply IH].
    destruct (MAX_CONTENT_SIZE <? totalSize + Z.of_nat (length (text_of child))).
    { exists 0%nat. cbn [take fst]. rewrite app_nil_r. reflexivity. }
    destruct (IH (negb isUser)
                 (messages ++ [mkMessage (if isUser then USER else ASSISTANT) (text_of child)])
                 (totalSize + Z.of_nat (length (text_of child)))) as [n Hn].
    exists (S n). rewrite Hn, map_app, <- app_assoc. reflexivity.
Qed.

(** The title and the model are the default or an accepted text. *)
Lemma text_or_accepted (found : option Node) (accept : jsstring -> bool)
    (fallback : jsstring) (read : Node -> jsstring) (P : jsstring -> Prop) :
  P fallback -> (forall t, accept t = true -> P t) -> P (text_or found accept fallback read).
Proof.
  intros Hdefault Haccept. unfold text_or. destruct found as [e |]; [| exact Hdefault].
  cbv zeta. destruct (accept (read e)) eqn:E; [apply Haccept, E | exact Hdefault].
Qed.

Ltac by_evaluation :=
  split; [let E := fresh in intros E; vm_compute in E; discriminate E | vm_compute; lia].

Lemma nonempty_length (messages : list Message) :
  (length messages =? 0)%nat = false -> messages <> [].
Proof. destruct messages; [discriminate | discriminate]. Qed.

Lemma within_bounds_intro (messages : list Message) (totalSize : Z)
    (title model platform : jsstring) :
  within_limits (messages, totalSize) ->
  (length messages =? 0)%nat = false ->
  short 200 title -> short 50 model ->
  within_bounds (mkConversation messages title model platform).
Proof.
  intros (Hcount & _ & Hmax & Hall) Hempty [Ht Htlen] [Hm Hmlen]. cbn [fst snd] in *.
  unfold within_bounds. cbn [Scrapers.messages Scrapers.title Scrapers.model].
  repeat split; try assumption. apply nonempty_length, Hempty.
Qed.

Section Sorted.

Variable sort_by_position : list Turn -> list Turn.

(** [sort] reorders the array it is given. *)
Hypothesis sort_permutes : forall turns, sort_by_position turns ≡ₚ turns.

Lemma collect_roles_within_limits (document : Node) (user_text assistant_text : Node -> jsstring)
    (users assistants : list jsstring) (messages : list Message) (totalSize : Z) :
  (forall e, bare (user_text e)) -> (forall e, bare (assistant_text e)) ->
  within_limits (messages, totalSize) ->
  within_limits (collect_roles sort_by_position document user_text assistant_text
                   users assistants messages totalSize).
Proof.
  intros Huser Hassistant Hin. unfold collect_roles. destruct (_ || _); [| exact Hin].
  apply collect_within_limits; [| exact Hin].
  rewrite sort_permutes. apply Forall_app_2; apply turns_of_kept; auto.
Qed.

Lemma collect_roles_none (document : Node) (user_text assistant_text : Node -> jsstring)
    (users assistants : list jsstring) (messages : list Message) (totalSize : Z) :
  query_all document users = [] -> query_all document assistants = [] ->
  collect_roles sort_by_position document user_text assistant_text users assistants
    messages totalSize = (messages, totalSize).
Proof. intros Hu Ha. unfold collect_roles. rewrite Hu, Ha. reflexivity. Qed.

(** X10. Strategy 1 of the three scrapers keeps the turns in document
    order and drops them from the end only: the messages are those of the
    first [n] turns, where [n] stops at the last turn, at 5000 messages, or
    before the first turn that takes the text over 10 MiB. *)
Theorem collect_roles_longest_prefix (document : Node)
    (user_text assistant_text : Node -> jsstring) (users assistants : list jsstring) :
  let turns :=
    sort_by_position (turns_of user_text USER (query_all document users)
                      ++ turns_of assistant_text ASSISTANT (query_all document assistants)) in
  exists n,
    (collect_roles sort_by_position document user_text assistant_text users assistants [] 0).1
    = map message_of (take n turns)
    /\ (n = length turns
        \/ Z.of_nat n = MAX_MESSAGES
        \/ MAX_CONTENT_SIZE < total_size (map message_of (take (S n) turns))).
Proof.
  intros turns. unfold collect_roles. fold turns.
  destruct (_ || _) eqn:Hany.
  - apply (collect_prefix turns [] 0); [reflexivity | unfold MAX_MESSAGES; cbn; lia].
  - apply orb_false_iff in Hany. destruct Hany as [Hu Ha].
    exists 0%nat. split; [reflexivity |]. left. subst turns.
    destruct (query_all document users); [| discriminate Hu].
    destruct (query_all document assistants); [| discriminate Ha].
    cbn [turns_of flat_map app]. symmetry. apply length_zero_iff_nil.
    apply Permutation_nil_r, sort_permutes.
Qed.

(** *** scraper-moltbot.js *)

Lemma collect_lit_within_limits (els : list Node) (messages : list Message) (totalSize : Z) :
  within_limits (messages, totalSize) ->
  within_limits (Moltbot.collect_lit els messages totalSize).
Proof.
  revert messages totalSize. induction els as [| e els IH]; intros messages totalSize Hin;
    [exact Hin |].
  cbn [Moltbot.collect_lit].
  destruct (MAX_MESSAGES <=? Z.of_nat (length messages)) eqn:Hroom; [exact Hin |].
  destruct (truthy (text_of e)) eqn:Htext; cbn [negb]; [| apply IH, Hin].
  destruct (MAX_CONTENT_SIZE <? totalSize + Z.of_nat (length (text_of e))) eqn:Hfits.
  - apply within_limits_skip, Hin.
  - apply IH, within_limits_push; try assumption.
    + apply role_of_flag.
    + apply truthy_spec, Htext.
    + apply text_of_bare.
Qed.

Lemma moltbot_title (found : option Node) :
  short 200 (text_or found Moltbot.title_accepted (lit "OpenClaw Conversation") text_of).
Proof.
  apply text_or_accepted; [by_evaluation |]. intros t Ht. unfold Moltbot.title_accepted in Ht.
  apply andb_true_iff in Ht. destruct Ht as [Ht Hlen].
  apply andb_true_iff in Ht. destruct Ht as [Ht _].
  split; [apply truthy_spec, Ht | apply Nat.ltb_lt, Hlen].
Qed.

(** X11. A conversation the Moltbot scraper returns has at least one and at
    most 5000 messages, of at most 10 MiB of text in all; every message has
    the role user or assistant and a text that is not empty and has no
    white space at either end; the title is not empty and shorter than 200
    code units; the model is the fixed name [openclaw] and the platform is
    [moltbot]. *)
Theorem moltbot_scrape_within_bounds (document : Node) (conversation : Conversation) :
  Moltbot.scrape sort_by_position document = Some conversation ->
  within_bounds conversation
  /\ model conversation = lit "openclaw"
  /\ platform conversation = lit "moltbot".
Proof.
  unfold Moltbot.scrape. set (found := query_first document Moltbot.conversationTitle).
  pose proof (collect_roles_within_limits document text_of text_of
                Moltbot.assistantUIUser Moltbot.assistantUIAssistant [] 0
                text_of_bare text_of_bare within_limits_start) as H1.
  destruct (collect_roles sort_by_position document text_of text_of
              Moltbot.assistantUIUser Moltbot.assistantUIAssistant [] 0)
    as [messages1 size1].
  set (second := if (length messages1 =? 0)%nat then _ else _).
  assert (H2 : within_limits second).
  { subst second. destruct (length messages1 =? 0)%nat; [| exact H1].
    destruct (0 <? length _)%nat; [apply collect_lit_within_limits, H1 | exact H1]. }
  destruct second as [messages2 size2].
  set (third := if (length messages2 =? 0)%nat then _ else _).
  assert (H3 : within_limits third).
  { subst third. destruct (length messages2 =? 0)%nat; [| exact H2].
    apply collect_roles_within_limits; [apply text_of_bare | apply text_of_bare | exact H2]. }
  destruct third as [messages3 size3].
  destruct (length messages3 =? 0)%nat eqn:Hempty; [discriminate |].
  intros [= <-]. split; [| split; reflexivity].
  eapply within_bounds_intro; [exact H3 | exact Hempty | |].
  - apply moltbot_title.
  - by_evaluation.
Qed.

(** *** The Grok scraper *)

Lemma collect_blocks_within_limits (blocks : list Node) (messages : list Message)
    (totalSize : Z) :
  within_limits (messages, totalSize) ->
  within_limits (Grok.collect_blocks blocks messages totalSize).
Proof.
  revert messages totalSize.
  induction blocks as [| block blocks IH]; intros messages totalSize Hin; [exact Hin |].
  cbn [Grok.collect_blocks].
  destruct (MAX_MESSAGES <=? Z.of_nat (length messages)) eqn:Hroom; [exact Hin |].
  destruct (truthy (text_of block) && (1 <? length (text_of block))%nat) eqn:Htext;
    [| apply IH, Hin].
  apply andb_true_iff in Htext. destruct Htext as [Htext _].
  destruct (MAX_CONTENT_SIZE <? totalSize + Z.of_nat (length (text_of block))) eqn:Hfits.
  - apply within_limits_skip, Hin.
  - apply IH, within_limits_push; try assumption.
    + destruct (Grok.looksLikeAssistant _); [right | left]; reflexivity.
    + apply truthy_spec, Htext.
    + apply text_of_bare.
Qed.

Lemma model_short (accept : jsstring -> bool) (found : option Node) (fallback : jsstring)
    (read : Node -> jsstring) :
  (forall m, accept m = (truthy m && (length m <? 50)%nat)) ->
  short 50 fallback ->
  short 50 (text_or found accept fallback read).
Proof.
  intros Haccept Hdefault. apply text_or_accepted; [exact Hdefault |].
  intros m Hm. rewrite Haccept in Hm. apply andb_true_iff in Hm. destruct Hm as [Hm Hlen].
  split; [apply truthy_spec, Hm | apply Nat.ltb_lt, Hlen].
Qed.

Section Platform.

Variable toLowerCase : jsstring -> jsstring.

(** X12. A conversation the Grok scraper returns is within the same
    bounds, and its title is not the bare name of the product; the model
    name is not empty and shorter than 50 code units. *)
Theorem grok_scrape_within_bounds (document : Node) (conversation : Conversation) :
  Grok.scrape sort_by_position toLowerCase document = Scraped conversation ->
  within_bounds conversation /\ title conversation <> lit "Grok".
Proof.
  unfold Grok.scrape.
  set (foundTitle := query_first document Grok.conversationTitle).
  set (foundModel := query_first document Grok.modelName).
  pose proof (collect_roles_within_limits document text_of text_of
                Grok.userMessage Grok.assistantMessage [] 0
                text_of_bare text_of_bare within_limits_start) as H1.
  destruct (collect_roles sort_by_position document text_of text_of
              Grok.userMessage Grok.assistantMessage [] 0) as [messages1 size1].
  set (second := if (length messages1 =? 0)%nat then _ else _).
  assert (H2 : within_limits second).
  { subst second. destruct (length messages1 =? 0)%nat; [| exact H1].
    destruct (0 <? length _)%nat; [apply collect_blocks_within_limits, H1 | exact H1]. }
  destruct second as [messages2 size2]. cbv zeta.
  set (third := if (length messages2 =? 0)%nat then _ else _).
  assert (H3 : forall state, third = Some state -> within_limits state).
  { subst third. intros state. destruct (length messages2 =? 0)%nat; [| intros [= <-]; exact H2].
    destruct (querySelector document Grok.MAIN_COLUMN) as [[mainCol |] |];
      [| intros [= <-]; exact H2 | discriminate].
    intros [= <-]. apply collect_alternating_within_limits, H2. }
  destruct third as [[messages3 size3] |]; [| discriminate].
  specialize (H3 _ eq_refl).
  destruct (length messages3 =? 0)%nat eqn:Hempty; [discriminate |].
  intros [= <-]. split.
  - eapply within_bounds_intro; [exact H3 | exact Hempty | |].
    + apply (text_or_accepted _ _ _ _ (short 200)); [by_evaluation |].
      intros t Ht. unfold Grok.title_accepted in Ht.
      apply andb_true_iff in Ht. destruct Ht as [Ht _].
      apply andb_true_iff in Ht. destruct Ht as [Ht Hlen].
      apply andb_true_iff in Ht. destruct Ht as [Ht _].
      split; [apply truthy_spec, Ht | apply Nat.ltb_lt, Hlen].
    + apply model_short; [reflexivity | by_evaluation].
  - cbn [title]. apply (text_or_accepted _ _ _ _ (fun t => t <> lit "Grok")).
    + intros E. vm_compute in E. discriminate E.
    + intros t Ht. unfold Grok.title_accepted in Ht.
      apply andb_true_iff in Ht. destruct Ht as [_ Ht].
      apply negb_true_iff, bool_decide_eq_false in Ht. exact Ht.
Qed.

(** X13. When neither the role selectors nor the block selectors of the
    Grok scraper match anything, the messages are read off the children
    of the main column, the first element the selector of strategy 3
    finds: their texts are, in order, the trimmed texts of more than one
    code unit of the first children, and their roles come in turn,
    starting with the user. *)
Theorem grok_main_column_alternates (document : Node) (conversation : Conversation) :
  query_all document Grok.userMessage = [] ->
  query_all document Grok.assistantMessage = [] ->
  query_all document Grok.messageBlock = [] ->
  Grok.scrape sort_by_position toLowerCase document = Scraped conversation ->
  exists mainCol n,
    querySelector document Grok.MAIN_COLUMN = Some (Some mainCol)
    /\ map msg_content (messages conversation)
       = take n (List.filter (fun text => truthy text && (1 <? length text)%nat)
                             (map text_of (children mainCol)))
    /\ alternating (messages conversation).
Proof.
  intros Hu Ha Hb. unfold Grok.scrape.
  rewrite (collect_roles_none document text_of text_of _ _ [] 0 Hu Ha), Hb.
  change (length (@nil Node)) with 0%nat. change (length (@nil Message)) with 0%nat.
  change (0 <? 0)%nat with false. change (0 =? 0)%nat with true. cbv beta iota zeta.
  change (length (@nil Message)) with 0%nat. change (0 =? 0)%nat with true. cbv beta iota.
  destruct (querySelector document Grok.MAIN_COLUMN) as [[mainCol |] |];
    [| discriminate | discriminate].
  pose proof (collect_alternating_alternating (children mainCol) true [] 0) as Hroles.
  destruct (collect_alternating_texts (children mainCol) true [] 0) as [n Htexts].
  destruct (collect_alternating (children mainCol) true [] 0) as [messages3 size3].
  destruct (length messages3 =? 0)%nat; [discriminate |].
  intros [= <-]. cbn [messages]. exists mainCol, n.
  split; [reflexivity |]. split; [exact Htexts |].
  apply Hroles; [| reflexivity].
  intros i m Hm. rewrite lookup_nil in Hm. discriminate Hm.
Qed.

(** *** The Claude scraper *)

Lemma collect_test_ids_within_limits (turns : list Node) (messages : list Message)
    (totalSize : Z) (state : progress) :
  within_limits (messages, totalSize) ->
  Claude.collect_test_ids turns messages totalSize = Some state ->
  within_limits state.
Proof.
  revert messages totalSize.
  induction turns as [| turn turns IH]; intros messages totalSize Hin;
    [intros [= <-]; exact Hin |].
  cbn [Claude.collect_test_ids].
  destruct (MAX_MESSAGES <=? Z.of_nat (length messages)) eqn:Hroom; [intros [= <-]; exact Hin |].
  destruct (Claude.is_user turn) as [isUser |]; [| discriminate].
  destruct (truthy (text_of turn)) eqn:Htext; [| apply IH, Hin].
  destruct (MAX_CONTENT_SIZE <? totalSize + Z.of_nat (length (text_of turn))) eqn:Hfits.
  - intros [= <-]. apply within_limits_skip, Hin.
  - apply IH, within_limits_push; try assumption.
    + apply role_of_flag.
    + apply truthy_spec, Htext.
    + apply text_of_bare.
Qed.

Lemma collect_containers_within_limits (candidates : list Node) (messages : list Message)
    (totalSize : Z) :
  within_limits (messages, totalSize) ->
  within_limits (Claude.collect_containers candidates messages totalSize).
Proof.
  revert messages totalSize.
  induction candidates as [| container candidates IH]; intros messages totalSize Hin;
    [exact Hin |].
  cbn [Claude.collect_containers].
  destruct (length (children container) <? 2)%nat; [apply IH, Hin |].
  pose proof (collect_alternating_within_limits (children container) true messages totalSize Hin)
    as Hinner.
  destruct (collect_alternating (children container) true messages totalSize)
    as [messages' size'].
  destruct (0 <? length messages')%nat; [exact Hinner | apply IH, Hinner].
Qed.

Lemma claude_title (document : Node) (t : jsstring) :
  Claude.read_title document = Some t -> short 200 t.
Proof.
  unfold Claude.read_title.
  destruct (query_first document Claude.conversationTitle) as [titleEl |];
    [| intros [= <-]; by_evaluation].
  destruct (querySelector titleEl (lit ".truncate")) as [found |]; [| discriminate].
  cbv zeta. intros [= <-].
  destruct (Claude.title_accepted _) eqn:Ht; [| by_evaluation].
  unfold Claude.title_accepted in Ht.
  apply andb_true_iff in Ht. destruct Ht as [Ht Hlen].
  apply andb_true_iff in Ht. destruct Ht as [Ht _].
  split; [apply truthy_spec, Ht | apply Nat.ltb_lt, Hlen].
Qed.

(** X14. A conversation the Claude scraper returns is within the same
    bounds. *)
Theorem claude_scrape_within_bounds (document : Node) (conversation : Conversation) :
  Claude.scrape sort_by_position toLowerCase document = Scraped conversation ->
  within_bounds conversation.
Proof.
  unfold Claude.scrape.
  set (foundModel := query_first document Claude.modelBadge).
  pose proof (collect_roles_within_limits document
                (Claude.content_text Claude.userContent)
                (Claude.content_text Claude.assistantContent)
                Claude.userTurn Claude.assistantTurn [] 0
                (fun e => text_of_bare _) (fun e => text_of_bare _) within_limits_start) as H1.
  destruct (collect_roles sort_by_position document _ _
              Claude.userTurn Claude.assistantTurn [] 0) as [messages1 size1].
  cbv zeta.
  set (second := if (length messages1 =? 0)%nat then _ else _).
  assert (H2 : forall state, second = Some state -> within_limits state).
  { subst second. intros state. destruct (length messages1 =? 0)%nat; [| intros [= <-]; exact H1].
    destruct (querySelectorAll document Claude.TEST_ID_TURNS) as [testIdTurns |];
      [| discriminate].
    destruct (0 <? length testIdTurns)%nat; [| intros [= <-]; exact H1].
    apply collect_test_ids_within_limits, H1. }
  destruct second as [[messages2 size2] |]; [| discriminate].
  specialize (H2 _ eq_refl).
  set (third := if (length messages2 =? 0)%nat then _ else _).
  assert (H3 : forall state, third = Some state -> within_limits state).
  { subst third. intros state. destruct (length messages2 =? 0)%nat; [| intros [= <-]; exact H2].
    destruct (querySelectorAll document Claude.CANDIDATES) as [candidates |]; [| discriminate].
    intros [= <-]. apply collect_containers_within_limits, H2. }
  destruct third as [[messages3 size3] |]; [| discriminate].
  specialize (H3 _ eq_refl).
  destruct (length messages3 =? 0)%nat eqn:Hempty; [discriminate |].
  destruct (Claude.read_title document) as [t |] eqn:Htitle; [| discriminate].
  intros [= <-]. eapply within_bounds_intro; [exact H3 | exact Hempty | |].
  - eapply claude_title, Htitle.
  - apply model_short; [reflexivity | by_evaluation].
Qed.

End Platform.

End Sorted.

(** *** The sample pages *)

Lemma in_order_permutes (turns : list Turn) : in_order turns ≡ₚ turns.
Proof. reflexivity. Qed.

Lemma collect_roles_longest_prefix_witness :
  exists n,
    (collect_roles in_order moltbot_page text_of text_of
       Moltbot.assistantUIUser Moltbot.assistantUIAssistant [] 0).1
    = map message_of
        (take n (in_order
                   (turns_of text_of USER (query_all moltbot_page Moltbot.assistantUIUser)
                    ++ turns_of text_of ASSISTANT
                         (query_all moltbot_page Moltbot.assistantUIAssistant))))
    /\ (n = length (in_order
                     (turns_of text_of USER (query_all moltbot_page Moltbot.assistantUIUser)
                      ++ turns_of text_of ASSISTANT
                           (query_all moltbot_page Moltbot.assistantUIAssistant)))
        \/ Z.of_nat n = MAX_MESSAGES
        \/ MAX_CONTENT_SIZE
           < total_size
               (map message_of
                  (take (S n)
                     (in_order
                        (turns_of text_of USER (query_all moltbot_page Moltbot.assistantUIUser)
                         ++ turns_of text_of ASSISTANT
                              (query_all moltbot_page Moltbot.assistantUIAssistant)))))).
Proof.
  exact (collect_roles_longest_prefix in_order in_order_permutes moltbot_page text_of text_of
           Moltbot.assistantUIUser Moltbot.assistantUIAssistant).
Defined.

Lemma moltbot_scrape_within_bounds_witness :
  Moltbot.scrape in_order moltbot_page = Some moltbot_conversation
  /\ within_bounds moltbot_conversation
  /\ model moltbot_conversation = lit "openclaw"
  /\ platform moltbot_conversation = lit "moltbot".
Proof.
  assert (E : Moltbot.scrape in_order moltbot_page = Some moltbot_conversation)
    by (vm_compute; reflexivity).
  split; [exact E |].
  exact (moltbot_scrape_within_bounds in_order in_order_permutes moltbot_page _ E).
Defined.

Lemma grok_scrape_within_bounds_witness :
  Grok.scrape in_order Samples.ascii_lower grok_page = Scraped grok_conversation
  /\ within_bounds grok_conversation /\ title grok_conversation <> lit "Grok".
Proof.
  assert (E : Grok.scrape in_order Samples.ascii_lower grok_page = Scraped grok_conversation)
    by (vm_compute; reflexivity).
  split; [exact E |].
  exact (grok_scrape_within_bounds in_order in_order_permutes Samples.ascii_lower grok_page _ E).
Defined.

Lemma grok_main_column_alternates_witness :
  Grok.scrape in_order Samples.ascii_lower grok_page = Scraped grok_conversation
  /\ exists mainCol n,
       querySelector grok_page Grok.MAIN_COLUMN = Some (Some mainCol)
       /\ map msg_content (messages grok_conversation)
          = take n (List.filter (fun text => truthy text && (1 <? length text)%nat)
                                (map text_of (children mainCol)))
       /\ alternating (messages grok_conversation).
Proof.
  assert (E : Grok.scrape in_order Samples.ascii_lower grok_page = Scraped grok_conversation)
    by (vm_compute; reflexivity).
  split; [exact E |].
  apply (grok_main_column_alternates in_order Samples.ascii_lower grok_page _);
    [reflexivity | reflexivity | reflexivity | exact E].
Defined.

Lemma claude_scrape_within_bounds_witness :
  Claude.scrape in_order Samples.ascii_lower claude_page = Scraped claude_conversation
  /\ within_bounds claude_conversation.
Proof.
  assert (E : Claude.scrape in_order Samples.ascii_lower claude_page
              = Scraped claude_conversation) by (vm_compute; reflexivity).
  split; [exact E |].
  exact (claude_scrape_within_bounds in_order in_order_permutes Samples.ascii_lower
           claude_page _ E).
Defined.

End ScrapersFacts.

(** ** The CodeLens provider and the section picker *)

Module ProvidersFacts.

Import Extension Providers Pages.
Import Engine(starts_with).

Lemma provideCodeLenses_loop_first (lines : list jsstring) (n i : nat) :
  (i + n <= length lines)%nat ->
  (provideCodeLenses_loop lines n i = []
   /\ forall j l, (i <= j < i + n)%nat -> lines !! j = Some l -> starts_with MAGIC l = false)
  \/ (exists j l,
        (i <= j < i + n)%nat /\ lines !! j = Some l /\ starts_with MAGIC l = true
        /\ (forall k l', (i <= k < j)%nat -> lines !! k = Some l' ->
                         starts_with MAGIC l' = false)
        /\ provideCodeLenses_loop lines n i = lenses_at j l).
Proof.
  revert i. induction n as [| n IH]; intros i Hlen.
  - left. split; [reflexivity |]. intros j l Hj. lia.
  - cbn [provideCodeLenses_loop].
    destruct (lines !! i) as [current |] eqn:Hcurrent.
    + destruct (starts_with MAGIC current) eqn:Hmagic.
      * right. exists i, current. repeat split; try assumption; try lia.
      * destruct (IH (S i) ltac:(lia)) as [[Hnone Hall] | (j & l & Hj & Hl & Hstarts & Hbefore & Hloop)].
        -- left. split; [exact Hnone |]. intros j l Hj Hl.
           destruct (decide (j = i)) as [-> | Hne]; [congruence |].
           apply (Hall j l); [lia | exact Hl].
        -- right. exists j, l. repeat split; try assumption; try lia.
           intros k l' Hk Hl'. destruct (decide (k = i)) as [-> | Hne]; [congruence |].
           apply (Hbefore k l'); [lia | exact Hl'].
    + apply lookup_ge_None in Hcurrent. lia.
Qed.

(** X15. [provideCodeLenses] looks at the first five lines only.  When none
    of them starts with the magic, there is no lens; otherwise there are
    exactly two, Open Preview and then Validate Checksum, both over the
    whole of the first such line. *)
Theorem provideCodeLenses_first_magic_line (lines : list jsstring) :
  (provideCodeLenses lines = []
   /\ forall i l, (i < 5)%nat -> lines !! i = Some l -> starts_with MAGIC l = false)
  \/ (exists i l,
        (i < 5)%nat /\ lines !! i = Some l /\ starts_with MAGIC l = true
        /\ (forall k l', (k < i)%nat -> lines !! k = Some l' -> starts_with MAGIC l' = false)
        /\ provideCodeLenses lines = lenses_at i l
        /\ map (fun lens => command (lens_command lens)) (provideCodeLenses lines)
           = [lit "pfm.openPreview"; lit "pfm.validateChecksum"]
        /\ Forall (fun lens => range lens = mkRange i 0 i (length l)) (provideCodeLenses lines)).
Proof.
  unfold provideCodeLenses.
  destruct (provideCodeLenses_loop_first lines (Nat.min 5 (length lines)) 0 ltac:(lia))
    as [[Hnone Hall] | (j & l & Hj & Hl & Hstarts & Hbefore & Hloop)].
  - left. split; [exact Hnone |]. intros i l Hi Hl. apply (Hall i l); [| exact Hl].
    apply lookup_lt_Some in Hl. lia.
  - right. exists j, l. rewrite Hloop.
    split; [lia |]. split; [exact Hl |]. split; [exact Hstarts |].
    split; [intros k l' Hk; apply Hbefore; lia |].
    split; [reflexivity |]. split; [reflexivity |].
    repeat constructor.
Qed.

Lemma replace_newlines_single_line (s : jsstring) : 10 ∉ replace_newlines s.
Proof.
  unfold replace_newlines. intros Hin. apply list_elem_of_fmap in Hin.
  destruct Hin as (c & Hc & _). destruct (c =? 10) eqn:E; [discriminate |].
  apply Z.eqb_neq in E. congruence.
Qed.

Lemma replace_newlines_id (s : jsstring) : 10 ∉ s -> replace_newlines s = s.
Proof.
  unfold replace_newlines. induction s as [| c s IH]; intros Hs; [reflexivity |].
  cbn [map]. apply not_elem_of_cons in Hs. destruct Hs as [Hc Hs].
  rewrite IH by exact Hs. destruct (c =? 10) eqn:E; [| reflexivity].
  apply Z.eqb_eq in E. congruence.
Qed.

Section GoToSectionFacts.

Variable parsePFM : jsstring -> ParsedDocument.
Variable Number_toString : Z -> jsstring.
Variable showQuickPick : list QuickPickItem -> option QuickPickItem.

(** The pick is one of the entries offered. *)
Hypothesis showQuickPick_offered :
  forall items picked, showQuickPick items = Some picked -> picked ∈ items.

(** X16. When [pfm.goToSection] moves the selection, the editor holds a PFM
    document and the selection goes to the first column of the header line
    of one of its sections; the entry picked showed the name of that
    section and, as detail, the first 80 code units of its content on one
    line. *)
Theorem goToSection_reveals_header (editor : TextEditor) (l c : Z) :
  goToSection parsePFM Number_toString showQuickPick (Some editor) = Revealed l c ->
  c = 0
  /\ languageId editor = lit "pfm"
  /\ exists s picked,
       s ∈ doc_sections (parsePFM (getText editor))
       /\ l = headerLine s
       /\ showQuickPick (map (item_of Number_toString) (doc_sections (parsePFM (getText editor))))
          = Some picked
       /\ label picked = sec_name s
       /\ (length (detail picked) <= 80)%nat
       /\ (10 ∉ detail picked)
       /\ ((length (sec_content s) <= 80)%nat -> (10 ∉ sec_content s) ->
           detail picked = sec_content s).
Proof.
  unfold goToSection.
  destruct (bool_decide (languageId editor = lit "pfm")) eqn:Hlang; cbn [negb]; [| discriminate].
  apply bool_decide_eq_true in Hlang. cbv zeta.
  destruct (length (doc_sections (parsePFM (getText editor))) =? 0)%nat; [discriminate |].
  destruct (showQuickPick _) as [picked |] eqn:Hpick; [| discriminate].
  intros [= <- <-]. split; [reflexivity |]. split; [exact Hlang |].
  pose proof (showQuickPick_offered _ _ Hpick) as Hin.
  apply list_elem_of_fmap in Hin. destruct Hin as (s & -> & Hs).
  exists s, (item_of Number_toString s). split; [exact Hs |]. split; [reflexivity |].
  split; [reflexivity |]. split; [reflexivity |]. cbn [detail item_of].
  split; [| split].
  - unfold replace_newlines. rewrite length_map, length_take. lia.
  - apply replace_newlines_single_line.
  - intros Hshort Hline. rewrite take_ge by exact Hshort. apply replace_newlines_id, Hline.
Qed.

End GoToSectionFacts.

Lemma pick_last_offered (items : list QuickPickItem) (picked : QuickPickItem) :
  pick_last items = Some picked -> picked ∈ items.
Proof.
  unfold pick_last. intros Hlast. apply last_Some in Hlast. destruct Hlast as [front ->].
  apply elem_of_app. right. apply list_elem_of_singleton. reflexivity.
Qed.

Lemma goToSection_reveals_header_witness :
  goToSection two_sections line_number pick_last (Some pfm_editor) = Revealed 7 0
  /\ exists s picked,
       s ∈ doc_sections (two_sections (getText pfm_editor))
       /\ 7 = headerLine s
       /\ pick_last (map (item_of line_number) (doc_sections (two_sections (getText pfm_editor))))
          = Some picked
       /\ label picked = sec_name s.
Proof.
  assert (E : goToSection two_sections line_number pick_last (Some pfm_editor) = Revealed 7 0)
    by (vm_compute; reflexivity).
  split; [exact E |].
  destruct (goToSection_reveals_header two_sections line_number pick_last pick_last_offered
              pfm_editor 7 0 E) as (_ & _ & s & picked & Hs & Hline & Hpick & Hlabel & _).
  exists s, picked. auto.
Defined.

End ProvidersFacts.

(** ** The hover provider *)

Module HoverFacts.

Import Convert JSString Hover.
Import Engine(starts_with).

(** A line that does not start with a word character is no meta line. *)
Lemma metaMatch_marker (c : Z) (line : jsstring) :
  isWord c = false -> metaMatch (c :: line) = None.
Proof.
  intros Hc. unfold metaMatch. cbn [word_prefix]. rewrite Hc. reflexivity.
Qed.

Lemma word_prefix_words (s : jsstring) : forallb isWord (word_prefix s).1 = true.
Proof.
  induction s as [| c s IH]; [reflexivity |]. cbn [word_prefix].
  destruct (isWord c) eqn:Hc; [| reflexivity].
  destruct (word_prefix s) as [word after]. cbn [fst forallb] in *. rewrite Hc. exact IH.
Qed.

Lemma word_prefix_split (s : jsstring) : s = (word_prefix s).1 ++ (word_prefix s).2.
Proof.
  induction s as [| c s IH]; [reflexivity |]. cbn [word_prefix].
  destruct (isWord c) eqn:Hc; [| reflexivity].
  destruct (word_prefix s) as [word after]. cbn [fst snd app] in *. congruence.
Qed.

Section DescriptionsFacts.

Variable SECTION_DESCRIPTIONS : jsstring -> option jsstring.
Variable META_FIELD_DESCRIPTIONS : jsstring -> option jsstring.

(** X17. The hover is decided by the start of the line.  A section header
    always has a hover, which names the header's trimmed name; a magic
    line, an end marker and an escaped line always have their fixed hover,
    which no meta description can take the place of; a line of another kind
    has a hover only when it reads as a key, a colon and whitespace and the
    key has a description, and the key is then made of word characters and
    starts the line. *)
Theorem provideHover_by_line_start (line : jsstring) :
  (starts_with (lit "#@") line = true ->
   exists desc,
     provideHover SECTION_DESCRIPTIONS META_FIELD_DESCRIPTIONS line
     = Some (section_hover (trim (drop 2 line)) desc))
  /\ (starts_with (lit "#!PFM") line = true ->
      provideHover SECTION_DESCRIPTIONS META_FIELD_DESCRIPTIONS line = Some MAGIC_HOVER)
  /\ (starts_with (lit "#!END") line = true ->
      provideHover SECTION_DESCRIPTIONS META_FIELD_DESCRIPTIONS line = Some EOF_HOVER)
  /\ (starts_with [92; 35] line = true ->
      provideHover SECTION_DESCRIPTIONS META_FIELD_DESCRIPTIONS line = Some ESCAPED_HOVER)
  /\ (forall hover,
        starts_with (lit "#@") line = false -> starts_with (lit "#!PFM") line = false ->
        starts_with (lit "#!END") line = false -> starts_with [92; 35] line = false ->
        provideHover SECTION_DESCRIPTIONS META_FIELD_DESCRIPTIONS line = Some hover ->
        exists key rest desc,
          line = key ++ code ":" :: rest /\ key <> [] /\ forallb isWord key = true
          /\ META_FIELD_DESCRIPTIONS key = Some desc /\ hover = meta_hover key desc).
Proof.
  split; [| split; [| split; [| split]]].
  - intros Hstart. unfold provideHover. rewrite Hstart. cbv zeta.
    destruct (SECTION_DESCRIPTIONS _) as [desc |]; eexists; reflexivity.
  - intros Hstart. destruct line as [| c line]; [discriminate Hstart |].
    cbn [starts_with lit] in Hstart. apply andb_true_iff in Hstart. destruct Hstart as [Hc Hrest].
    apply Z.eqb_eq in Hc. subst c.
    destruct line as [| c line]; [discriminate Hrest |].
    cbn in Hrest. apply andb_true_iff in Hrest. destruct Hrest as [Hc Hrest].
    apply Z.eqb_eq in Hc. subst c.
    unfold provideHover. rewrite metaMatch_marker by reflexivity.
    cbv zeta.
    change (starts_with (lit "#@") (35 :: 33 :: line)) with false. cbv iota.
    change (starts_with (lit "#!PFM") (35 :: 33 :: line))
      with (starts_with (lit "PFM") line).
    cbn in Hrest |- *. rewrite Hrest. reflexivity.
  - intros Hstart. destruct line as [| c line]; [discriminate Hstart |].
    cbn [starts_with lit] in Hstart. apply andb_true_iff in Hstart. destruct Hstart as [Hc Hrest].
    apply Z.eqb_eq in Hc. subst c.
    destruct line as [| c line]; [discriminate Hrest |].
    cbn in Hrest. apply andb_true_iff in Hrest. destruct Hrest as [Hc Hrest].
    apply Z.eqb_eq in Hc. subst c.
    destruct line as [| c line]; [discriminate Hrest |].
    apply andb_true_iff in Hrest. destruct Hrest as [Hc Hrest].
    apply Z.eqb_eq in Hc. subst c.
    unfold provideHover. rewrite metaMatch_marker by reflexivity.
    cbv zeta.
    change (starts_with (lit "#@") (35 :: 33 :: 69 :: line)) with false. cbv iota.
    change (starts_with (lit "#!PFM") (35 :: 33 :: 69 :: line)) with false. cbv iota.
    change (starts_with (lit "#!END") (35 :: 33 :: 69 :: line))
      with (starts_with (lit "ND") line).
    cbn in Hrest |- *. rewrite Hrest. reflexivity.
  - intros Hstart. destruct line as [| c line]; [discriminate Hstart |].
    cbn [starts_with] in Hstart. apply andb_true_iff in Hstart. destruct Hstart as [Hc Hrest].
    apply Z.eqb_eq in Hc. subst c.
    destruct line as [| c line]; [discriminate Hrest |].
    apply andb_true_iff in Hrest. destruct Hrest as [Hc _].
    apply Z.eqb_eq in Hc. subst c.
    unfold provideHover. rewrite metaMatch_marker by reflexivity.
    reflexivity.
  - intros hover Hsection Hmagic Hend Hescaped. unfold provideHover.
    rewrite Hsection, Hmagic, Hend, Hescaped. cbv zeta.
    destruct (metaMatch line) as [key |] eqn:Hmatch; [| discriminate].
    destruct (META_FIELD_DESCRIPTIONS key) as [desc |] eqn:Hdesc; [| discriminate].
    intros [= <-]. unfold metaMatch in Hmatch.
    pose proof (word_prefix_words line) as Hwords.
    pose proof (word_prefix_split line) as Hsplit.
    destruct (word_prefix line) as [word after]. cbn [fst snd] in *.
    destruct word as [| w word]; [discriminate Hmatch |].
    destruct after as [| colon [| space after]]; try discriminate Hmatch.
    destruct ((colon =? code ":") && isWhiteSpace space && _) eqn:Hcond; [| discriminate Hmatch].
    injection Hmatch as Hkey. subst key.
    apply andb_true_iff in Hcond. destruct Hcond as [Hcond _].
    apply andb_true_iff in Hcond. destruct Hcond as [Hcolon _].
    apply Z.eqb_eq in Hcolon. subst colon.
    exists (w :: word), (space :: after), desc. repeat split; try assumption. discriminate.
Qed.

End DescriptionsFacts.

(** Stand-ins for the two tables, and the hovers of five lines. *)
Example provideHover_on_samples :
  let sections name :=
    if bool_decide (name = lit "content") then Some (lit "Primary output") else None in
  let fields key :=
    if bool_decide (key = lit "agent") then Some (lit "Name of the agent") else None in
  provideHover sections fields (lit "#@content  ")
  = Some (section_hover (lit "content") (lit "Primary output"))
  /\ provideHover sections fields (lit "#@notes")
     = Some (section_hover (lit "notes") (lit "Custom user-defined section."))
  /\ provideHover sections fields (lit "agent: cli")
     = Some (meta_hover (lit "agent") (lit "Name of the agent"))
  /\ provideHover sections fields (lit "agent:cli") = None
  /\ provideHover sections fields (lit "model: x") = None
  /\ provideHover sections fields (lit "#!PFM/1.0") = Some MAGIC_HOVER
  /\ provideHover sections fields (lit "#comment") = None.
Proof. vm_compute. repeat split; reflexivity. Qed.

End HoverFacts.
